(** * Statement section extraction and record stitching

    A shallow embedding of the statement parsers of the repository
    (the UOB, AMEX, OCBC, SRS and foreign-stock scripts) and the
    properties of their section bounding, record stitching and field
    normalisation.

    Strings are Python [str] values restricted to code points below 256
    (Latin-1), represented as lists of [ascii], and the case mappings
    are Python's on these code points.  Two letters have a capital that
    is no code point below 256; [Str.upper_char] says what the embedding
    does with them.  Text extraction from the PDF is external: every
    driver below starts from the per-page texts it returns. *)

From Stdlib Require Import Ascii String List Bool Arith Lia.
Import ListNotations.

Set Implicit Arguments.

Local Open Scope list_scope.

(** ** Strings *)

Definition str := list ascii.

(** String literals of the source. *)
Definition txt (s : string) : str := list_ascii_of_string s.

Module Str.

Definition code (c : ascii) : nat := nat_of_ascii c.

Definition between (lo hi : nat) (c : ascii) : bool :=
  (lo <=? code c) && (code c <=? hi).

(** [str.isspace] on one character (also the class [\s]). *)
Definition isspace (c : ascii) : bool :=
  between 9 13 c || between 28 32 c || (code c =? 133) || (code c =? 160).

(** The class [\d]. *)
Definition isdigit (c : ascii) : bool := between 48 57 c.

Definition isupper (c : ascii) : bool := between 65 90 c.
Definition islower (c : ascii) : bool := between 97 122 c.

(** The class [\w]: alphanumeric characters and the underscore. *)
Definition isword (c : ascii) : bool :=
  isdigit c || isupper c || islower c || (code c =? 95)
  || (code c =? 170) || (code c =? 178) || (code c =? 179) || (code c =? 181)
  || (code c =? 185) || (code c =? 186) || between 188 190 c
  || between 192 214 c || between 216 246 c || between 248 255 c.

(** The two letters of Latin-1 whose capital is no Latin-1 character:
    the micro sign (capital U+039C) and the y with diaeresis (capital
    U+0178). *)
Definition capital_outside (c : ascii) : bool :=
  (code c =? 181) || (code c =? 255).

(** [c.upper()] on one character.  The letters [a-z] and the accented
    letters 224-246 and 248-254 have their capital 32 code points
    below; the capital of the sharp s (223) is the two letters [SS];
    every other character is its own capital.  The two letters of
    [capital_outside] stay as they are, since their capital is outside
    the alphabet.  The noise classifier compares upper-cased text with
    ASCII text and matches it against [\s], [\d] and ASCII literals
    only, and none of these tells such a capital from its small letter;
    [normalize_amount] returns its upper-cased suffix, and the suffix
    that the parser passes to it is a match of [CR|DR]. *)
Definition upper_char (c : ascii) : list ascii :=
  if islower c || between 224 246 c || between 248 254 c
  then [ascii_of_nat (code c - 32)]
  else if code c =? 223 then txt "SS"
  else [c].

(** [c.lower()] on one character: the letters [A-Z] and the accented
    capitals 192-214 and 216-222 have their small letter 32 code points
    above. *)
Definition lower_char (c : ascii) : ascii :=
  if isupper c || between 192 214 c || between 216 222 c
  then ascii_of_nat (code c + 32)
  else c.

Definition upper (s : str) : str := flat_map upper_char s.
Definition lower (s : str) : str := map lower_char s.

Fixpoint eqb (a b : str) : bool :=
  match a, b with
  | [], [] => true
  | x :: a', y :: b' => Ascii.eqb x y && eqb a' b'
  | _, _ => false
  end.

Fixpoint lstrip (s : str) : str :=
  match s with
  | c :: t => if isspace c then lstrip t else s
  | [] => []
  end.

Definition rstrip (s : str) : str := rev (lstrip (rev s)).

Definition strip (s : str) : str := rstrip (lstrip s).

Fixpoint startswith (s p : str) : bool :=
  match p, s with
  | [], _ => true
  | x :: p', y :: s' => Ascii.eqb x y && startswith s' p'
  | _ :: _, [] => false
  end.

Definition endswith (s p : str) : bool := startswith (rev s) (rev p).

(** [s.find(p)], with [None] for -1. *)
Fixpoint find_from (i : nat) (s p : str) : option nat :=
  if startswith s p then Some i
  else match s with
       | [] => None
       | _ :: t => find_from (S i) t p
       end.

Definition find (s p : str) : option nat := find_from 0 s p.

(** [p in s]. *)
Definition contains (s p : str) : bool :=
  match find s p with Some _ => true | None => false end.

(** [s.replace(c, "")] for a one-character [c]. *)
Definition remove_char (c : ascii) (s : str) : str :=
  filter (fun x => negb (Ascii.eqb x c)) s.

(** [s.replace(c, d)] for one-character [c] and [d]. *)
Definition replace_char (c d : ascii) (s : str) : str :=
  map (fun x => if Ascii.eqb x c then d else x) s.

(** [sep.join(parts)]. *)
Fixpoint join (sep : str) (parts : list str) : str :=
  match parts with
  | [] => []
  | [p] => p
  | p :: ps => p ++ sep ++ join sep ps
  end.

(** Line boundaries of [str.splitlines]. *)
Definition islinebreak (c : ascii) : bool :=
  between 10 13 c || between 28 30 c || (code c =? 133).

(** [s.splitlines()]: a carriage return followed by a line feed is one
    boundary, and a final boundary opens no empty last line. *)
Fixpoint splitlines_aux (cur : str) (s : str) : list str :=
  match s with
  | [] => match cur with [] => [] | _ => [rev cur] end
  | c :: t =>
      if islinebreak c then
        match t with
        | d :: t' =>
            if (code c =? 13) && (code d =? 10)
            then rev cur :: splitlines_aux [] t'
            else rev cur :: splitlines_aux [] t
        | [] => [rev cur]
        end
      else splitlines_aux (c :: cur) t
  end.

Definition splitlines (s : str) : list str := splitlines_aux [] s.

(** [re.sub(r"\s+", "", s)]. *)
Definition compact (s : str) : str := filter (fun c => negb (isspace c)) s.

(** [re.sub(r"\s+", " ", s)]: every maximal run of whitespace becomes
    one space. *)
Fixpoint collapse_ws_aux (in_run : bool) (s : str) : str :=
  match s with
  | [] => []
  | c :: t =>
      if isspace c then
        if in_run then collapse_ws_aux true t
        else " "%char :: collapse_ws_aux true t
      else c :: collapse_ws_aux false t
  end.

Definition collapse_ws (s : str) : str := collapse_ws_aux false s.

(** [table.get(key, default)] on a dictionary from strings to strings. *)
Fixpoint get (table : list (str * str)) (key default : str) : str :=
  match table with
  | [] => default
  | (k, v) :: table' => if eqb k key then v else get table' key default
  end.

End Str.

(** ** Regular expressions

    The patterns of the source are [re] patterns; they are embedded as
    syntax trees and run by a backtracking matcher that explores the
    alternatives in the order of Python's engine: the left branch of an
    alternation first, one more iteration first for a greedy repetition
    and one fewer first for a lazy one. *)

Module Re.

Inductive regex : Type :=
| Eps
| Cls (p : ascii -> bool)
| Seq (a b : regex)
| Alt (a b : regex)
| Star (greedy : bool) (a : regex)
| Grp (name : string) (a : regex)
| Bol
| Eol
| Wb
| Ahead (a : regex).

(** A position in the subject: the characters before it (nearest
    first), the characters after it, and the groups closed so far. *)
Record st : Type := mkst {
  seen : list ascii;
  rest : list ascii;
  caps : list (string * str)
}.

Definition pos (s : st) : nat := length (seen s).

Definition step (s : st) (c : ascii) (t : list ascii) : st :=
  mkst (c :: seen s) t (caps s).

Definition set_cap (name : string) (v : str) (s : st) : st :=
  mkst (seen s) (rest s) ((name, v) :: caps s).

Definition orelse {A} (x : option A) (y : option A) : option A :=
  match x with Some _ => x | None => y end.

Definition head_is (p : ascii -> bool) (l : list ascii) : bool :=
  match l with c :: _ => p c | [] => false end.

Definition at_eol (l : list ascii) : bool :=
  match l with
  | [] => true
  | [c] => Str.code c =? 10
  | _ => false
  end.

(** The iterations of a repetition whose body is run by [body]: an
    iteration that consumes nothing ends the repetition, so at most one
    iteration per remaining character is tried. *)
Fixpoint star_loop (greedy : bool)
    (body : (st -> option st) -> st -> option st)
    (k : st -> option st) (fuel : nat) (s : st) : option st :=
  match fuel with
  | 0 => k s
  | S f =>
      let again (s' : st) :=
        if length (rest s') <? length (rest s)
        then star_loop greedy body k f s' else None in
      if greedy then orelse (body again s) (k s)
      else match k s with
           | Some x => Some x
           | None => body again s
           end
  end.

Fixpoint run (r : regex) (k : st -> option st) (s : st) : option st :=
  match r with
  | Eps => k s
  | Cls p =>
      match rest s with
      | c :: t => if p c then k (step s c t) else None
      | [] => None
      end
  | Seq a b => run a (run b k) s
  | Alt a b => orelse (run a k s) (run b k s)
  | Star greedy a => star_loop greedy (run a) k (length (rest s)) s
  | Grp name a =>
      run a (fun s' =>
               k (set_cap name
                    (firstn (length (rest s) - length (rest s')) (rest s)) s')) s
  | Bol => match seen s with [] => k s | _ => None end
  | Eol => if at_eol (rest s) then k s else None
  | Wb =>
      if xorb (head_is Str.isword (seen s)) (head_is Str.isword (rest s))
      then k s else None
  | Ahead a =>
      match run a (fun x => Some x) s with
      | Some _ => k s
      | None => None
      end
  end.

(** *** Pattern syntax *)

Definition chr (c : ascii) : regex := Cls (Ascii.eqb c).

(** A literal character under [re.IGNORECASE]. *)
Definition chri (c : ascii) : regex :=
  Cls (fun x => Ascii.eqb (Str.lower_char x) (Str.lower_char c)).

Fixpoint seqs (l : list regex) : regex :=
  match l with
  | [] => Eps
  | [r] => r
  | r :: l' => Seq r (seqs l')
  end.

Definition lit (s : string) : regex := seqs (map chr (txt s)).
Definition liti (s : string) : regex := seqs (map chri (txt s)).

Definition ws : regex := Cls Str.isspace.
Definition digit : regex := Cls Str.isdigit.
Definition dot : regex := Cls (fun c => negb (Str.code c =? 10)).
Definition dotall : regex := Cls (fun _ => true).
Definition AZ : regex := Cls Str.isupper.

Definition star (a : regex) : regex := Star true a.
Definition plus (a : regex) : regex := Seq a (Star true a).
Definition lazy_star (a : regex) : regex := Star false a.
Definition lazy_plus (a : regex) : regex := Seq a (Star false a).
Definition opt (a : regex) : regex := Alt a Eps.

Fixpoint rep (n : nat) (a : regex) : regex :=
  match n with
  | 0 => Eps
  | 1 => a
  | S m => Seq a (rep m a)
  end.

(** [a{1,n}] for [n >= 1]. *)
Fixpoint upto (n : nat) (a : regex) : regex :=
  match n with
  | 0 => Eps
  | 1 => a
  | S m => Seq a (opt (upto m a))
  end.

(** *** Match objects *)

Record mobj : Type := mkmobj {
  m_start : nat;
  m_end : nat;
  m_caps : list (string * str)
}.

Fixpoint lookup (name : string) (l : list (string * str)) : option str :=
  match l with
  | [] => None
  | (n, v) :: l' => if String.eqb n name then Some v else lookup name l'
  end.

(** [m.group(name)], [None] when the group took no part in the match. *)
Definition group (m : mobj) (name : string) : option str :=
  lookup name (m_caps m).

Definition at_pos (r : regex) (sn rs : list ascii) : option st :=
  run r (fun x => Some x) (mkst sn rs []).

Definition to_mobj (start : nat) (s : st) : mobj :=
  mkmobj start (pos s) (caps s).

(** The leftmost match at or after a position, with its start offset. *)
Fixpoint search_from (r : regex) (sn rs : list ascii) : option (nat * st) :=
  match at_pos r sn rs with
  | Some s => Some (length sn, s)
  | None =>
      match rs with
      | [] => None
      | c :: t => search_from r (c :: sn) t
      end
  end.

(** [pattern.search(s)]. *)
Definition search (r : regex) (s : str) : option mobj :=
  option_map (fun x => to_mobj (fst x) (snd x)) (search_from r [] s).

(** [pattern.match(s)]. *)
Definition match_ (r : regex) (s : str) : option mobj :=
  option_map (to_mobj 0) (at_pos r [] s).

(** [pattern.fullmatch(s)]. *)
Definition fullmatch (r : regex) (s : str) : option mobj :=
  option_map (to_mobj 0)
    (run r (fun x => match rest x with [] => Some x | _ => None end)
       (mkst [] s [])).

(** [pattern.finditer(s)]: the matches from left to right, each search
    starting where the previous match ended (one character further after
    an empty match). *)
Fixpoint finditer_from (fuel : nat) (r : regex) (sn rs : list ascii)
  : list mobj :=
  match fuel with
  | 0 => []
  | S f =>
      match search_from r sn rs with
      | Some (i, e) =>
          to_mobj i e ::
          (if i <? pos e then finditer_from f r (seen e) (rest e)
           else match rest e with
                | [] => []
                | c :: t => finditer_from f r (c :: seen e) t
                end)
      | None => []
      end
  end.

Definition finditer (r : regex) (s : str) : list mobj :=
  finditer_from (S (length s)) r [] s.

End Re.

(** ** The UOB statement parser (02-Automate-UOB-Credit-Statements.py) *)

Module UOB.

Import Re.

Definition start_marker : str :=
  txt "Post Trans Description of Transaction Transaction Amount".
Definition end_marker : str := txt "SUB TOTAL".

Definition START_MARKER_RE : regex :=
  seqs [ liti "Post"; star ws; opt (Seq (liti "Date") (star ws));
         liti "Trans"; star ws; opt (Seq (liti "Date") (star ws));
         liti "Description"; star ws; liti "of"; star ws;
         liti "Transaction"; star ws; liti "Transaction"; star ws;
         liti "Amount" ].

Definition END_MARKER_RE : regex :=
  seqs [ liti "SUB"; star ws; liti "TOTAL" ].

Definition _compact (s : str) : str := Str.compact s.

(** The text of a document: the page texts joined by line feeds. *)
Definition all_text_of (pages : list str) : str :=
  Str.join [ascii_of_nat 10] pages.

(** [all_text[i:]] and [all_text[:i]]. *)
Definition slice_from (i : nat) (s : str) : str := skipn i s.
Definition slice_to (i : nat) (s : str) : str := firstn i s.

(** The table [raw_index_from_compact]: the original index of every
    character that is not whitespace. *)
Fixpoint raw_index_from (i : nat) (s : str) : list nat :=
  match s with
  | [] => []
  | c :: t =>
      if Str.isspace c then raw_index_from (S i) t
      else i :: raw_index_from (S i) t
  end.

Definition raw_index_from_compact (s : str) : list nat := raw_index_from 0 s.

(** The end of the section: the text up to the end of the first end
    marker after the start. *)
Definition cut_at_end (after_start : str) : option str :=
  match search END_MARKER_RE after_start with
  | None => None
  | Some m => Some (slice_to (m_end m) after_start)
  end.

(** The first definition of [extract_section_text] (lines 38-80), with
    the whitespace-compacted fallback. *)
Definition extract_section_text_compacting (pages : list str) : option str :=
  let all_text := all_text_of pages in
  match search START_MARKER_RE all_text with
  | None =>
      let compact_text := _compact all_text in
      let compact_start := _compact start_marker in
      let idx :=
        match Str.find compact_text compact_start with
        | Some i => Some i
        | None =>
            let fallback :=
              Str.lower (txt "PostTransDescriptionofTransactionTransactionAmount") in
            Str.find (Str.lower compact_text) (_compact fallback)
        end in
      match idx with
      | None => None
      | Some i =>
          match nth_error (raw_index_from_compact all_text) i with
          | None => None
          | Some start_raw_idx => cut_at_end (slice_from start_raw_idx all_text)
          end
      end
  | Some m => cut_at_end (slice_from (m_start m) all_text)
  end.

(** The second definition of [extract_section_text] (lines 165-183).  It
    is bound to the name after the first one, so it is the one the driver
    calls. *)
Definition extract_section_text (pages : list str) : option str :=
  let all_text := all_text_of pages in
  match search START_MARKER_RE all_text with
  | None => None
  | Some m => cut_at_end (slice_from (m_start m) all_text)
  end.

Definition TX_START_RE : regex :=
  seqs [ Bol;
         Grp "post" (seqs [ rep 2 digit; plus ws; rep 3 AZ ]); plus ws;
         Grp "trans" (seqs [ rep 2 digit; plus ws; rep 3 AZ ]); plus ws;
         Grp "rest" (plus dot); Eol ].

(** The amount token [\d{1,3}(?:,\d{3})*\.\d{2}]. *)
Definition amount_token : regex :=
  seqs [ upto 3 digit; star (Seq (chr ",") (rep 3 digit));
         chr "."; rep 2 digit ].

Definition AMT_AT_END_RE : regex :=
  seqs [ Grp "num" amount_token; star ws;
         opt (Grp "suffix" (Alt (liti "CR") (liti "DR"))); Eol ].

Definition AMT_ONLY_RE : regex := Seq Bol AMT_AT_END_RE.

Definition or_empty (o : option str) : str :=
  match o with Some s => s | None => [] end.

Definition normalize_amount (num : option str) (suffix : option str) : str :=
  let num := Str.strip (Str.remove_char "," (or_empty num)) in
  let suf := Str.upper (Str.strip (or_empty suffix)) in
  if Str.eqb suf (txt "CR") then txt "(" ++ num ++ txt ")"
  else match suf with
       | [] => num
       | _ => num ++ suf
       end.

(** [s in {start_marker, end_marker, "Date Date SGD"}]. *)
Definition is_marker_literal (s : str) : bool :=
  Str.eqb s start_marker || Str.eqb s end_marker
  || Str.eqb s (txt "Date Date SGD").

Definition found (o : option mobj) : bool :=
  match o with Some _ => true | None => false end.

Definition PAGE_RE : regex :=
  seqs [ Bol; lit "PAGE"; plus ws; plus digit; plus ws; lit "OF";
         plus ws; plus digit ].

Definition MASKED_PAN_RE : regex :=
  seqs [ Wb; rep 4 digit; chr "-"; rep 4 digit; chr "-"; rep 4 digit;
         chr "-"; rep 4 digit; Wb ].

Definition DATE_DATE_SGD_RE : regex :=
  seqs [ lit "DATE"; plus ws; lit "DATE"; plus ws; lit "SGD" ].

Definition is_redundant_line (line : str) : bool :=
  let s := Str.strip line in
  match s with
  | [] => true
  | _ =>
      let s_upper := Str.upper s in
      let s_compact := Str.upper (Str.compact s) in
      found (search START_MARKER_RE s) || found (search END_MARKER_RE s)
      || is_marker_literal s
      || Str.startswith s_upper (txt "PREVIOUS BALANCE")
      || (Str.contains s_upper (txt "PLEASE")
          && Str.contains s_upper (txt "BOUND")
          && Str.contains s_upper (txt "DUTY"))
      || Str.contains s_compact (txt "PLEASENOTETHATYOUAREBOUNDBYADUTY")
      || Str.contains s_compact (txt "UNAUTHORISEDDEBITS")
      || Str.contains s_compact (txt "CONCLUSIVELYBINDING")
      || Str.contains s_compact (txt "CLAIMAGAINSTTHEBANK")
      || Str.contains s_upper (txt "UNITED OVERSEAS BANK LIMITED")
      || Str.contains s_upper (txt "UOB PLAZA")
      || Str.contains s_upper (txt "WWW.UOB.COM.SG")
      || found (match_ PAGE_RE s_upper)
      || Str.startswith s_upper (txt "UOB ONE CARD")
      || Str.contains s_upper (txt "(CONTINUED)")
      || found (search MASKED_PAN_RE s)
      || found (fullmatch DATE_DATE_SGD_RE s_upper)
      || Str.eqb (txt "DATEDATESGD") s_compact
  end.

(** The loop of [clean_lines] over the stripped lines: a noise line or
    a line holding the start marker is skipped, and the loop stops at
    the first line holding the end marker. *)
Fixpoint clean_loop (raw : list str) : list str :=
  match raw with
  | [] => []
  | ln :: raw' =>
      if is_redundant_line ln then clean_loop raw'
      else if found (search START_MARKER_RE ln) then clean_loop raw'
      else if found (search END_MARKER_RE ln) then []
      else ln :: clean_loop raw'
  end.

Definition clean_lines (section : str) : list str :=
  clean_loop (map Str.strip (Str.splitlines section)).

(** A row of the output; [Year] is absent until [flush] sets it. *)
Record row : Type := mkrow {
  Transaction_Date_Captured : str;
  Description_Captured : str;
  Amount_Captured : str;
  Year : option str
}.

(** Step 1 of [parse_tx_from_buffer]: the amount at the end of the first
    line counts only when some description precedes it. *)
Definition first_line (first : str) : option str * list str :=
  match search AMT_AT_END_RE first with
  | Some m =>
      let before_amt := Str.strip (slice_to (m_start m) first) in
      match before_amt with
      | [] => (None, [first])
      | _ => (Some (normalize_amount (group m "num") (group m "suffix")),
              [before_amt])
      end
  | None => (None, [first])
  end.

(** Step 2: the loop over the continuation lines. *)
Fixpoint continuation (amount : option str) (desc_parts : list str)
    (conts : list str) : option str * list str :=
  match conts with
  | [] => (amount, desc_parts)
  | cont :: conts' =>
      let s := Str.strip cont in
      match s with
      | [] => continuation amount desc_parts conts'
      | _ =>
          if is_redundant_line s then continuation amount desc_parts conts'
          else
            match amount, match_ AMT_ONLY_RE s with
            | None, Some m_only =>
                continuation
                  (Some (normalize_amount (group m_only "num")
                           (group m_only "suffix")))
                  desc_parts conts'
            | _, _ => continuation amount (desc_parts ++ [s]) conts'
            end
      end
  end.

Definition parse_tx_from_buffer (post_date trans_date : str)
    (buffer_lines : list str) : option row :=
  match buffer_lines with
  | [] => None
  | first :: conts =>
      let '(amount, desc_parts) := first_line (Str.strip first) in
      match continuation amount desc_parts conts with
      | (None, _) => None
      | (Some amount, desc_parts) =>
          let description :=
            Str.strip (Str.collapse_ws (Str.join (txt " ") desc_parts)) in
          Some (mkrow (Str.strip trans_date) description amount None)
      end
  end.

(** ** The stitcher of [extract_rows_from_pdf] *)

Record stitch : Type := mkstitch {
  rows : list row;
  current_post : option str;
  current_trans : option str;
  buffer_lines : list str
}.

Definition with_year (year_value : str) (r : row) : row :=
  mkrow (Transaction_Date_Captured r) (Description_Captured r)
        (Amount_Captured r) (Some year_value).

Definition flush (year_value : str) (st : stitch) : stitch :=
  let rows' :=
    match current_post st, current_trans st, buffer_lines st with
    | Some (p :: post), Some (t :: trans), b :: bs =>
        match parse_tx_from_buffer (p :: post) (t :: trans) (b :: bs) with
        | Some rec => rows st ++ [with_year year_value rec]
        | None => rows st
        end
    | _, _, _ => rows st
    end in
  mkstitch rows' None None [].

(** One turn of the [while] loop. *)
Definition stitch_line (year_value : str) (st : stitch) (line : str) : stitch :=
  let ln := Str.strip line in
  match match_ TX_START_RE ln with
  | Some m =>
      let st' := flush year_value st in
      mkstitch (rows st') (group m "post") (group m "trans")
               [Str.strip (or_empty (group m "rest"))]
  | None =>
      match current_post st with
      | Some _ =>
          mkstitch (rows st) (current_post st) (current_trans st)
                   (buffer_lines st ++ [ln])
      | None => st
      end
  end.

Definition stitch_lines (year_value : str) (st : stitch) (lines : list str)
  : stitch :=
  fold_left (stitch_line year_value) lines st.

Definition idle : stitch := mkstitch [] None None [].

(** The rows stitched from a line stream. *)
Definition stitch_rows (year_value : str) (lines : list str) : list row :=
  rows (flush year_value (stitch_lines year_value idle lines)).

Definition extract_rows_from_pdf (year_value : str) (pages : list str)
  : list row :=
  match extract_section_text pages with
  | None => []
  | Some [] => []
  | Some section => stitch_rows year_value (clean_lines section)
  end.

(** The batch (lines 322-324): the rows of every document, in order.
    A document is its year folder and its page texts. *)
Definition all_rows (pdf_files : list (str * list str)) : list row :=
  flat_map (fun d => extract_rows_from_pdf (fst d) (snd d)) pdf_files.

End UOB.

(** ** The AMEX statement parser (03-Automate-AMEX-Credit-Statements.py) *)

Module AMEX.

Import Re.

Definition start_marker_re : regex :=
  seqs [ liti "Details"; plus ws; liti "Foreign"; plus ws; liti "Spending";
         plus ws; liti "Amount"; star ws; liti "S$" ].

Definition end_marker : str := txt "Total of New Transactions".

Definition DATE_DDMMYY_DOTS_RE : regex :=
  seqs [ Bol; rep 2 digit; chr "."; rep 2 digit; chr "."; rep 2 digit; Wb ].

(** The class [[0-9,]]. *)
Definition digit_or_comma : regex :=
  Cls (fun c => Str.isdigit c || Ascii.eqb c ",").

Definition TX_RE : regex :=
  seqs [ Bol;
         Grp "date" (seqs [ rep 2 digit; chr "."; rep 2 digit; chr ".";
                            rep 2 digit ]);
         plus ws;
         Grp "desc" (lazy_plus dot); plus ws;
         Grp "amt" (seqs [ plus digit_or_comma; chr "."; rep 2 digit ]);
         opt (Grp "cr" (lit "CR")); star ws; Eol ].

(** *** [datetime.strptime(date_str, "%d.%m.%y")]

    The directive patterns are those of the standard library: the format
    is turned into a pattern that must match the whole string, the
    two-digit year is placed in 1969-2068, and the day must exist in the
    month. *)

Definition range (lo hi : nat) : regex := Cls (Str.between lo hi).

Definition STRPTIME_RE : regex :=
  seqs [ Grp "d" (Alt (Seq (chr "3") (range 48 49))
                 (Alt (Seq (range 49 50) digit)
                 (Alt (Seq (chr "0") (range 49 57))
                 (Alt (range 49 57)
                      (Seq (chr " ") (range 49 57))))));
         chr ".";
         Grp "m" (Alt (Seq (chr "1") (range 48 50))
                 (Alt (Seq (chr "0") (range 49 57))
                      (range 49 57)));
         chr ".";
         Grp "y" (Seq digit digit) ].

(** [int(s)] on a string of digits that may start with a space. *)
Definition int_of (s : str) : nat :=
  fold_left (fun n c => if Str.isdigit c then 10 * n + (Str.code c - 48) else n)
            s 0.

Definition is_leap (y : nat) : bool :=
  ((y mod 4 =? 0) && negb (y mod 100 =? 0)) || (y mod 400 =? 0).

Definition days_in_month (y m : nat) : nat :=
  match m with
  | 2 => if is_leap y then 29 else 28
  | 4 | 6 | 9 | 11 => 30
  | _ => 31
  end.

Record date : Type := mkdate { d_year : nat; d_month : nat; d_day : nat }.

Definition strptime (date_str : str) : option date :=
  match match_ STRPTIME_RE date_str with
  | None => None
  | Some m =>
      if negb (m_end m =? length date_str) then None
      else
        match group m "d", group m "m", group m "y" with
        | Some d, Some mo, Some y =>
            let yy := int_of y in
            let year := if yy <=? 68 then 2000 + yy else 1900 + yy in
            let month := int_of mo in
            let day := int_of d in
            if day <=? days_in_month year month
            then Some (mkdate year month day) else None
        | _, _, _ => None
        end
  end.

Definition digit_char (n : nat) : ascii := ascii_of_nat (48 + n mod 10).

Definition two_digits (n : nat) : str :=
  [digit_char (n / 10); digit_char n].

Definition four_digits (n : nat) : str :=
  [digit_char (n / 1000); digit_char (n / 100); digit_char (n / 10);
   digit_char n].

(** The month abbreviations of [%b], in the default (C) locale. *)
Definition month_abbr (m : nat) : str :=
  txt (nth (m - 1)
         ["Jan"; "Feb"; "Mar"; "Apr"; "May"; "Jun";
          "Jul"; "Aug"; "Sep"; "Oct"; "Nov"; "Dec"]%string ""%string).

(** [format_date_and_year]; [None] stands for the exception that
    [strptime] raises. *)
Definition format_date_and_year (date_str : str) : option (str * str) :=
  match strptime date_str with
  | None => None
  | Some dt =>
      let day_mon :=
        Str.upper (two_digits (d_day dt) ++ txt " " ++ month_abbr (d_month dt)) in
      let year_yyyy := four_digits (d_year dt) in
      Some (day_mon, year_yyyy)
  end.

Definition format_amount_for_excel (amount_str : str) (is_credit : bool) : str :=
  let amt := Str.strip (Str.remove_char "," amount_str) in
  if is_credit then txt "(" ++ amt ++ txt ")" else amt.

Definition redundant_substrings : list str :=
  map txt
    [ "American Express International"; "UEN"; "Statement of Account";
      "Prepared for Membership Number"; "Membership Number";
      "PAYMENT ADVICE"; "Please return"; "Minimum Payment"; "Due by";
      "Enter amount enclosed"; "Please make crossed cheque payable";
      "AMERICAN EXPRESS"; "Please do not write"; "The Rewards Card";
      "Page "; "Important Information"; "Foreign Currency Charges";
      "Online Services"; "Payment Method"; "Privacy:"; "Limited Liability";
      "Credit Card Interest Rate Policy";
      "log on to americanexpress.com.sg"; "amex.co/"; "reply envelope"
    ]%string.

Definition found (o : option mobj) : bool :=
  match o with Some _ => true | None => false end.

Definition is_redundant_line (line : str) : bool :=
  let s := Str.strip line in
  match s with
  | [] => true
  | _ =>
      if Str.eqb s end_marker || found (search start_marker_re s) then true
      else
        let s_lower := Str.lower s in
        existsb (fun sub => Str.contains s_lower (Str.lower sub))
                redundant_substrings
  end.

Record row : Type := mkrow {
  Transaction_Date_Captured : str;
  Year : str;
  Description_Captured : str;
  Amount_Captured : str
}.

Definition or_empty (o : option str) : str :=
  match o with Some s => s | None => [] end.

Definition is_some {A} (o : option A) : bool :=
  match o with Some _ => true | None => false end.

Definition parse_transaction_line (line : str) : option row :=
  match match_ TX_RE (Str.strip line) with
  | None => None
  | Some m =>
      let raw_date := or_empty (group m "date") in
      let '(tx_date, year_yyyy) :=
        match format_date_and_year raw_date with
        | Some p => p
        | None => (raw_date, [])
        end in
      let amt :=
        format_amount_for_excel (or_empty (group m "amt"))
                                (is_some (group m "cr")) in
      Some (mkrow tx_date year_yyyy (Str.strip (or_empty (group m "desc"))) amt)
  end.

(** The pattern of [extract_marker_segments]: a start marker, the
    segment (shortest first), and ahead of it the next start marker or
    the end marker. *)
Definition seg_re : regex :=
  seqs [ start_marker_re; Grp "1" (lazy_star dotall);
         Ahead (Alt start_marker_re (liti "Total of New Transactions")) ].

Definition nbsp : ascii := ascii_of_nat 160.

Definition extract_marker_segments (all_text : str) : list str :=
  let all_text := Str.replace_char nbsp " " all_text in
  map (fun m => or_empty (group m "1")) (finditer seg_re all_text).

Definition set_amount (a : str) (r : row) : row :=
  mkrow (Transaction_Date_Captured r) (Year r) (Description_Captured r) a.

Definition parenthesized (s : str) : bool :=
  Str.startswith s (txt "(") && Str.endswith s (txt ")").

(** The standalone [CR] branch applied to one row. *)
Definition credit_row (r : row) : row :=
  let prev := Str.strip (Amount_Captured r) in
  if parenthesized prev then r
  else set_amount (format_amount_for_excel prev true) r.

(** [rows[-1] = f(rows[-1])] when [rows] is not empty. *)
Fixpoint update_last {A} (f : A -> A) (l : list A) : list A :=
  match l with
  | [] => []
  | [x] => [f x]
  | x :: l' => x :: update_last f l'
  end.

(** The standalone [CR] branch of the loop (lines 169-174). *)
Definition standalone_CR (rows : list row) : list row :=
  update_last credit_row rows.

Definition is_CR (line : str) : bool := Str.eqb (Str.strip line) (txt "CR").

(** The [while] loop of [extract_rows_from_pdf] over the clean lines. *)
Fixpoint rows_loop (rows : list row) (clean_lines : list str) : list row :=
  match clean_lines with
  | [] => rows
  | l :: rest =>
      let line := Str.strip l in
      if Str.eqb line (txt "CR") then rows_loop (standalone_CR rows) rest
      else if negb (found (match_ DATE_DDMMYY_DOTS_RE line))
      then rows_loop rows rest
      else
        match parse_transaction_line line with
        | None => rows_loop rows rest
        | Some rec =>
            match rest with
            | nxt :: rest' =>
                if is_CR nxt then
                  rows_loop
                    (rows ++ [set_amount
                                (format_amount_for_excel (Amount_Captured rec) true)
                                rec])
                    rest'
                else rows_loop (rows ++ [rec]) rest
            | [] => rows_loop (rows ++ [rec]) rest
            end
        end
  end.

(** The clean lines of the segments: every line stripped, the empty and
    the noise lines dropped. *)
Definition clean_of (segments : list str) : list str :=
  let raw_lines := flat_map (fun seg => map Str.strip (Str.splitlines seg)) segments in
  filter (fun s => match s with
                   | [] => false
                   | _ => negb (is_redundant_line s)
                   end)
         (map Str.strip raw_lines).

Definition rows_of_segments (segments : list str) : list row :=
  rows_loop [] (clean_of segments).

Definition extract_rows_from_pdf (pages : list str) : list row :=
  let all_text := Str.join [ascii_of_nat 10] pages in
  match extract_marker_segments all_text with
  | [] => []
  | segments => rows_of_segments segments
  end.

(** The batch (lines 199-201). *)
Definition all_rows (pdf_files : list (list str)) : list row :=
  flat_map extract_rows_from_pdf pdf_files.

End AMEX.

(** ** The OCBC statement parser (Automate-OCBC-Credit-Statements.py) *)

Module OCBC.

Definition MONTH_ABBR : list (str * str) :=
  map (fun p => (txt (fst p), txt (snd p)))
    [ ("01", "Jan"); ("02", "Feb"); ("03", "Mar"); ("04", "Apr");
      ("05", "May"); ("06", "Jun"); ("07", "Jul"); ("08", "Aug");
      ("09", "Sep"); ("10", "Oct"); ("11", "Nov"); ("12", "Dec")
    ]%string.

(** [s.split(sep)] for a one-character separator. *)
Fixpoint split_aux (sep : ascii) (cur : str) (s : str) : list str :=
  match s with
  | [] => [rev cur]
  | c :: t =>
      if Ascii.eqb c sep then rev cur :: split_aux sep [] t
      else split_aux sep (c :: cur) t
  end.

Definition split (sep : ascii) (s : str) : list str := split_aux sep [] s.

(** [s.zfill(2)]: zeros are inserted after a leading sign. *)
Definition zfill2 (s : str) : str :=
  match s with
  | [] => txt "00"
  | [c] =>
      if Ascii.eqb c "+" || Ascii.eqb c "-" then [c; "0"%char]
      else ["0"%char; c]
  | _ => s
  end.

Definition format_tx_date (date_str : str) : str :=
  let s := Str.strip date_str in
  match split "/" s with
  | p0 :: p1 :: _ =>
      let dd := zfill2 p0 in
      let mm := zfill2 p1 in
      dd ++ txt " " ++ Str.get MONTH_ABBR mm mm
  | _ => s
  end.

End OCBC.

(** ** The SRS statement parser (AutomateParsingSRS.py) *)

Module SRS.

Import Re.

Definition digit_or_comma : regex :=
  Cls (fun c => Str.isdigit c || Ascii.eqb c ",").

Definition money : regex :=
  seqs [ plus digit_or_comma; chr "."; rep 2 digit ].

Definition LINE_RE : regex :=
  seqs [ Bol;
         Grp "1" (Seq (rep 2 digit) (rep 3 AZ)); plus ws;
         Grp "2" (seqs [ lit "CR DIVIDENDS FOR"; plus ws; lazy_plus dot ]);
         plus ws;
         Grp "3" money; plus ws;
         Grp "4" money; star ws; Eol ].

Definition month_map : list (str * str) :=
  map (fun p => (txt (fst p), txt (snd p)))
    [ ("JAN", "Jan"); ("FEB", "Feb"); ("MAR", "Mar"); ("APR", "Apr");
      ("MAY", "May"); ("JUN", "Jun"); ("JUL", "Jul"); ("AUG", "Aug");
      ("SEP", "Sep"); ("OCT", "Oct"); ("NOV", "Nov"); ("DEC", "Dec")
    ]%string.

(** The date conversion of [parse_transaction_line] (lines 59-62); the
    year is the constant of the source. *)
Definition convert_date (date_raw : str) : str :=
  let day := firstn 2 date_raw in
  let key := firstn 3 (skipn 2 date_raw) in
  let mon := Str.get month_map key key in
  day ++ txt "-" ++ mon ++ txt "-24".

Record row : Type := mkrow {
  Date : str;
  Description : str;
  Credit : str
}.

Definition or_empty (o : option str) : str :=
  match o with Some s => s | None => [] end.

Definition parse_transaction_line (line : str) : option row :=
  match match_ LINE_RE line with
  | None => None
  | Some m =>
      Some (mkrow (convert_date (or_empty (group m "1")))
                  (or_empty (group m "2"))
                  (or_empty (group m "3")))
  end.

End SRS.

(** ** The foreign-stock statement parser (AutomateParsingForeignStocks.py) *)

Module FS.

Definition start_marker : str := txt "S t a t e m e n t O f A c c o u n t".
Definition end_marker : str := txt "C u s t o d y S t a t e m e n t".

(** The outcome of a script: its value, or the exception it raises. *)
Inductive outcome (A : Type) : Type :=
| Returned (a : A)
| Raised (exception : string).

Arguments Returned {A} a.
Arguments Raised {A} exception.

(** [all_text]: every page text followed by a line feed. *)
Definition all_text_of (pages : list str) : str :=
  flat_map (fun page_text => page_text ++ [ascii_of_nat 10]) pages.

(** [s.split(sep, 1)[1]] when [sep] occurs in [s]. *)
Definition after_first (s sep : str) : option str :=
  match Str.find s sep with
  | Some i => Some (skipn (i + length sep) s)
  | None => None
  end.

(** [s.split(sep, 1)[0]]. *)
Definition before_first (s sep : str) : str :=
  match Str.find s sep with
  | Some i => firstn i s
  | None => s
  end.

(** Step 2 of the script (lines 118-128): the cut from the start marker
    to the end marker. *)
Definition section_of (pages : list str) : outcome str :=
  let all_text := all_text_of pages in
  match after_first all_text start_marker with
  | None => Raised "ValueError"
  | Some section =>
      if Str.contains section end_marker
      then Returned (before_first section end_marker)
      else Returned section
  end.

End FS.

(** ** The OCBC driver (Automate-OCBC-Credit-Statements.py, lines 21-171) *)

Module OCBCDriver.

Import Re.

Definition start_marker : str :=
  txt "TRANSACTION DATE DESCRIPTION AMOUNT (SGD)".
Definition end_marker : str := txt "SUBTOTAL".

Definition redundant_substrings : list str :=
  map txt
    [ "OCBC 365 CREDIT CARD"; "penalty interest rate"; "back of statement";
      "TAN "; "xxxx-xxxx-xxxx-xxxx"; "LAST MONTH'S BALANCE"; "Co.Reg.no.:";
      "PAGE "; "OCBC Bank - Credit Cards"; "65 Chulia Street"; "OCBC Centre";
      "Singapore 049513"; "CONTACT US"; "1800 363 3333"; "(65) 6363 3333";
      "when overseas"
    ]%string.

Definition is_redundant_line (line : str) : bool :=
  let s := Str.strip line in
  match s with
  | [] => true
  | _ =>
      if Str.eqb s start_marker || Str.eqb s end_marker then true
      else existsb (fun sub => Str.contains s sub) redundant_substrings
  end.

Definition digit_or_comma : regex :=
  Cls (fun c => Str.isdigit c || Ascii.eqb c ",").

Definition TX_RE : regex :=
  seqs [ Bol;
         Grp "date" (seqs [ rep 2 digit; chr "/"; rep 2 digit ]); plus ws;
         Grp "desc" (lazy_plus dot); plus ws;
         Grp "amt" (seqs [ opt (chr "("); opt (chr "-"); plus digit_or_comma;
                           chr "."; rep 2 digit; opt (chr ")") ]);
         star ws; Eol ].

(** A row of the output; [Year] is absent until the loop sets it. *)
Record row : Type := mkrow {
  TRANSACTION_DATE : str;
  DESCRIPTION : str;
  AMOUNT : str;
  Year : option str
}.

Definition or_empty (o : option str) : str :=
  match o with Some s => s | None => [] end.

Definition found (o : option mobj) : bool :=
  match o with Some _ => true | None => false end.

Definition parse_transaction_line (line : str) : option row :=
  match match_ TX_RE (Str.strip line) with
  | None => None
  | Some m =>
      Some (mkrow (OCBC.format_tx_date (or_empty (group m "date")))
                  (Str.strip (or_empty (group m "desc")))
                  (or_empty (group m "amt")) None)
  end.

(** The block from the header to the first [SUBTOTAL] behind it. *)
Definition block_re : regex :=
  seqs [ lit "TRANSACTION DATE DESCRIPTION AMOUNT (SGD)"; lazy_star dotall;
         lit "SUBTOTAL" ].

(** The loop that builds [clean_lines] from the stripped lines. *)
Fixpoint clean_loop (raw_lines : list str) : list str :=
  match raw_lines with
  | [] => []
  | ln :: raw' =>
      let s := Str.strip ln in
      if Str.eqb s start_marker then clean_loop raw'
      else if Str.eqb s end_marker then []
      else if is_redundant_line s then clean_loop raw'
      else s :: clean_loop raw'
  end.

Definition set_year (year_value : str) (r : row) : row :=
  mkrow (TRANSACTION_DATE r) (DESCRIPTION r) (AMOUNT r) (Some year_value).

Definition add_description (nxt : str) (r : row) : row :=
  mkrow (TRANSACTION_DATE r)
        (Str.strip (DESCRIPTION r ++ txt " " ++ nxt))
        (AMOUNT r) (Year r).

(** The [while] loop over the clean lines: a transaction line takes
    the next line as the rest of its description when that line is
    neither a transaction line nor noise. *)
Fixpoint rows_loop (year_value : str) (clean_lines : list str) : list row :=
  match clean_lines with
  | [] => []
  | line :: rest =>
      match parse_transaction_line line with
      | None => rows_loop year_value rest
      | Some rec =>
          let rec := set_year year_value rec in
          match rest with
          | nxt :: rest' =>
              if negb (found (match_ TX_RE nxt)) && negb (is_redundant_line nxt)
              then add_description nxt rec :: rows_loop year_value rest'
              else rec :: rows_loop year_value rest
          | [] => [rec]
          end
      end
  end.

Definition extract_rows_from_pdf (year_value : str) (pages : list str)
  : list row :=
  let all_text := Str.join [ascii_of_nat 10] pages in
  match search block_re all_text with
  | None => []
  | Some m =>
      let section := firstn (m_end m - m_start m) (skipn (m_start m) all_text) in
      rows_loop year_value (clean_loop (map Str.strip (Str.splitlines section)))
  end.

End OCBCDriver.

(** ** The SRS driver (AutomateParsingSRS.py, lines 94-120) *)

Module SRSDriver.

Definition start_marker : str := txt "TTRRAANNSSAACCTTIIOONN DDEETTAAIILLSS".
Definition end_marker : str := txt "SECURITY INVESTMENT ACTIVITY".

(** The section of one page; [None] when the loop skips the page. *)
Definition section_of_page (text : str) : option str :=
  match FS.after_first text start_marker with
  | None => None
  | Some section =>
      if Str.contains section end_marker
      then Some (FS.before_first section end_marker)
      else Some section
  end.

(** The rows that one page appends to [rows]. *)
Definition page_rows (text : str) : list SRS.row :=
  match section_of_page text with
  | None => []
  | Some section =>
      flat_map (fun raw_line =>
                  match SRS.parse_transaction_line (Str.strip raw_line) with
                  | Some record => [record]
                  | None => []
                  end)
               (Str.splitlines section)
  end.

(** [rows] after the loop over the pages. *)
Definition rows_of (pages : list str) : list SRS.row :=
  flat_map page_rows pages.

End SRSDriver.

(** ** The foreign-stock driver (AutomateParsingForeignStocks.py,
       lines 24-77 and 134-166) *)

Module FSDriver.

Import Re.

Definition digit_or_comma : regex :=
  Cls (fun c => Str.isdigit c || Ascii.eqb c ",").

Definition money : regex :=
  seqs [ plus digit_or_comma; chr "."; rep 2 digit ].

Definition date : regex :=
  seqs [ rep 2 digit; chr "/"; rep 2 digit; chr "/"; rep 4 digit ].

Definition TX_RE : regex :=
  seqs [ Bol;
         Grp "1" date; plus ws;
         Grp "2" (plus (Cls (fun c => Str.isupper c || Str.isdigit c)));
         plus ws;
         Grp "3" (Alt (lit "CR") (lit "DR")); plus ws;
         lit "Note"; plus ws;
         Grp "4" (lazy_plus dot); plus ws;
         Grp "5" money; plus ws;
         Grp "6" money; star ws; Eol ].

Record row : Type := mkrow {
  Date : str;
  Description : str;
  Credit : str;
  Ref : str;
  Balance : str;
  CRDR : str
}.

Definition or_empty (o : option str) : str :=
  match o with Some s => s | None => [] end.

Definition found (o : option mobj) : bool :=
  match o with Some _ => true | None => false end.

Definition parse_transaction_line (line : str) : option row :=
  if negb (Str.contains line (txt "CR Note W.E.F"))
     && negb (Str.contains line (txt "DR Note HANDLING"))
  then None
  else
    match match_ TX_RE line with
    | None => None
    | Some m =>
        let crdr_flag := or_empty (group m "3") in
        let note_suffix := or_empty (group m "4") in
        Some (mkrow (or_empty (group m "1"))
                    (crdr_flag ++ txt " Note " ++ note_suffix)
                    (or_empty (group m "5"))
                    (or_empty (group m "2"))
                    (or_empty (group m "6"))
                    crdr_flag)
    end.

Definition date_re : regex := seqs [ Bol; date; Wb ].

Definition add_description (next_line : str) (r : row) : row :=
  mkrow (Date r) (Description r ++ txt " " ++ next_line)
        (Credit r) (Ref r) (Balance r) (CRDR r).

Definition nonempty (s : str) : bool :=
  match s with [] => false | _ => true end.

(** The [while] loop over the stripped lines of the section: a record
    takes the next line into its description when that line is not
    empty, does not start with a date and has at most 40 characters. *)
Fixpoint rows_loop (lines : list str) : list row :=
  match lines with
  | [] => []
  | line :: rest =>
      if found (match_ date_re line) then
        match parse_transaction_line line with
        | Some record =>
            match rest with
            | nxt :: rest' =>
                let next_line := Str.strip nxt in
                if nonempty next_line
                   && negb (found (match_ date_re next_line))
                   && (length next_line <=? 40)
                then add_description next_line record :: rows_loop rest'
                else record :: rows_loop rest
            | [] => [record]
            end
        | None => rows_loop rest
        end
      else rows_loop rest
  end.

(** [rows] before the descriptions are cleaned. *)
Definition rows_of_section (section : str) : list row :=
  rows_loop (map Str.strip (Str.splitlines section)).

End FSDriver.

(** * The vocabulary of the properties *)

(** ** The UOB section and its records *)

(** A statement whose header has its first word split by a space. *)
Definition glued_pages : list str :=
  [ txt "P ost Trans Description of Transaction Transaction Amount";
    txt "07 JUN 07 JUN CR INTEREST 16.84 CR";
    txt "SUB TOTAL" ].

(** A line that the noise classifier keeps. *)
Definition noise_free (l : str) : Prop :=
  UOB.is_redundant_line (Str.strip l) = false.

(** The line is solely a monetary amount. *)
Definition amount_only (l : str) : Prop :=
  Re.match_ UOB.AMT_ONLY_RE (Str.strip l) <> None.

(** The amount that an amount-only line carries. *)
Definition amount_of_line (l : str) : str :=
  match Re.match_ UOB.AMT_ONLY_RE (Str.strip l) with
  | Some m => UOB.normalize_amount (Re.group m "num") (Re.group m "suffix")
  | None => []
  end.

(** The description of a record, from its parts. *)
Definition description_of (desc_parts : list str) : str :=
  Str.strip (Str.collapse_ws (Str.join (txt " ") desc_parts)).

(** No amount is found in the buffer: none at the end of the first
    fragment behind some description, and no continuation line that is
    solely an amount. *)
Definition no_amount (buffer_lines : list str) : Prop :=
  match buffer_lines with
  | [] => True
  | first :: conts =>
      fst (UOB.first_line (Str.strip first)) = None
      /\ Forall (fun c => ~ amount_only c) conts
  end.

(** ** Date tokens *)

(** The date token that [TX_RE] captures on a line. *)
Definition amex_raw_date (line : str) : str :=
  match Re.match_ AMEX.TX_RE (Str.strip line) with
  | Some m => AMEX.or_empty (Re.group m "date")
  | None => []
  end.

(** The date token that the SRS pattern captures on a line. *)
Definition srs_raw_date (line : str) : str :=
  match Re.match_ SRS.LINE_RE line with
  | Some m => SRS.or_empty (Re.group m "1")
  | None => []
  end.

(** ** The segments and the rows of the AMEX statement *)

(** What ends a segment: the alternation inside the look-ahead of
    [seg_re]. *)
Definition terminator : Re.regex :=
  Re.Alt AMEX.start_marker_re (Re.liti "Total of New Transactions").

(** Some start marker, or the end marker, begins the text. *)
Definition term (rs : list ascii) : bool :=
  AMEX.is_some (Re.at_pos terminator [] rs).

(** The offset of the first start marker or end marker. *)
Fixpoint first_term (rs : list ascii) : option nat :=
  if term rs then Some 0
  else match rs with
       | [] => None
       | _ :: t => option_map S (first_term t)
       end.

(** The text left after the start marker that begins the text. *)
Definition after_start (rs : list ascii) : option (list ascii) :=
  option_map Re.rest (Re.at_pos AMEX.start_marker_re [] rs).

(** Every start marker of the text is followed, somewhere, by another
    start marker or by the end marker. *)
Fixpoint well_terminated (rs : list ascii) : bool :=
  match after_start rs with
  | Some rs' => AMEX.is_some (first_term rs')
  | None => true
  end
  && match rs with
     | [] => true
     | _ :: t => well_terminated t
     end.

(** The segment match [g] belongs to the start marker match [m] of the
    text [t]: it starts with the marker, its group is the text from the
    end of the marker to the end of the match, and the match ends at the
    first start marker or end marker after the marker. *)
Definition spans (t : str) (m g : Re.mobj) : Prop :=
  Re.m_start g = Re.m_start m
  /\ Re.m_start m < Re.m_end m
  /\ Re.m_end m <= Re.m_end g
  /\ Re.group g "1"
     = Some (firstn (Re.m_end g - Re.m_end m) (skipn (Re.m_end m) t))
  /\ term (skipn (Re.m_end g) t) = true
  /\ (forall j, Re.m_end m <= j < Re.m_end g -> term (skipn j t) = false).

(** The matches come in order without overlap, from the offset [lo]. *)
Fixpoint chain_from (lo : nat) (l : list Re.mobj) : Prop :=
  match l with
  | [] => True
  | g :: l' =>
      lo <= Re.m_start g /\ Re.m_start g <= Re.m_end g
      /\ chain_from (Re.m_end g) l'
  end.

(** The line makes the loop emit a row. *)
Definition emits (l : str) : bool :=
  let line := Str.strip l in
  negb (Str.eqb line (txt "CR"))
  && AMEX.found (Re.match_ AMEX.DATE_DDMMYY_DOTS_RE line)
  && AMEX.is_some (AMEX.parse_transaction_line line).

(** The text in which [extract_marker_segments] looks for the markers. *)
Definition amex_text (pages : list str) : str :=
  Str.replace_char AMEX.nbsp " " (Str.join [ascii_of_nat 10] pages).

(** A statement of two pages, each with the section header; the end
    marker closes the second. *)
Definition two_pages : list str :=
  [ Str.join [ascii_of_nat 10]
      [ txt "Details Foreign Spending Amount S$";
        txt "19.01.21 XTRA AMK HUB SINGAPORE 25.35" ];
    Str.join [ascii_of_nat 10]
      [ txt "Details Foreign Spending Amount S$";
        txt "31.01.21 PAYMENT BY TELEPHONE/INTERNET BANKING 723.40";
        txt "CR";
        txt "Total of New Transactions 748.75" ] ].

(** A page with the section header and no end marker. *)
Definition unterminated_page : list str :=
  [ Str.join [ascii_of_nat 10]
      [ txt "Details Foreign Spending Amount S$";
        txt "19.01.21 XTRA AMK HUB SINGAPORE 25.35" ] ].

(** ** Patterns with a single way to match *)

Module Det.

Import Re.

(** The position [n] characters further. *)
Definition adv (n : nat) (s : st) : st :=
  mkst (rev (firstn n (rest s)) ++ seen s) (skipn n (rest s)) (caps s).

(** The pattern [r] matches in at most one way, of length [f rs] on
    the remaining text [rs], whatever comes before. *)
Definition factors (r : regex) (f : list ascii -> option nat) : Prop :=
  (forall k s,
      run r k s = match f (rest s) with
                  | Some n => k (adv n s)
                  | None => None
                  end)
  /\ (forall rs n, f rs = Some n -> n <= length rs).

(** The pattern matches in at most one way. *)
Definition det (r : regex) : Prop := exists f, factors r f.

(** Moreover the match is not empty and does not start with a
    character of the class [p]. *)
Definition det1 (p : ascii -> bool) (r : regex) : Prop :=
  exists f, factors r f
            /\ (forall rs n, f rs = Some n -> 1 <= n)
            /\ (forall c t, p c = true -> f (c :: t) = None).

(** The length functions of a class, of a sequence, and of a greedy
    repetition of a class before a pattern. *)
Definition cls_len (q : ascii -> bool) (rs : list ascii) : option nat :=
  match rs with
  | c :: _ => if q c then Some 1 else None
  | [] => None
  end.

Definition seq_len (fa fb : list ascii -> option nat) (rs : list ascii)
  : option nat :=
  match fa rs with
  | Some n => match fb (skipn n rs) with
              | Some m => Some (n + m)
              | None => None
              end
  | None => None
  end.

(** The length of the longest prefix in the class [p]. *)
Fixpoint run_len (p : ascii -> bool) (rs : list ascii) : nat :=
  match rs with
  | c :: t => if p c then S (run_len p t) else 0
  | [] => 0
  end.

Definition star_len (p : ascii -> bool) (fb : list ascii -> option nat)
    (rs : list ascii) : option nat :=
  match fb (skipn (run_len p rs) rs) with
  | Some m => Some (run_len p rs + m)
  | None => None
  end.

(** A matcher is monotone when a more permissive continuation keeps
    its successes. *)
Definition monotone (body : (st -> option st) -> st -> option st) : Prop :=
  forall k k' : st -> option st,
    (forall x, k x <> None -> k' x <> None) ->
    forall s, body k s <> None -> body k' s <> None.

(** The first match of a pattern of length function [f]: its offset and
    its length. *)
Fixpoint find_start (f : list ascii -> option nat) (rs : list ascii)
  : option (nat * nat) :=
  match f rs with
  | Some n => Some (0, n)
  | None =>
      match rs with
      | [] => None
      | _ :: t =>
          match find_start f t with
          | Some (i, n) => Some (S i, n)
          | None => None
          end
      end
  end.

(** The segment match that goes with a start marker match, seen from
    the offset [base] where the text [rs] begins. *)
Definition related (f : list ascii -> option nat) (base : nat)
    (rs : list ascii) (m g : mobj) : Prop :=
  exists i n j,
    f (skipn i rs) = Some n
    /\ i + n <= length rs
    /\ first_term (skipn (i + n) rs) = Some j
    /\ m = mkmobj (base + i) (base + i + n) []
    /\ g = mkmobj (base + i) (base + i + n + j)
                  [("1"%string, firstn j (skipn (i + n) rs))].

End Det.

(** ** The UOB stitcher *)

(** The line starts a record. *)
Definition is_start (line : str) : bool :=
  UOB.found (Re.match_ UOB.TX_START_RE (Str.strip line)).

(** The stitcher [st] with the rows [before] emitted ahead of its own. *)
Definition with_rows (before : list UOB.row) (st : UOB.stitch) : UOB.stitch :=
  UOB.mkstitch (before ++ UOB.rows st) (UOB.current_post st)
               (UOB.current_trans st) (UOB.buffer_lines st).

(** Whitespace occurs only as single spaces between other characters. *)
Fixpoint single_spaced (s : str) : Prop :=
  match s with
  | [] => True
  | c :: t =>
      (Str.isspace c = true ->
       c = " "%char
       /\ match t with d :: _ => Str.isspace d = false | [] => True end)
      /\ single_spaced t
  end.

(** The first and the last character are not whitespace. *)
Definition trimmed (s : str) : Prop :=
  match s with c :: _ => Str.isspace c = false | [] => True end
  /\ match rev s with c :: _ => Str.isspace c = false | [] => True end.

(** ** The AMEX rows *)

(** What the loop never rewrites in a row it has emitted. *)
Definition row_key (r : AMEX.row) : str * str * str :=
  (AMEX.Transaction_Date_Captured r, AMEX.Year r, AMEX.Description_Captured r).

(** ** The segments of any document *)

(** The segment match [g] of the text [t] starts with a start marker,
    of some length [n]; its group is the text from the end of that
    marker to the end of the match; a start marker or the end marker
    begins where the match ends, and none begins earlier after the
    marker. *)
Definition bounded_segment (t : str) (g : Re.mobj) : Prop :=
  exists n,
    1 <= n
    /\ after_start (skipn (Re.m_start g) t)
       = Some (skipn (Re.m_start g + n) t)
    /\ Re.m_start g + n <= Re.m_end g <= length t
    /\ Re.group g "1"
       = Some (firstn (Re.m_end g - (Re.m_start g + n))
                      (skipn (Re.m_start g + n) t))
    /\ term (skipn (Re.m_end g) t) = true
    /\ (forall k, Re.m_start g + n <= k < Re.m_end g ->
                  term (skipn k t) = false).

(** ** The OCBC rows *)

(** What a row takes from its own transaction line alone. *)
Definition ocbc_fields (r : OCBCDriver.row) : str * str * option str :=
  (OCBCDriver.TRANSACTION_DATE r, OCBCDriver.AMOUNT r, OCBCDriver.Year r).

(** The fields that a clean line gives: none unless it is a transaction
    line. *)
Definition ocbc_line_fields (year_value line : str)
  : list (str * str * option str) :=
  match OCBCDriver.parse_transaction_line line with
  | Some r => [ocbc_fields (OCBCDriver.set_year year_value r)]
  | None => []
  end.

(** ** Blocks between two literal markers *)

(** The length of a literal at the head of the text. *)
Definition lit_len (w : str) (rs : list ascii) : option nat :=
  if Str.startswith rs w then Some (length w) else None.

(** The pattern [wS.*?wE] under [re.DOTALL], for literals [wS] and
    [wE]. *)
Definition block_between (wS wE : str) : Re.regex :=
  Re.Seq (Re.seqs (map Re.chr wS))
         (Re.Seq (Re.lazy_star Re.dotall) (Re.seqs (map Re.chr wE))).

(** The first occurrence of the literal [wS] and the first occurrence of
    the literal [wE] behind it: the offset of the former and the length
    of the text up to the end of the latter. *)
Definition block_at (wS wE : str) (rs : list ascii) : option (nat * nat) :=
  match Str.find rs wS with
  | None => None
  | Some i =>
      match Str.find (skipn (i + length wS) rs) wE with
      | None => None
      | Some j => Some (i, length wS + j + length wE)
      end
  end.

(** ** Sections between two literal markers *)

(** [section] is the text of [text] right behind the first [start] up
    to the first [stop] behind it, or up to the end of [text] when no
    [stop] follows. *)
Definition cut_between (start stop text section : str) : Prop :=
  exists i tail,
    Str.find text start = Some i
    /\ skipn (i + length start) text = section ++ tail
    /\ Str.find section stop = None
    /\ (tail = [] \/ Str.startswith tail stop = true).

(** ** The foreign-stock rows *)

(** What a row takes from its own line alone. *)
Definition fs_fields (r : FSDriver.row) : str * str * str * str * str :=
  (FSDriver.Date r, FSDriver.Credit r, FSDriver.Ref r, FSDriver.Balance r,
   FSDriver.CRDR r).

(** The fields that a line gives: none unless it starts with a date and
    is a credit or handling note. *)
Definition fs_line_fields (line : str) : list (str * str * str * str * str) :=
  if FSDriver.found (Re.match_ FSDriver.date_re line) then
    match FSDriver.parse_transaction_line line with
    | Some r => [fs_fields r]
    | None => []
    end
  else [].

(** ** The captures of a match *)

(** The names of the groups of a pattern, those inside a look-ahead
    apart: the matcher drops what a look-ahead captures. *)
Fixpoint group_names (r : Re.regex) : list string :=
  match r with
  | Re.Seq a b | Re.Alt a b => group_names a ++ group_names b
  | Re.Star _ a => group_names a
  | Re.Grp name a => name :: group_names a
  | _ => []
  end.

(** The captures of [s'] are those of [s] with, ahead of them, captures
    of groups named in [ns]. *)
Definition captures_from (ns : list string) (s s' : Re.st) : Prop :=
  exists new,
    Re.caps s' = new ++ Re.caps s
    /\ Forall (fun p => In (fst p) ns) new.

(** The suffix is one that the amount patterns capture: [CR] or [DR],
    in capitals once it is stripped and upper-cased. *)
Definition credit_or_debit (suffix : option str) : Prop :=
  forall v, suffix = Some v ->
    Str.upper (Str.strip v) = txt "CR" \/ Str.upper (Str.strip v) = txt "DR".

(** ** The credit line behind a credit amount *)

(** A statement whose one record carries its own CR and is directly
    followed by a CR line. *)
Definition credit_twice_page : list str :=
  [ Str.join [ascii_of_nat 10]
      [ txt "Details Foreign Spending Amount S$";
        txt "31.01.21 PAYMENT BY TELEPHONE/INTERNET BANKING 723.40CR";
        txt "CR";
        txt "Total of New Transactions 0.00" ] ].

(** * General facts *)

Module StrFacts.

Lemma eqb_refl (a : str) : Str.eqb a a = true.
Proof.
  induction a as [|c a IH]; simpl; [reflexivity|].
  now rewrite Ascii.eqb_refl, IH.
Qed.

Lemma eqb_eq (a b : str) : Str.eqb a b = true <-> a = b.
Proof.
  split; [|intros ->; apply eqb_refl].
  revert b; induction a as [|x a IH]; intros [|y b]; simpl; try discriminate.
  - reflexivity.
  - intros H. apply andb_true_iff in H as [Hxy Hab].
    apply Ascii.eqb_eq in Hxy. apply IH in Hab. now subst.
Qed.

Lemma eqb_neq (a b : str) : Str.eqb a b = false <-> a <> b.
Proof.
  split.
  - intros H E. apply eqb_eq in E. congruence.
  - intros H. destruct (Str.eqb a b) eqn:E; [|reflexivity].
    apply eqb_eq in E. contradiction.
Qed.

(** A key that is not in the dictionary gets the default. *)
Lemma get_default (table : list (str * str)) (key default : str) :
  ~ In key (map fst table) -> Str.get table key default = default.
Proof.
  induction table as [|[k v] table IH]; simpl; intros H; [reflexivity|].
  destruct (Str.eqb k key) eqn:E.
  - apply eqb_eq in E. exfalso. apply H. now left.
  - apply IH. intros Hin. apply H. now right.
Qed.

End StrFacts.

Module ReFacts.

Import Re Det.

Lemma orelse_some {A} (x y : option A) :
  orelse x y <> None <-> x <> None \/ y <> None.
Proof.
  destruct x; simpl; split; intros H; try congruence.
  - left. congruence.
  - now right.
  - destruct H; congruence.
Qed.

Lemma star_loop_mono (greedy : bool) body :
  monotone body ->
  forall fuel, monotone (fun k => star_loop greedy body k fuel).
Proof.
  intros Hbody fuel. induction fuel as [|f IH]; intros k k' Hk s; simpl.
  - apply Hk.
  - assert (Hagain : forall x,
      (if length (rest x) <? length (rest s)
       then star_loop greedy body k f x else None) <> None ->
      (if length (rest x) <? length (rest s)
       then star_loop greedy body k' f x else None) <> None).
    { intros x. destruct (length (rest x) <? length (rest s)); [|congruence].
      apply IH, Hk. }
    destruct greedy.
    + rewrite !orelse_some. intros [H|H].
      * left. revert H. apply Hbody, Hagain.
      * right. now apply Hk.
    + destruct (k s) eqn:Eks.
      * intros _. specialize (Hk s). rewrite Eks in Hk.
        destruct (k' s); [congruence|]. exfalso. apply Hk; congruence.
      * intros H. destruct (k' s); [congruence|].
        revert H. apply Hbody, Hagain.
Qed.

Lemma run_mono (r : regex) : monotone (run r).
Proof.
  induction r as [ |p|a IHa b IHb|a IHa b IHb|g a IHa|n a IHa| | | |a IHa];
    intros k k' Hk s; simpl.
  - apply Hk.
  - destruct (rest s) as [|c t]; [congruence|].
    destruct (p c); [apply Hk|congruence].
  - apply IHa. intros x. now apply IHb.
  - rewrite !orelse_some. intros [H|H]; [left|right]; revert H.
    + now apply IHa.
    + now apply IHb.
  - now apply star_loop_mono.
  - apply IHa. intros x. apply Hk.
  - destruct (seen s); [apply Hk|congruence].
  - destruct (at_eol (rest s)); [apply Hk|congruence].
  - destruct (xorb _ _); [apply Hk|congruence].
  - destruct (run a _ s); [apply Hk|congruence].
Qed.

(** A pattern that does not match at a position does not start a longer
    pattern there. *)
Lemma at_pos_seq_none (a b : regex) sn rs :
  at_pos a sn rs = None -> at_pos (Seq a b) sn rs = None.
Proof.
  unfold at_pos. simpl. intros H.
  destruct (run a (run b (fun x => Some x)) (mkst sn rs [])) eqn:E;
    [|reflexivity].
  exfalso.
  apply (@run_mono a (run b (fun x => Some x)) (fun x => Some x))
    with (s := mkst sn rs []); try congruence.
Qed.

Lemma search_from_seq_none (a b : regex) rs :
  forall sn, search_from a sn rs = None -> search_from (Seq a b) sn rs = None.
Proof.
  induction rs as [|c t IH]; intros sn; simpl.
  - destruct (at_pos a sn []) eqn:E; [discriminate|].
    now rewrite (@at_pos_seq_none a b _ _ E).
  - destruct (at_pos a sn (c :: t)) eqn:E; [discriminate|].
    rewrite (@at_pos_seq_none a b _ _ E). apply IH.
Qed.

End ReFacts.

(** * Properties *)

(** ** Field normalisation on the examples of the specification *)

(** C6: amount normalisation.  A credit of 1,234.56 loses its thousands
    separator and is written in parentheses; a plain 7.00 is unchanged.
    Both the UOB normaliser (credit given by the suffix CR) and the AMEX
    one (credit given by a flag) agree. *)
Theorem amount_normalization_examples :
  UOB.normalize_amount (Some (txt "1,234.56")) (Some (txt "CR")) = txt "(1234.56)"
  /\ UOB.normalize_amount (Some (txt "7.00")) None = txt "7.00"
  /\ AMEX.format_amount_for_excel (txt "1,234.56") true = txt "(1234.56)"
  /\ AMEX.format_amount_for_excel (txt "7.00") false = txt "7.00".
Proof. repeat split; vm_compute; reflexivity. Qed.

(** C7: date normalisation.  The SRS token 13MAY becomes 13-May-24 (the
    year 24 is the constant of that script), the AMEX token 25.10.20
    becomes the pair 25 OCT and 2020, and the OCBC token 02/04 becomes
    02 Apr. *)
Theorem date_normalization_examples :
  SRS.convert_date (txt "13MAY") = txt "13-May-24"
  /\ option_map SRS.Date
       (SRS.parse_transaction_line
          (txt "13MAY CR DIVIDENDS FOR 92FC 13.75 19,067.06"))
     = Some (txt "13-May-24")
  /\ AMEX.format_date_and_year (txt "25.10.20") = Some (txt "25 OCT", txt "2020")
  /\ OCBC.format_tx_date (txt "02/04") = txt "02 Apr".
Proof. repeat split; vm_compute; reflexivity. Qed.

(** C4: stitching the two lines of the specification gives exactly one
    record, with amount (16.84) and description CR INTEREST, whatever
    the year folder of the document. *)
Theorem stitch_interest_example (year_value : str) :
  UOB.stitch_rows year_value [txt "07 JUN 07 JUN CR INTEREST"; txt "16.84 CR"]
  = [UOB.mkrow (txt "07 JUN") (txt "CR INTEREST") (txt "(16.84)")
               (Some year_value)].
Proof. vm_compute. reflexivity. Qed.

(** ** A document without the start marker *)

Lemma uob_missing_start (year_value : str) (pages : list str) :
  Re.search UOB.START_MARKER_RE (UOB.all_text_of pages) = None ->
  UOB.extract_section_text pages = None
  /\ UOB.extract_rows_from_pdf year_value pages = [].
Proof.
  intros H. unfold UOB.extract_rows_from_pdf, UOB.extract_section_text.
  rewrite H. split; reflexivity.
Qed.

Lemma amex_missing_start (all_text : str) :
  Re.search AMEX.start_marker_re (Str.replace_char AMEX.nbsp " " all_text) = None ->
  AMEX.extract_marker_segments all_text = [].
Proof.
  unfold Re.search, AMEX.extract_marker_segments, Re.finditer. intros H.
  set (t := Str.replace_char AMEX.nbsp " " all_text) in *.
  destruct (Re.search_from AMEX.start_marker_re [] t) eqn:E; [discriminate|].
  change AMEX.seg_re with
    (Re.Seq AMEX.start_marker_re
       (Re.Seq (Re.Grp "1" (Re.lazy_star Re.dotall))
          (Re.Ahead (Re.Alt AMEX.start_marker_re
                       (Re.liti "Total of New Transactions"))))).
  cbn [Re.finditer_from].
  now rewrite (@ReFacts.search_from_seq_none _ _ _ _ E).
Qed.

(** C1 (as amended): in the batch drivers a document whose text has no
    start marker is reported as having no section and contributes no
    row, and the batch goes on with the documents around it; this holds
    for the UOB driver and for the AMEX driver.  The foreign-stock
    script has no such recovery: it raises ValueError. *)
Theorem missing_start_marker_skips_document
    (year_value : str) (pages : list str)
    (before after : list (str * list str))
    (amex_before amex_after : list (list str)) :
  (Re.search UOB.START_MARKER_RE (UOB.all_text_of pages) = None ->
     UOB.extract_section_text pages = None
     /\ UOB.extract_rows_from_pdf year_value pages = []
     /\ UOB.all_rows (before ++ (year_value, pages) :: after)
        = UOB.all_rows before ++ UOB.all_rows after)
  /\ (Re.search AMEX.start_marker_re
        (Str.replace_char AMEX.nbsp " " (Str.join [ascii_of_nat 10] pages)) = None ->
      AMEX.extract_rows_from_pdf pages = []
      /\ AMEX.all_rows (amex_before ++ pages :: amex_after)
         = AMEX.all_rows amex_before ++ AMEX.all_rows amex_after)
  /\ (Str.contains (FS.all_text_of pages) FS.start_marker = false ->
      FS.section_of pages = FS.Raised "ValueError").
Proof.
  split; [|split].
  - intros H. destruct (uob_missing_start year_value pages H) as [H1 H2].
    split; [exact H1|]. split; [exact H2|].
    unfold UOB.all_rows. rewrite flat_map_app. cbn [flat_map fst snd].
    now rewrite H2.
  - intros H. apply amex_missing_start in H.
    assert (H2 : AMEX.extract_rows_from_pdf pages = []).
    { unfold AMEX.extract_rows_from_pdf. now rewrite H. }
    split; [exact H2|].
    unfold AMEX.all_rows. rewrite flat_map_app. cbn [flat_map].
    now rewrite H2.
  - intros H. unfold FS.section_of, FS.after_first.
    unfold Str.contains in H.
    destruct (Str.find (FS.all_text_of pages) FS.start_marker);
      [discriminate|reflexivity].
Qed.

Lemma missing_start_marker_witness :
  UOB.extract_rows_from_pdf (txt "2022") [txt "Portfolio summary"] = []
  /\ AMEX.extract_rows_from_pdf [txt "Portfolio summary"] = []
  /\ FS.section_of [txt "Portfolio summary"] = FS.Raised "ValueError".
Proof.
  destruct (missing_start_marker_skips_document
              (txt "2022") [txt "Portfolio summary"] [] [] [] [])
    as (Huob & Hamex & Hfs).
  split; [|split].
  - apply Huob. vm_compute. reflexivity.
  - apply Hamex. vm_compute. reflexivity.
  - apply Hfs. vm_compute. reflexivity.
Defined.

(** C1 fails on the foreign-stock script: a document without its start
    marker makes the script raise instead of yielding zero rows. *)
Lemma foreign_stock_missing_marker_raises :
  Str.contains (FS.all_text_of [txt "Portfolio summary"]) FS.start_marker = false
  /\ FS.section_of [txt "Portfolio summary"] = FS.Raised "ValueError"
  /\ ~ (exists section, FS.section_of [txt "Portfolio summary"]
                        = FS.Returned section).
Proof.
  split; [|split]; try (vm_compute; reflexivity).
  intros [section H]. vm_compute in H. discriminate.
Qed.

(** ** The whitespace-compacted fallback *)

(** C2 at a failing input: the first word of the header is split by a
    space, so the tolerant pattern finds nothing while the compacted
    text holds the compacted marker at index 0.  The definition with the
    fallback cuts the section from there, but the definition bound last,
    which the driver calls, reports the marker as missing and the
    document gives no row. *)
Theorem compacted_fallback_is_shadowed :
  Re.search UOB.START_MARKER_RE (UOB.all_text_of glued_pages) = None
  /\ Str.find (UOB._compact (UOB.all_text_of glued_pages))
              (UOB._compact UOB.start_marker) = Some 0
  /\ UOB.extract_section_text_compacting glued_pages
     = Some (UOB.all_text_of glued_pages)
  /\ UOB.extract_section_text glued_pages = None
  /\ forall year_value, UOB.extract_rows_from_pdf year_value glued_pages = [].
Proof.
  repeat split; try (vm_compute; reflexivity).
Qed.

(** ** Dates that do not parse *)

(** C5 (as amended): a record whose date token does not parse is not
    dropped.  The AMEX parser emits the row with the token kept verbatim
    as its date and with an empty year; the SRS parser emits the row
    with the unknown month letters kept verbatim between the day and the
    year. *)
Theorem unparsable_date_kept_verbatim (line srs_line : str) :
  (Re.match_ AMEX.TX_RE (Str.strip line) <> None ->
   AMEX.format_date_and_year (amex_raw_date line) = None ->
   exists r, AMEX.parse_transaction_line line = Some r
             /\ AMEX.Transaction_Date_Captured r = amex_raw_date line
             /\ AMEX.Year r = [])
  /\ (Re.match_ SRS.LINE_RE srs_line <> None ->
      ~ In (firstn 3 (skipn 2 (srs_raw_date srs_line)))
           (map fst SRS.month_map) ->
      exists r, SRS.parse_transaction_line srs_line = Some r
                /\ SRS.Date r
                   = firstn 2 (srs_raw_date srs_line) ++ txt "-"
                     ++ firstn 3 (skipn 2 (srs_raw_date srs_line))
                     ++ txt "-24").
Proof.
  split.
  - unfold AMEX.parse_transaction_line, amex_raw_date.
    destruct (Re.match_ AMEX.TX_RE (Str.strip line)) as [m|]; [|congruence].
    intros _ Hd. rewrite Hd. eexists. split; [reflexivity|]. split; reflexivity.
  - unfold SRS.parse_transaction_line, srs_raw_date.
    destruct (Re.match_ SRS.LINE_RE srs_line) as [m|]; [|congruence].
    intros _ Hk. eexists. split; [reflexivity|].
    cbn [SRS.Date]. unfold SRS.convert_date.
    now rewrite (@StrFacts.get_default _ _ _ Hk).
Qed.

Lemma unparsable_date_witness :
  (exists r, AMEX.parse_transaction_line (txt "99.99.21 FOO 1.00") = Some r
             /\ AMEX.Transaction_Date_Captured r = txt "99.99.21"
             /\ AMEX.Year r = [])
  /\ (exists r, SRS.parse_transaction_line
                  (txt "13XYZ CR DIVIDENDS FOR 92FC 13.75 19,067.06") = Some r
                /\ SRS.Date r = txt "13-XYZ-24").
Proof.
  destruct (unparsable_date_kept_verbatim
              (txt "99.99.21 FOO 1.00")
              (txt "13XYZ CR DIVIDENDS FOR 92FC 13.75 19,067.06"))
    as [Hamex Hsrs].
  split.
  - apply Hamex.
    + vm_compute. discriminate.
    + vm_compute. reflexivity.
  - apply Hsrs.
    + vm_compute. discriminate.
    + vm_compute. intros H.
      repeat (destruct H as [H|H]; [discriminate H|]). exact H.
Defined.

(** C5 fails on the code: the AMEX date 99.99.21 is on no calendar, yet
    the row is emitted, dated with the raw token. *)
Lemma unparsable_date_not_dropped :
  AMEX.format_date_and_year (txt "99.99.21") = None
  /\ AMEX.parse_transaction_line (txt "99.99.21 FOO 1.00")
     = Some (AMEX.mkrow (txt "99.99.21") [] (txt "FOO") (txt "1.00"))
  /\ AMEX.parse_transaction_line (txt "99.99.21 FOO 1.00") <> None.
Proof.
  split; [|split]; try (vm_compute; reflexivity).
  vm_compute. discriminate.
Qed.

(** ** The amount of a stitched record *)

Lemma noise_free_not_empty (l : str) : noise_free l -> Str.strip l <> [].
Proof.
  unfold noise_free. intros H E. rewrite E in H. vm_compute in H. discriminate.
Qed.

(** One turn of the continuation loop on a line that is kept. *)
Lemma continuation_kept amount desc_parts c conts :
  noise_free c ->
  UOB.continuation amount desc_parts (c :: conts)
  = match amount, Re.match_ UOB.AMT_ONLY_RE (Str.strip c) with
    | None, Some m_only =>
        UOB.continuation
          (Some (UOB.normalize_amount (Re.group m_only "num")
                   (Re.group m_only "suffix")))
          desc_parts conts
    | _, _ => UOB.continuation amount (desc_parts ++ [Str.strip c]) conts
    end.
Proof.
  intros Hk. pose proof (noise_free_not_empty Hk) as Hne.
  unfold noise_free in Hk. cbn [UOB.continuation]. rewrite Hk.
  destruct (Str.strip c); [congruence|reflexivity].
Qed.

(** Once the amount is assigned, every kept line goes to the
    description. *)
Lemma continuation_assigned conts : forall a desc_parts,
  Forall noise_free conts ->
  UOB.continuation (Some a) desc_parts conts
  = (Some a, desc_parts ++ map Str.strip conts).
Proof.
  induction conts as [|c conts IH]; intros a desc_parts H.
  - cbn. now rewrite app_nil_r.
  - inversion H as [|? ? Hc Hrest]; subst.
    rewrite (continuation_kept _ _ _ Hc), IH by assumption.
    cbn [map]. now rewrite <- app_assoc.
Qed.

(** Before the amount is assigned, a kept line that is not an amount
    goes to the description. *)
Lemma continuation_pending pre : forall desc_parts conts,
  Forall (fun l => noise_free l /\ ~ amount_only l) pre ->
  UOB.continuation None desc_parts (pre ++ conts)
  = UOB.continuation None (desc_parts ++ map Str.strip pre) conts.
Proof.
  induction pre as [|c pre IH]; intros desc_parts conts H.
  - cbn. now rewrite app_nil_r.
  - inversion H as [|? ? [Hc Hna] Hrest]; subst.
    cbn [app]. rewrite (continuation_kept _ _ _ Hc).
    unfold amount_only in Hna.
    destruct (Re.match_ UOB.AMT_ONLY_RE (Str.strip c));
      [exfalso; apply Hna; discriminate|].
    rewrite IH by assumption. cbn [map]. now rewrite <- app_assoc.
Qed.

(** C3: in a stitched record whose first fragment assigned no amount,
    the first continuation line that is solely an amount becomes the
    amount, and every line after it, amount-looking or not, goes to the
    description; when the first fragment assigned the amount, every
    continuation line goes to the description.  The lines are those of
    the line stream: the noise classifier keeps them. *)
Theorem amount_only_line_first_wins
    (post_date trans_date : str)
    (first : str) (desc_parts : list str) (pre : list str) (c : str)
    (post : list str)
    (first' : str) (desc_parts' : list str) (a : str) (conts : list str) :
  (UOB.first_line (Str.strip first) = (None, desc_parts) ->
   Forall (fun l => noise_free l /\ ~ amount_only l) pre ->
   noise_free c ->
   amount_only c ->
   Forall noise_free post ->
   UOB.parse_tx_from_buffer post_date trans_date (first :: pre ++ c :: post)
   = Some (UOB.mkrow (Str.strip trans_date)
             (description_of
                (desc_parts ++ map Str.strip pre ++ map Str.strip post))
             (amount_of_line c) None))
  /\ (UOB.first_line (Str.strip first') = (Some a, desc_parts') ->
      Forall noise_free conts ->
      UOB.parse_tx_from_buffer post_date trans_date (first' :: conts)
      = Some (UOB.mkrow (Str.strip trans_date)
                (description_of (desc_parts' ++ map Str.strip conts))
                a None)).
Proof.
  split.
  - intros Hfirst Hpre Hc Hm Hpost.
    unfold UOB.parse_tx_from_buffer, amount_of_line, description_of.
    rewrite Hfirst, (continuation_pending _ _ Hpre).
    rewrite (continuation_kept _ _ _ Hc).
    unfold amount_only in Hm.
    destruct (Re.match_ UOB.AMT_ONLY_RE (Str.strip c)) as [m|]; [|congruence].
    rewrite (continuation_assigned _ _ Hpost).
    now rewrite <- app_assoc.
  - intros Hfirst Hconts. unfold UOB.parse_tx_from_buffer, description_of.
    rewrite Hfirst, (continuation_assigned _ _ Hconts). reflexivity.
Qed.

Lemma amount_only_line_first_wins_witness :
  UOB.parse_tx_from_buffer (txt "07 JUN") (txt "07 JUN")
    [txt "CR INTEREST"; txt "REF 123"; txt "16.84 CR"; txt "7.00"; txt "THANK YOU"]
  = Some (UOB.mkrow (txt "07 JUN") (txt "CR INTEREST REF 123 7.00 THANK YOU")
            (txt "(16.84)") None)
  /\ UOB.parse_tx_from_buffer (txt "07 JUN") (txt "07 JUN")
       [txt "NETS 7.00"; txt "9.00"]
     = Some (UOB.mkrow (txt "07 JUN") (txt "NETS 9.00") (txt "7.00") None).
Proof.
  destruct (amount_only_line_first_wins (txt "07 JUN") (txt "07 JUN")
              (txt "CR INTEREST") [txt "CR INTEREST"] [txt "REF 123"]
              (txt "16.84 CR") [txt "7.00"; txt "THANK YOU"]
              (txt "NETS 7.00") [txt "NETS"] (txt "7.00") [txt "9.00"])
    as [Hpending Hassigned].
  split.
  - apply Hpending.
    + vm_compute. reflexivity.
    + constructor; [split|constructor].
      * vm_compute. reflexivity.
      * vm_compute. intros H. apply H. reflexivity.
    + vm_compute. reflexivity.
    + vm_compute. discriminate.
    + repeat constructor; vm_compute; reflexivity.
  - apply Hassigned.
    + vm_compute. reflexivity.
    + repeat constructor; vm_compute; reflexivity.
Defined.

(** ** A record without an amount *)

Lemma continuation_no_amount conts : forall desc_parts,
  Forall (fun c => ~ amount_only c) conts ->
  fst (UOB.continuation None desc_parts conts) = None.
Proof.
  induction conts as [|c conts IH]; intros desc_parts H; [reflexivity|].
  inversion H as [|? ? Hc Hrest]; subst.
  cbn [UOB.continuation].
  destruct (Str.strip c) eqn:E; [now apply IH|]. rewrite <- E.
  destruct (UOB.is_redundant_line (Str.strip c)); [now apply IH|].
  unfold amount_only in Hc.
  destruct (Re.match_ UOB.AMT_ONLY_RE (Str.strip c));
    [exfalso; apply Hc; discriminate|now apply IH].
Qed.

Lemma parse_no_amount post_date trans_date buffer_lines :
  no_amount buffer_lines ->
  UOB.parse_tx_from_buffer post_date trans_date buffer_lines = None.
Proof.
  destruct buffer_lines as [|first conts]; [reflexivity|].
  intros [Hfirst Hconts]. unfold UOB.parse_tx_from_buffer.
  destruct (UOB.first_line (Str.strip first)) as [amount desc_parts].
  cbn [fst] in Hfirst. subst amount.
  pose proof (continuation_no_amount desc_parts Hconts) as H.
  destruct (UOB.continuation None desc_parts conts) as [amount parts].
  cbn [fst] in H. now subst amount.
Qed.

(** C8: a pending record in which no amount is ever found is finalized
    into no row: the parser returns nothing for it, flushing it leaves
    the rows as they were and empties the accumulator, and the lines
    that follow are stitched exactly as from an idle stitcher holding
    the same rows. *)
Theorem record_without_amount_is_discarded
    (year_value : str) (st : UOB.stitch) (more : list str)
    (Hno : no_amount (UOB.buffer_lines st)) :
  (forall post_date trans_date,
      UOB.parse_tx_from_buffer post_date trans_date (UOB.buffer_lines st) = None)
  /\ UOB.flush year_value st = UOB.mkstitch (UOB.rows st) None None []
  /\ (forall line,
        Re.match_ UOB.TX_START_RE (Str.strip line) <> None ->
        UOB.stitch_lines year_value st (line :: more)
        = UOB.stitch_lines year_value
            (UOB.mkstitch (UOB.rows st) None None []) (line :: more))
  /\ UOB.rows (UOB.flush year_value st) = UOB.rows st.
Proof.
  assert (Hflush : UOB.flush year_value st
                   = UOB.mkstitch (UOB.rows st) None None []).
  { unfold UOB.flush.
    destruct (UOB.current_post st) as [[|p post]|]; try reflexivity.
    destruct (UOB.current_trans st) as [[|t trans]|]; try reflexivity.
    destruct (UOB.buffer_lines st) as [|b bs] eqn:E; [reflexivity|].
    now rewrite (parse_no_amount (p :: post) (t :: trans) (b :: bs) Hno). }
  split; [|split; [|split]].
  - intros post_date trans_date. now apply parse_no_amount.
  - exact Hflush.
  - intros line Hstart. unfold UOB.stitch_lines. cbn [fold_left].
    f_equal. unfold UOB.stitch_line.
    destruct (Re.match_ UOB.TX_START_RE (Str.strip line)); [|congruence].
    now rewrite Hflush.
  - now rewrite Hflush.
Qed.

Lemma record_without_amount_witness :
  UOB.flush (txt "2022")
    (UOB.mkstitch [] (Some (txt "07 JUN")) (Some (txt "07 JUN"))
       [txt "CR INTEREST"; txt "REF 123"])
  = UOB.mkstitch [] None None []
  /\ UOB.stitch_rows (txt "2022")
       [txt "07 JUN 07 JUN CR INTEREST"; txt "REF 123";
        txt "08 JUN 08 JUN NETS 7.00"]
     = [UOB.mkrow (txt "08 JUN") (txt "NETS") (txt "7.00") (Some (txt "2022"))].
Proof.
  assert (Hno : no_amount [txt "CR INTEREST"; txt "REF 123"]).
  { split; [vm_compute; reflexivity|].
    constructor; [|constructor].
    vm_compute. intros H. apply H. reflexivity. }
  destruct (@record_without_amount_is_discarded (txt "2022")
              (UOB.mkstitch [] (Some (txt "07 JUN")) (Some (txt "07 JUN"))
                 [txt "CR INTEREST"; txt "REF 123"])
              [] Hno)
    as (_ & Hflush & _ & _).
  split; [exact Hflush|].
  vm_compute. reflexivity.
Defined.

(** ** The standalone credit line *)

Lemma parens_not_stripped (x : str) :
  Str.strip (txt "(" ++ x ++ txt ")") = txt "(" ++ x ++ txt ")".
Proof.
  unfold Str.strip, Str.rstrip. cbn [txt list_ascii_of_string app Str.lstrip].
  change (Str.isspace "(") with false. cbv iota.
  change (rev ("("%char :: x ++ [")"%char]))
    with (rev (x ++ [")"%char]) ++ ["("%char]).
  rewrite rev_app_distr. cbn [rev app Str.lstrip].
  change (Str.isspace ")") with false. cbv iota.
  change (")"%char :: rev x ++ ["("%char]) with ([")"%char] ++ rev x ++ ["("%char]).
  rewrite !rev_app_distr, rev_involutive. reflexivity.
Qed.

Lemma startswith_nil (s : str) : Str.startswith s [] = true.
Proof. destruct s; reflexivity. Qed.

Lemma parens_parenthesized (x : str) :
  AMEX.parenthesized (txt "(" ++ x ++ txt ")") = true.
Proof.
  unfold AMEX.parenthesized, Str.endswith.
  change (txt "(") with ["("%char]. change (txt ")") with [")"%char].
  cbn [app rev]. rewrite rev_app_distr. cbn [app rev].
  cbn [Str.startswith]. rewrite !startswith_nil. reflexivity.
Qed.

Lemma credit_row_idempotent (r : AMEX.row) :
  AMEX.credit_row (AMEX.credit_row r) = AMEX.credit_row r.
Proof.
  unfold AMEX.credit_row at 2 3.
  destruct (AMEX.parenthesized (Str.strip (AMEX.Amount_Captured r))) eqn:E.
  - unfold AMEX.credit_row. now rewrite E.
  - unfold AMEX.credit_row, AMEX.format_amount_for_excel.
    cbn [AMEX.set_amount AMEX.Amount_Captured].
    now rewrite parens_not_stripped, parens_parenthesized.
Qed.

Lemma update_last_snoc {A} (f : A -> A) (l : list A) (x : A) :
  AMEX.update_last f (l ++ [x]) = l ++ [f x].
Proof.
  induction l as [|y l IH]; [reflexivity|].
  cbn [app AMEX.update_last]. rewrite IH.
  destruct (l ++ [x]) eqn:E; [|reflexivity].
  destruct l; discriminate.
Qed.

Lemma update_last_length {A} (f : A -> A) (l : list A) :
  length (AMEX.update_last f l) = length l.
Proof.
  induction l as [|y [|z l] IH]; try reflexivity.
  cbn [AMEX.update_last length] in *. now rewrite IH.
Qed.

Lemma update_last_idempotent {A} (f : A -> A) (l : list A) :
  (forall x, f (f x) = f x) ->
  AMEX.update_last f (AMEX.update_last f l) = AMEX.update_last f l.
Proof.
  intros Hf. destruct (rev l) as [|x l'] eqn:E.
  - apply (f_equal (@rev A)) in E. rewrite rev_involutive in E. now subst.
  - apply (f_equal (@rev A)) in E. rewrite rev_involutive in E.
    cbn [rev] in E. subst l. now rewrite !update_last_snoc, Hf.
Qed.

(** The rule of the standalone CR line is idempotent and starts no
    record.  It touches only the amount of the most recent row: an
    amount already in parentheses is left as it is, any other amount is
    put in parentheses (once: a second application changes nothing).
    The loop applies exactly this rule when it meets such a line, so a
    second standalone CR line in a row has no further effect. *)
Lemma standalone_credit_rule_idempotent
    (rows : list AMEX.row) (r r' : AMEX.row) (more : list str) :
  AMEX.standalone_CR (AMEX.standalone_CR rows) = AMEX.standalone_CR rows
  /\ length (AMEX.standalone_CR rows) = length rows
  /\ (AMEX.parenthesized (Str.strip (AMEX.Amount_Captured r)) = true ->
      AMEX.standalone_CR (rows ++ [r]) = rows ++ [r])
  /\ (AMEX.parenthesized (Str.strip (AMEX.Amount_Captured r')) = false ->
      AMEX.standalone_CR (rows ++ [r'])
      = rows ++ [AMEX.set_amount
                   (txt "(" ++ Str.strip (Str.remove_char ","
                                   (Str.strip (AMEX.Amount_Captured r')))
                    ++ txt ")") r'])
  /\ AMEX.rows_loop rows (txt "CR" :: more)
     = AMEX.rows_loop (AMEX.standalone_CR rows) more
  /\ AMEX.rows_loop rows (txt "CR" :: txt "CR" :: more)
     = AMEX.rows_loop rows (txt "CR" :: more).
Proof.
  assert (Hidem : AMEX.standalone_CR (AMEX.standalone_CR rows)
                  = AMEX.standalone_CR rows)
    by apply update_last_idempotent, credit_row_idempotent.
  split; [exact Hidem|]. split; [apply update_last_length|].
  split; [|split; [|split]].
  - intros H. unfold AMEX.standalone_CR. rewrite update_last_snoc.
    unfold AMEX.credit_row. now rewrite H.
  - intros H. unfold AMEX.standalone_CR. rewrite update_last_snoc.
    unfold AMEX.credit_row. now rewrite H.
  - reflexivity.
  - change (AMEX.rows_loop rows (txt "CR" :: txt "CR" :: more))
      with (AMEX.rows_loop (AMEX.standalone_CR (AMEX.standalone_CR rows)) more).
    now rewrite Hidem.
Qed.

Lemma standalone_credit_rule_witness :
  AMEX.standalone_CR
    [AMEX.mkrow (txt "31 JAN") (txt "2021") (txt "PAYMENT") (txt "(723.40)")]
  = [AMEX.mkrow (txt "31 JAN") (txt "2021") (txt "PAYMENT") (txt "(723.40)")]
  /\ AMEX.standalone_CR
       [AMEX.mkrow (txt "31 JAN") (txt "2021") (txt "PAYMENT") (txt "723.40")]
     = [AMEX.mkrow (txt "31 JAN") (txt "2021") (txt "PAYMENT") (txt "(723.40)")].
Proof.
  destruct (standalone_credit_rule_idempotent []
              (AMEX.mkrow (txt "31 JAN") (txt "2021") (txt "PAYMENT")
                 (txt "(723.40)"))
              (AMEX.mkrow (txt "31 JAN") (txt "2021") (txt "PAYMENT")
                 (txt "723.40")) [])
    as (_ & _ & Hkept & Hwrapped & _).
  split.
  - apply Hkept. vm_compute. reflexivity.
  - apply Hwrapped. vm_compute. reflexivity.
Defined.

(** C10: the credit conversion is not idempotent on the look-ahead of
    the loop.  A record line whose amount carries its own CR and that is
    directly followed by a CR line gets its parentheses twice: the
    look-ahead wraps the amount of the record it is building without
    looking at it.  The rule of the standalone CR line has the test that
    the look-ahead lacks: applied twice it does what it does once, and
    met one line later the same CR line leaves [(723.40)] as it is. *)
Theorem lookahead_credit_wraps_twice (rows : list AMEX.row) :
  AMEX.extract_rows_from_pdf credit_twice_page
  = [AMEX.mkrow (txt "31 JAN") (txt "2021")
       (txt "PAYMENT BY TELEPHONE/INTERNET BANKING") (txt "((723.40))")]
  /\ AMEX.rows_loop [] [txt "31.01.21 PAYMENT 723.40CR"; txt "CR"]
     = [AMEX.mkrow (txt "31 JAN") (txt "2021") (txt "PAYMENT")
          (txt "((723.40))")]
  /\ AMEX.rows_loop [] [txt "31.01.21 PAYMENT 723.40CR"; txt "REF 1"; txt "CR"]
     = [AMEX.mkrow (txt "31 JAN") (txt "2021") (txt "PAYMENT")
          (txt "(723.40)")]
  /\ AMEX.standalone_CR (AMEX.standalone_CR rows) = AMEX.standalone_CR rows.
Proof.
  split; [vm_compute; reflexivity|].
  split; [vm_compute; reflexivity|].
  split; [vm_compute; reflexivity|].
  apply update_last_idempotent, credit_row_idempotent.
Qed.

Unset Implicit Arguments.

(** ** The index table of the compacted fallback *)

Module FallbackFacts.

(** Entry [i] of the table is the original index of character [i] of
    the compacted text. *)
Lemma raw_index_from_spec (s : str) : forall b i j,
  nth_error (UOB.raw_index_from b s) i = Some j ->
  exists k, j = b + k /\ nth_error s k = nth_error (UOB._compact s) i.
Proof.
  unfold UOB._compact, Str.compact.
  induction s as [|c t IH]; intros b i j; cbn [UOB.raw_index_from filter].
  - destruct i; discriminate.
  - destruct (Str.isspace c); cbn [negb].
    + intros H. destruct (IH _ _ _ H) as (k & -> & Hk).
      exists (S k). split; [lia|exact Hk].
    + destruct i as [|i]; cbn [nth_error].
      * intros [= <-]. exists 0. split; [lia|reflexivity].
      * intros H. destruct (IH _ _ _ H) as (k & -> & Hk).
        exists (S k). split; [lia|exact Hk].
Qed.

Lemma raw_index_from_compact_spec (s : str) (i j : nat) :
  nth_error (UOB.raw_index_from_compact s) i = Some j ->
  nth_error s j = nth_error (UOB._compact s) i.
Proof.
  intros H. destruct (raw_index_from_spec s 0 i j H) as (k & -> & Hk).
  exact Hk.
Qed.

(** The table has an entry for every character of the compacted text. *)
Lemma raw_index_from_length (s : str) : forall b,
  length (UOB.raw_index_from b s) = length (UOB._compact s).
Proof.
  unfold UOB._compact, Str.compact.
  induction s as [|c t IH]; intros b; cbn [UOB.raw_index_from filter];
    [reflexivity|].
  destruct (Str.isspace c); cbn [negb length]; now rewrite IH.
Qed.

Lemma find_from_bound (p : str) (s : str) : forall b i,
  p <> [] ->
  Str.find_from b s p = Some i -> b <= i < b + length s.
Proof.
  induction s as [|c t IH]; intros b i Hp; cbn [Str.find_from].
  - destruct p as [|x p']; [congruence|]. cbn. discriminate.
  - destruct (Str.startswith (c :: t) p).
    + intros [= <-]. cbn. lia.
    + intros H. apply IH in H; [|exact Hp]. cbn. lia.
Qed.

(** The definition with the fallback does what its comments say: when
    the tolerant pattern finds nothing and the compacted text holds the
    compacted marker at index [i], the section is cut from the original
    index of that character. *)
Lemma compacting_definition_falls_back (pages : list str) (i : nat) :
  Re.search UOB.START_MARKER_RE (UOB.all_text_of pages) = None ->
  Str.find (UOB._compact (UOB.all_text_of pages))
           (UOB._compact UOB.start_marker) = Some i ->
  exists j,
    nth_error (UOB.raw_index_from_compact (UOB.all_text_of pages)) i = Some j
    /\ nth_error (UOB.all_text_of pages) j
       = nth_error (UOB._compact (UOB.all_text_of pages)) i
    /\ UOB.extract_section_text_compacting pages
       = UOB.cut_at_end (UOB.slice_from j (UOB.all_text_of pages)).
Proof.
  intros Hre Hfind.
  assert (Hi : i < length (UOB._compact (UOB.all_text_of pages))).
  { apply find_from_bound in Hfind; [lia|].
    vm_compute. discriminate. }
  rewrite <- (raw_index_from_length _ 0) in Hi.
  destruct (nth_error (UOB.raw_index_from_compact (UOB.all_text_of pages)) i)
    as [j|] eqn:Ej.
  - exists j. split; [reflexivity|]. split.
    + now apply raw_index_from_compact_spec.
    + unfold UOB.extract_section_text_compacting. cbn zeta.
      now rewrite Hre, Hfind, Ej.
  - apply nth_error_None in Ej. unfold UOB.raw_index_from_compact in Ej. lia.
Qed.

End FallbackFacts.

(** ** Lines of the line stream *)

Module LineFacts.

Lemma lstrip_suffix (s : str) :
  exists w, s = w ++ Str.lstrip s.
Proof.
  induction s as [|c t [w IH]]; [now exists []|].
  cbn [Str.lstrip]. destruct (Str.isspace c).
  - exists (c :: w). cbn. now f_equal.
  - now exists [].
Qed.

Lemma lstrip_fixed (s : str) :
  match s with c :: _ => Str.isspace c = false | [] => True end ->
  Str.lstrip s = s.
Proof.
  destruct s as [|c t]; [reflexivity|]. cbn. now intros ->.
Qed.

Lemma lstrip_head (s : str) :
  match Str.lstrip s with c :: _ => Str.isspace c = false | [] => True end.
Proof.
  induction s as [|c t IH]; [exact I|].
  cbn [Str.lstrip]. destruct (Str.isspace c) eqn:E; [exact IH|exact E].
Qed.

Lemma lstrip_idem (s : str) : Str.lstrip (Str.lstrip s) = Str.lstrip s.
Proof. apply lstrip_fixed, lstrip_head. Qed.

Lemma rstrip_idem (s : str) : Str.rstrip (Str.rstrip s) = Str.rstrip s.
Proof. unfold Str.rstrip. now rewrite rev_involutive, lstrip_idem. Qed.

(** Stripping on the right keeps a first character that is not
    whitespace. *)
Lemma rstrip_head (s : str) :
  match s with c :: _ => Str.isspace c = false | [] => True end ->
  match Str.rstrip s with c :: _ => Str.isspace c = false | [] => True end.
Proof.
  intros H. unfold Str.rstrip.
  destruct (lstrip_suffix (rev s)) as [w Hw].
  apply (f_equal (@rev ascii)) in Hw.
  rewrite rev_involutive, rev_app_distr in Hw.
  destruct (rev (Str.lstrip (rev s))) as [|c t]; [exact I|].
  rewrite Hw in H. exact H.
Qed.

Lemma strip_idem (s : str) : Str.strip (Str.strip s) = Str.strip s.
Proof.
  unfold Str.strip.
  rewrite (lstrip_fixed (Str.rstrip (Str.lstrip s)))
    by apply rstrip_head, lstrip_head.
  apply rstrip_idem.
Qed.

(** The lines that [clean_lines] returns are kept by the noise
    classifier. *)
Lemma clean_loop_kept (raw : list str) :
  Forall (fun ln => UOB.is_redundant_line ln = false) (UOB.clean_loop raw).
Proof.
  induction raw as [|ln raw IH]; [constructor|].
  cbn [UOB.clean_loop].
  destruct (UOB.is_redundant_line ln) eqn:E; [exact IH|].
  destruct (UOB.found (Re.search UOB.START_MARKER_RE ln)); [exact IH|].
  destruct (UOB.found (Re.search UOB.END_MARKER_RE ln)); [constructor|].
  now constructor.
Qed.

Lemma clean_loop_stripped (raw : list str) :
  Forall (fun ln => Str.strip ln = ln) raw ->
  Forall (fun ln => Str.strip ln = ln) (UOB.clean_loop raw).
Proof.
  induction 1 as [|ln raw Hln Hraw IH]; [constructor|].
  cbn [UOB.clean_loop].
  destruct (UOB.is_redundant_line ln); [exact IH|].
  destruct (UOB.found (Re.search UOB.START_MARKER_RE ln)); [exact IH|].
  destruct (UOB.found (Re.search UOB.END_MARKER_RE ln)); [constructor|].
  now constructor.
Qed.

Lemma clean_lines_noise_free (section : str) :
  Forall noise_free (UOB.clean_lines section).
Proof.
  unfold UOB.clean_lines.
  pose proof (clean_loop_kept (map Str.strip (Str.splitlines section))) as Hk.
  assert (Hs : Forall (fun ln => Str.strip ln = ln)
                 (UOB.clean_loop (map Str.strip (Str.splitlines section)))).
  { apply clean_loop_stripped, Forall_forall. intros ln Hin.
    apply in_map_iff in Hin as (x & <- & _). apply strip_idem. }
  revert Hk Hs. generalize (UOB.clean_loop (map Str.strip (Str.splitlines section))).
  intros l Hk Hs. induction l as [|ln l IH]; [constructor|].
  inversion Hk; inversion Hs; subst. constructor; [|now apply IH].
  unfold noise_free. congruence.
Qed.

(** The continuation lines that the stitcher puts in its buffer are
    lines of the stream, so the noise classifier keeps them. *)
Lemma stitch_line_noise_free (year_value : str) (st : UOB.stitch) (line : str) :
  noise_free line ->
  Forall noise_free (tl (UOB.buffer_lines st)) ->
  Forall noise_free (tl (UOB.buffer_lines (UOB.stitch_line year_value st line))).
Proof.
  intros Hline Hbuf. unfold UOB.stitch_line.
  destruct (Re.match_ UOB.TX_START_RE (Str.strip line)); [constructor|].
  destruct (UOB.current_post st); [|exact Hbuf].
  cbn [UOB.buffer_lines].
  assert (Hs : noise_free (Str.strip line)).
  { unfold noise_free in *. now rewrite strip_idem. }
  destruct (UOB.buffer_lines st) as [|b bs]; [constructor|].
  cbn [app tl] in *. apply Forall_app. split; [exact Hbuf|].
  now constructor.
Qed.

Lemma stitch_lines_noise_free (year_value : str) (lines : list str) :
  Forall noise_free lines ->
  forall st,
    Forall noise_free (tl (UOB.buffer_lines st)) ->
    Forall noise_free
      (tl (UOB.buffer_lines (UOB.stitch_lines year_value st lines))).
Proof.
  unfold UOB.stitch_lines.
  induction 1 as [|line lines Hline Hlines IH]; intros st Hbuf; [exact Hbuf|].
  cbn [fold_left]. apply IH. now apply stitch_line_noise_free.
Qed.

End LineFacts.

(** ** Patterns with a single way to match *)

Module DetFacts.

Import Re Det.

Lemma adv_0 (s : st) : adv 0 s = s.
Proof. destruct s; reflexivity. Qed.

Lemma adv_step (s : st) c t n :
  rest s = c :: t -> adv (S n) s = adv n (step s c t).
Proof.
  intros E. unfold adv, step. rewrite E. cbn [firstn skipn rev rest seen caps].
  now rewrite <- app_assoc.
Qed.

Lemma firstn_plus {A} (n m : nat) (l : list A) :
  firstn (n + m) l = firstn n l ++ firstn m (skipn n l).
Proof.
  revert l. induction n as [|n IH]; intros [|x l]; cbn; try reflexivity.
  - now destruct m.
  - now rewrite IH.
Qed.

Lemma adv_adv (n m : nat) (s : st) : adv m (adv n s) = adv (n + m) s.
Proof.
  unfold adv. cbn [rest seen caps].
  rewrite skipn_skipn, firstn_plus, rev_app_distr, <- app_assoc.
  now rewrite (Nat.add_comm m n).
Qed.

Lemma det1_det p r : det1 p r -> det r.
Proof. intros (f & Hf & _). now exists f. Qed.

Lemma factors_cls (q : ascii -> bool) : factors (Cls q) (cls_len q).
Proof.
  split.
  - intros k [sn [|c t] cp]; cbn; [reflexivity|].
    destruct (q c); reflexivity.
  - intros [|c t] n; cbn; [discriminate|].
    destruct (q c); [|discriminate]. intros [= <-]. lia.
Qed.

Lemma det1_cls (p q : ascii -> bool) :
  (forall c, p c = true -> q c = false) -> det1 p (Cls q).
Proof.
  intros Hpq. exists (cls_len q). split; [apply factors_cls|]. split.
  - intros [|c t] n; cbn; [discriminate|].
    destruct (q c); [|discriminate]. intros [= <-]. lia.
  - intros c t Hc. cbn. now rewrite (Hpq c Hc).
Qed.

Lemma factors_seq a b fa fb :
  factors a fa -> factors b fb -> factors (Seq a b) (seq_len fa fb).
Proof.
  intros [Ha Ba] [Hb Bb]. split.
  - intros k s. cbn [run]. rewrite Ha. unfold seq_len.
    destruct (fa (rest s)) as [n|]; [|reflexivity].
    rewrite Hb. cbn [adv rest].
    destruct (fb (skipn n (rest s))) as [m|]; [|reflexivity].
    now rewrite adv_adv.
  - intros rs n. unfold seq_len.
    destruct (fa rs) as [x|] eqn:Ea; [|discriminate].
    destruct (fb (skipn x rs)) as [y|] eqn:Eb; [|discriminate].
    intros [= <-]. apply Ba in Ea. apply Bb in Eb.
    rewrite length_skipn in Eb. lia.
Qed.

Lemma det_seq a b : det a -> det b -> det (Seq a b).
Proof.
  intros [fa Ha] [fb Hb]. exists (seq_len fa fb). now apply factors_seq.
Qed.

Lemma det1_seq p a b : det1 p a -> det b -> det1 p (Seq a b).
Proof.
  intros (fa & Ha & Pa & Ra) [fb Hb]. exists (seq_len fa fb).
  split; [now apply factors_seq|]. split.
  - intros rs n. unfold seq_len.
    destruct (fa rs) as [x|] eqn:Ea; [|discriminate].
    destruct (fb (skipn x rs)); [|discriminate].
    intros [= <-]. apply Pa in Ea. lia.
  - intros c t Hc. unfold seq_len. now rewrite (Ra c t Hc).
Qed.

Lemma run_len_le p rs : run_len p rs <= length rs.
Proof.
  induction rs as [|c t IH]; cbn; [lia|]. destruct (p c); lia.
Qed.

(** A greedy repetition of a class, before a continuation that accepts
    no character of the class, takes the whole run. *)
Lemma star_greedy_cls (p : ascii -> bool) (K : st -> option st) :
  (forall s c t, rest s = c :: t -> p c = true -> K s = None) ->
  forall fuel s,
    length (rest s) <= fuel ->
    star_loop true (run (Cls p)) K fuel s = K (adv (run_len p (rest s)) s).
Proof.
  intros HK. induction fuel as [|f IH]; intros s Hlen.
  - destruct (rest s) eqn:E; [|cbn in Hlen; lia].
    cbn. now rewrite adv_0.
  - cbn [star_loop run].
    destruct (rest s) as [|c t] eqn:E.
    + cbn. now rewrite adv_0.
    + cbn [run_len]. destruct (p c) eqn:Epc.
      * cbn [step rest length].
        replace (length t <? S (length t)) with true
          by (symmetry; apply Nat.ltb_lt; lia).
        rewrite IH by (cbn in *; lia).
        cbn [step rest]. rewrite (adv_step s c t (run_len p t) E).
        destruct (K (adv (run_len p t) (step s c t))) eqn:EK; cbn;
          [reflexivity|].
        now apply HK with (c := c) (t := t).
      * cbn. now rewrite adv_0.
Qed.

Lemma factors_star_then p b fb :
  factors b fb ->
  (forall c t, p c = true -> fb (c :: t) = None) ->
  factors (Seq (star (Cls p)) b) (star_len p fb).
Proof.
  intros [Hb Bb] Rb. split.
  - intros k s.
    change (run (Seq (star (Cls p)) b) k s)
      with (star_loop true (run (Cls p)) (run b k) (length (rest s)) s).
    rewrite star_greedy_cls; [|intros x c t E Hc; now rewrite Hb, E, Rb|lia].
    rewrite Hb. unfold star_len. cbn [adv rest].
    destruct (fb (skipn (run_len p (rest s)) (rest s))); [|reflexivity].
    now rewrite adv_adv.
  - intros rs n. unfold star_len.
    destruct (fb (skipn (run_len p rs) rs)) as [m|] eqn:E; [|discriminate].
    intros [= <-]. apply Bb in E. rewrite length_skipn in E.
    pose proof (run_len_le p rs). lia.
Qed.

Lemma det_star_then p b : det1 p b -> det (Seq (star (Cls p)) b).
Proof.
  intros (fb & Hb & _ & Rb). exists (star_len p fb).
  now apply factors_star_then.
Qed.

Lemma det_plus_then p b : det1 p b -> det (Seq (plus (Cls p)) b).
Proof.
  intros (fb & Hb & Pb & Rb).
  pose proof (@factors_star_then p b fb Hb Rb) as [Hs Bs].
  exists (seq_len (cls_len p) (star_len p fb)). split.
  - intros k s.
    change (run (Seq (plus (Cls p)) b) k s)
      with (match rest s with
            | c :: t =>
                if p c then run (Seq (star (Cls p)) b) k (step s c t) else None
            | [] => None
            end).
    unfold seq_len, cls_len.
    destruct (rest s) as [|c t] eqn:E; [reflexivity|].
    destruct (p c) eqn:Epc; [|reflexivity].
    rewrite Hs. cbn [step rest skipn].
    destruct (star_len p fb t) as [m|]; [|reflexivity].
    rewrite <- (adv_step s c t m E). reflexivity.
  - intros rs n. unfold seq_len, cls_len.
    destruct rs as [|c t]; [discriminate|].
    destruct (p c); [|discriminate]. cbn [skipn].
    destruct (star_len p fb t) as [m|] eqn:Em; [|discriminate].
    intros [= <-]. apply Bs in Em. cbn. lia.
Qed.

End DetFacts.

(** ** The segments of the AMEX statement *)

Module SegFacts.

Import Re Det DetFacts.

Lemma space_lower (c : ascii) : Str.isspace c = true -> Str.lower_char c = c.
Proof.
  destruct c as [[] [] [] [] [] [] [] []]; vm_compute; congruence.
Qed.

Lemma chri_rejects_space (x c : ascii) :
  Str.isspace (Str.lower_char x) = false ->
  Str.isspace c = true ->
  Ascii.eqb (Str.lower_char c) (Str.lower_char x) = false.
Proof.
  intros Hx Hc. destruct (Ascii.eqb _ _) eqn:E; [|reflexivity].
  apply Ascii.eqb_eq in E. rewrite (space_lower c Hc) in E. congruence.
Qed.

Lemma det_eps : det Eps.
Proof.
  exists (fun _ => Some 0). split.
  - intros k s. cbn. now rewrite adv_0.
  - intros rs n [= <-]. lia.
Qed.

Lemma det_chri (x : ascii) : det (chri x).
Proof. eexists. apply factors_cls. Qed.

Lemma det_seqs (l : list regex) : Forall det l -> det (seqs l).
Proof.
  induction 1 as [|r l Hr Hl IH]; [apply det_eps|].
  destruct l as [|r' l']; [exact Hr|].
  change (seqs (r :: r' :: l')) with (Seq r (seqs (r' :: l'))).
  now apply det_seq.
Qed.

Lemma det1_seqs p (r : regex) (l : list regex) :
  det1 p r -> Forall det l -> det1 p (seqs (r :: l)).
Proof.
  intros Hr Hl. destruct l as [|r' l']; [exact Hr|].
  change (seqs (r :: r' :: l')) with (Seq r (seqs (r' :: l'))).
  apply det1_seq; [exact Hr|]. now apply det_seqs.
Qed.

(** A case-insensitive literal that starts with a character that is not
    whitespace. *)
Lemma det1_liti (x : ascii) (w : string) :
  Str.isspace (Str.lower_char x) = false ->
  det1 Str.isspace (liti (String x w)).
Proof.
  intros Hx. unfold liti. cbn [txt list_ascii_of_string map].
  apply det1_seqs.
  - apply det1_cls. intros c Hc. now apply chri_rejects_space.
  - apply Forall_forall. intros r Hr. apply in_map_iff in Hr as (y & <- & _).
    apply det_chri.
Qed.

Lemma det1_start_marker : det1 Str.isspace AMEX.start_marker_re.
Proof.
  unfold AMEX.start_marker_re. cbn [seqs].
  repeat first
    [ apply det1_liti; reflexivity
    | apply det1_seq
    | apply det_plus_then
    | apply det_star_then ].
Qed.

Lemma det_end_marker : det (liti "Total of New Transactions").
Proof. apply det1_det with (p := Str.isspace), det1_liti. reflexivity. Qed.

Section Scan.

Variables f fE : list ascii -> option nat.
Hypothesis Hf : factors AMEX.start_marker_re f.
Hypothesis Pf : forall rs n, f rs = Some n -> 1 <= n.
Hypothesis HfE : factors (liti "Total of New Transactions") fE.

Lemma at_pos_start sn rs :
  at_pos AMEX.start_marker_re sn rs
  = match f rs with
    | Some n => Some (mkst (rev (firstn n rs) ++ sn) (skipn n rs) [])
    | None => None
    end.
Proof. unfold at_pos. now rewrite (proj1 Hf). Qed.

Lemma after_start_eq rs :
  after_start rs = option_map (fun n => skipn n rs) (f rs).
Proof.
  unfold after_start. rewrite at_pos_start. now destruct (f rs).
Qed.

Lemma run_T_some sn rs cp :
  AMEX.is_some (run terminator (fun x => Some x) (mkst sn rs cp))
  = AMEX.is_some (f rs) || AMEX.is_some (fE rs).
Proof.
  unfold terminator. cbn [run]. rewrite (proj1 Hf), (proj1 HfE). cbn [rest].
  destruct (f rs), (fE rs); reflexivity.
Qed.

Lemma term_eq rs : term rs = AMEX.is_some (f rs) || AMEX.is_some (fE rs).
Proof. unfold term, at_pos. apply run_T_some. Qed.

Lemma start_is_term rs n : f rs = Some n -> term rs = true.
Proof. intros E. now rewrite term_eq, E. Qed.

Lemma first_term_spec rs : forall j,
  first_term rs = Some j ->
  j <= length rs /\ term (skipn j rs) = true
  /\ forall j', j' < j -> term (skipn j' rs) = false.
Proof.
  induction rs as [|c t IH]; intros j; cbn [first_term].
  - destruct (term []) eqn:E; [|discriminate]. intros [= <-].
    repeat split; [lia|exact E|lia].
  - destruct (term (c :: t)) eqn:E.
    + intros [= <-]. repeat split; [lia|exact E|lia].
    + destruct (first_term t) as [j0|]; [|discriminate]. intros [= <-].
      destruct (IH j0 eq_refl) as (H1 & H2 & H3).
      repeat split; [cbn; lia|exact H2|].
      intros [|j'] Hj; [exact E|]. apply H3. lia.
Qed.

(** The lazy repetition of any character stops at the first position
    that the continuation accepts. *)
Lemma lazy_scan (K : st -> option st) (g : st -> st) :
  (forall s', K s' = if term (rest s') then Some (g s') else None) ->
  forall fuel s,
    length (rest s) <= fuel ->
    star_loop false (run dotall) K fuel s
    = match first_term (rest s) with
      | Some j => Some (g (adv j s))
      | None => None
      end.
Proof.
  intros HK. induction fuel as [|n IH]; intros s Hlen.
  - destruct (rest s) eqn:E; [|cbn in Hlen; lia].
    cbn [star_loop first_term]. rewrite HK, E.
    destruct (term []); [now rewrite adv_0|reflexivity].
  - cbn [star_loop]. rewrite HK.
    destruct (rest s) as [|c t] eqn:E; cbn [first_term].
    + destruct (term []) eqn:Et.
      * now rewrite adv_0.
      * cbn. now rewrite E.
    + destruct (term (c :: t)) eqn:Et.
      * now rewrite adv_0.
      * cbn [run dotall]. rewrite E. cbn [step rest length].
        replace (length t <? S (length t)) with true
          by (symmetry; apply Nat.ltb_lt; lia).
        rewrite IH by (cbn in *; lia). cbn [step rest].
        destruct (first_term t) as [j|]; [|reflexivity].
        cbn [option_map]. now rewrite (adv_step s c t j E).
Qed.

(** The segment pattern at a position. *)
Lemma at_pos_seg sn rs :
  at_pos AMEX.seg_re sn rs
  = match f rs with
    | None => None
    | Some n =>
        match first_term (skipn n rs) with
        | None => None
        | Some j =>
            Some (mkst (rev (firstn (n + j) rs) ++ sn) (skipn (n + j) rs)
                    [("1"%string, firstn j (skipn n rs))])
        end
    end.
Proof.
  unfold at_pos.
  change (run AMEX.seg_re (fun x => Some x) (mkst sn rs []))
    with (run AMEX.start_marker_re
            (fun s1 =>
               star_loop false (run dotall)
                 (fun s' =>
                    match run terminator (fun x => Some x)
                            (set_cap "1"
                               (firstn (length (rest s1) - length (rest s'))
                                  (rest s1)) s') with
                    | Some _ =>
                        Some (set_cap "1"
                                (firstn (length (rest s1) - length (rest s'))
                                   (rest s1)) s')
                    | None => None
                    end)
                 (length (rest s1)) s1)
            (mkst sn rs [])).
  rewrite (proj1 Hf). cbn [rest].
  destruct (f rs) as [n|] eqn:En; [|reflexivity].
  set (s1 := adv n (mkst sn rs [])).
  rewrite (@lazy_scan _
             (fun s' => set_cap "1"
                          (firstn (length (rest s1) - length (rest s'))
                             (rest s1)) s')); [| |lia].
  - change (rest s1) with (skipn n rs).
    destruct (first_term (skipn n rs)) as [j|] eqn:Ej; [|reflexivity].
    destruct (first_term_spec _ _ Ej) as (Hj & _ & _).
    unfold s1. rewrite adv_adv. unfold adv, set_cap. cbn [rest seen caps].
    rewrite !length_skipn. rewrite length_skipn in Hj.
    now replace (length rs - n - (length rs - (n + j))) with j by lia.
  - intros s'.
    pose proof (run_T_some (seen s') (rest s')
                  (("1"%string,
                    firstn (length (rest s1) - length (rest s')) (rest s1))
                     :: caps s')) as HT.
    rewrite <- term_eq in HT. unfold set_cap at 1. rewrite <- HT.
    now destruct (run terminator _ _).
Qed.

Lemma find_start_spec rs : forall i n,
  find_start f rs = Some (i, n) ->
  f (skipn i rs) = Some n /\ i + n <= length rs.
Proof.
  induction rs as [|c t IH]; intros i n; cbn [find_start].
  - destruct (f []) as [m|] eqn:E; [|discriminate]. intros [= <- <-].
    split; [exact E|]. apply (proj2 Hf) in E. exact E.
  - destruct (f (c :: t)) as [m|] eqn:E.
    + intros [= <- <-]. split; [exact E|]. apply (proj2 Hf) in E. exact E.
    + destruct (find_start f t) as [[i0 n0]|]; [|discriminate].
      intros [= <- <-]. destruct (IH i0 n0 eq_refl) as [H1 H2].
      split; [exact H1|cbn; lia].
Qed.

Lemma search_from_start rs : forall sn,
  search_from AMEX.start_marker_re sn rs
  = match find_start f rs with
    | Some (i, n) =>
        Some (length sn + i,
              mkst (rev (firstn (i + n) rs) ++ sn) (skipn (i + n) rs) [])
    | None => None
    end.
Proof.
  induction rs as [|c t IH]; intros sn; cbn [search_from find_start];
    rewrite at_pos_start.
  - destruct (f []); [now rewrite Nat.add_0_r|reflexivity].
  - destruct (f (c :: t)); [now rewrite Nat.add_0_r|].
    rewrite IH. destruct (find_start f t) as [[i n]|]; [|reflexivity].
    cbn [length firstn skipn rev Nat.add]. rewrite <- app_assoc.
    cbn [app]. now rewrite Nat.add_succ_r.
Qed.

Lemma wt_tail c t : well_terminated (c :: t) = true -> well_terminated t = true.
Proof. cbn [well_terminated]. intros H. now apply andb_true_iff in H. Qed.

Lemma wt_skipn i : forall rs,
  well_terminated rs = true -> well_terminated (skipn i rs) = true.
Proof.
  induction i as [|i IH]; intros [|c t] H; try exact H.
  cbn [skipn]. apply IH. now apply wt_tail in H.
Qed.

Lemma wt_head rs n :
  well_terminated rs = true -> f rs = Some n ->
  exists j, first_term (skipn n rs) = Some j.
Proof.
  intros H E.
  assert (H' : match after_start rs with
               | Some rs' => AMEX.is_some (first_term rs')
               | None => true
               end = true).
  { destruct rs; cbn [well_terminated] in H;
      now apply andb_true_iff in H. }
  rewrite after_start_eq, E in H'. cbn [option_map] in H'.
  destruct (first_term (skipn n rs)) as [j|]; [now exists j|discriminate].
Qed.

Lemma search_from_seg rs : forall sn,
  well_terminated rs = true ->
  search_from AMEX.seg_re sn rs
  = match find_start f rs with
    | Some (i, n) =>
        match first_term (skipn (i + n) rs) with
        | Some j =>
            Some (length sn + i,
                  mkst (rev (firstn (i + n + j) rs) ++ sn)
                       (skipn (i + n + j) rs)
                       [("1"%string, firstn j (skipn (i + n) rs))])
        | None => None
        end
    | None => None
    end.
Proof.
  induction rs as [|c t IH]; intros sn Hwt; cbn [search_from find_start];
    rewrite at_pos_seg.
  - destruct (f []) as [n|] eqn:E; [|reflexivity].
    destruct (wt_head _ _ Hwt E) as [j Ej].
    cbn [Nat.add]. rewrite Ej. now rewrite Nat.add_0_r.
  - destruct (f (c :: t)) as [n|] eqn:E.
    + destruct (wt_head _ _ Hwt E) as [j Ej].
      cbn [Nat.add]. rewrite Ej. now rewrite Nat.add_0_r.
    + rewrite IH by now apply wt_tail in Hwt.
      destruct (find_start f t) as [[i n]|]; [|reflexivity].
      cbn [Nat.add skipn].
      destruct (first_term (skipn (i + n) t)) as [j|]; [|reflexivity].
      cbn [length firstn skipn rev Nat.add]. rewrite <- app_assoc.
      cbn [app]. now rewrite Nat.add_succ_r.
Qed.

(** Where no start marker begins, the search moves on. *)
Lemma search_skip j : forall rs sn,
  (forall j', j' < j -> f (skipn j' rs) = None) ->
  j <= length rs ->
  search_from AMEX.start_marker_re sn rs
  = search_from AMEX.start_marker_re (rev (firstn j rs) ++ sn) (skipn j rs).
Proof.
  induction j as [|j IH]; intros rs sn Hnone Hlen; [reflexivity|].
  destruct rs as [|c t]; [cbn in Hlen; lia|].
  cbn [search_from]. rewrite at_pos_start.
  pose proof (Hnone 0 ltac:(lia)) as H0. cbn [skipn] in H0. rewrite H0.
  rewrite (IH t (c :: sn)).
  - cbn [firstn skipn rev]. now rewrite <- app_assoc.
  - intros j' Hj'. apply (Hnone (S j')). lia.
  - cbn in Hlen. lia.
Qed.

Lemma finditer_from_ext fuel r sn rs sn' rs' :
  search_from r sn rs = search_from r sn' rs' ->
  finditer_from fuel r sn rs = finditer_from fuel r sn' rs'.
Proof.
  intros H. destruct fuel; [reflexivity|].
  cbn [finditer_from]. now rewrite H.
Qed.

Lemma related_shift base d rs m g :
  d <= length rs ->
  related f (base + d) (skipn d rs) m g -> related f base rs m g.
Proof.
  intros Hd (i & n & j & H1 & H2 & H3 & -> & ->).
  exists (d + i), n, j.
  rewrite skipn_skipn in H1, H3. rewrite length_skipn in H2.
  replace (d + i + n) with (i + n + d) by lia.
  replace (d + i) with (i + d) by lia.
  repeat split; try assumption; try lia.
  - f_equal; lia.
  - rewrite skipn_skipn. f_equal; lia.
Qed.

Lemma scan_related fuel : forall sn rs,
  well_terminated rs = true ->
  Forall2 (related f (length sn) rs)
    (finditer_from fuel AMEX.start_marker_re sn rs)
    (finditer_from fuel AMEX.seg_re sn rs)
  /\ chain_from (length sn) (finditer_from fuel AMEX.seg_re sn rs).
Proof.
  induction fuel as [|fu IH]; intros sn rs Hwt; [now split; constructor|].
  cbn [finditer_from].
  rewrite search_from_start, (search_from_seg _ _ Hwt).
  destruct (find_start f rs) as [[i n]|] eqn:Efs; [|now split; constructor].
  destruct (find_start_spec _ _ _ Efs) as [Hn Hin].
  pose proof (Pf _ _ Hn) as Hpos.
  destruct (wt_head _ _ (wt_skipn i _ Hwt) Hn) as [j Ej].
  rewrite skipn_skipn in Ej. replace (n + i) with (i + n) in Ej by lia.
  rewrite Ej.
  destruct (first_term_spec _ _ Ej) as (Hj & _ & Hbefore).
  rewrite length_skipn in Hj.
  unfold to_mobj, pos. cbn [seen rest caps].
  rewrite !length_app, !length_rev, !length_firstn.
  rewrite !Nat.min_l by lia.
  replace (length sn + i <? i + n + length sn) with true
    by (symmetry; apply Nat.ltb_lt; lia).
  replace (length sn + i <? i + n + j + length sn) with true
    by (symmetry; apply Nat.ltb_lt; lia).
  set (sn2 := rev (firstn (i + n + j) rs) ++ sn).
  set (rs2 := skipn (i + n + j) rs).
  assert (Hbridge :
    finditer_from fu AMEX.start_marker_re
      (rev (firstn (i + n) rs) ++ sn) (skipn (i + n) rs)
    = finditer_from fu AMEX.start_marker_re sn2 rs2).
  { apply finditer_from_ext.
    rewrite (@search_skip j (skipn (i + n) rs)).
    - unfold sn2, rs2.
      replace (skipn j (skipn (i + n) rs)) with (skipn (i + n + j) rs)
        by (rewrite skipn_skipn; f_equal; lia).
      now rewrite (firstn_plus (i + n) j rs), rev_app_distr, <- app_assoc.
    - intros j' Hj'. specialize (Hbefore j' Hj').
      rewrite term_eq in Hbefore. apply orb_false_iff in Hbefore as [Hb _].
      now destruct (f (skipn j' (skipn (i + n) rs))).
    - rewrite length_skipn. lia. }
  rewrite Hbridge.
  assert (Hwt2 : well_terminated rs2 = true) by now apply wt_skipn.
  destruct (IH sn2 rs2 Hwt2) as [Hrel Hchain].
  assert (Hlen2 : length sn2 = length sn + (i + n + j)).
  { unfold sn2. rewrite length_app, length_rev, length_firstn. lia. }
  rewrite Hlen2 in Hrel, Hchain.
  split.
  - constructor.
    + exists i, n, j. repeat split; try assumption; f_equal; lia.
    + revert Hrel. apply Forall2_impl. intros m g.
      apply related_shift. lia.
  - cbn [chain_from m_start m_end]. repeat split; try lia.
    now replace (i + n + j + length sn) with (length sn + (i + n + j)) by lia.
Qed.

Lemma related_spans t m g : related f 0 t m g -> spans t m g.
Proof.
  intros (i & n & j & Hn & Hin & Ej & -> & ->).
  pose proof (Pf _ _ Hn) as Hpos.
  destruct (first_term_spec _ _ Ej) as (Hj & Hterm & Hbefore).
  unfold spans, group. cbn [m_start m_end m_caps lookup Nat.add].
  rewrite skipn_skipn in Hterm.
  repeat split; try lia.
  - cbn. do 2 f_equal. lia.
  - now replace (i + n + j) with (j + (i + n)) by lia.
  - intros jj Hjj. specialize (Hbefore (jj - (i + n))).
    rewrite skipn_skipn in Hbefore.
    replace (jj - (i + n) + (i + n)) with jj in Hbefore by lia.
    apply Hbefore. lia.
Qed.

End Scan.

(** For a text whose start markers are all followed by a start or end
    marker, the segment matches are those of the start markers, one for
    one, in order. *)
Lemma segments_match_markers (t : str) :
  well_terminated t = true ->
  Forall2 (spans t) (finditer AMEX.start_marker_re t)
                    (finditer AMEX.seg_re t)
  /\ chain_from 0 (finditer AMEX.seg_re t).
Proof.
  intros Hwt.
  destruct det1_start_marker as (f & Hf & Pf & _).
  destruct det_end_marker as (fE & HfE).
  destruct (@scan_related f fE Hf Pf HfE (S (length t)) [] t Hwt)
    as [Hrel Hchain].
  split; [|exact Hchain].
  revert Hrel. apply Forall2_impl. intros m g.
  eapply related_spans; eauto.
Qed.

End SegFacts.

(** ** The rows of the AMEX segments *)

Module RowFacts.

Lemma rows_loop_length (n : nat) : forall lines rows,
  length lines <= n ->
  length (AMEX.rows_loop rows lines)
  = length rows + length (filter emits lines).
Proof.
  induction n as [|n IH]; intros [|l rest] rows Hlen;
    try (cbn in Hlen; lia); try (cbn; lia).
  cbn [AMEX.rows_loop filter]. unfold emits at 1. cbn zeta.
  cbn [length] in Hlen.
  destruct (Str.eqb (Str.strip l) (txt "CR")) eqn:Ecr; cbn [negb andb].
  { rewrite IH by lia. unfold AMEX.standalone_CR.
    now rewrite update_last_length. }
  destruct (AMEX.found (Re.match_ AMEX.DATE_DDMMYY_DOTS_RE (Str.strip l)));
    cbn [negb andb]; [|apply IH; lia].
  destruct (AMEX.parse_transaction_line (Str.strip l)) as [rec|];
    cbn [AMEX.is_some]; [|apply IH; lia].
  destruct rest as [|nxt rest'].
  - cbn [AMEX.rows_loop filter]. rewrite length_app. cbn [length]. lia.
  - unfold AMEX.is_CR.
    destruct (Str.eqb (Str.strip nxt) (txt "CR")) eqn:Enxt.
    + cbn [filter]. unfold emits at 1. cbn zeta. rewrite Enxt.
      cbn [negb andb]. cbn [length] in Hlen.
      rewrite IH by lia. rewrite length_app. cbn [length]. lia.
    + rewrite IH by (cbn [length] in *; lia).
      rewrite length_app. cbn [length]. lia.
Qed.

Lemma clean_of_cons (seg : str) (segs : list str) :
  AMEX.clean_of (seg :: segs) = AMEX.clean_of [seg] ++ AMEX.clean_of segs.
Proof.
  unfold AMEX.clean_of. cbn [flat_map]. rewrite app_nil_r.
  now rewrite map_app, filter_app.
Qed.

Lemma rows_of_segments_length (segs : list str) :
  length (AMEX.rows_of_segments segs)
  = length (filter emits (AMEX.clean_of segs)).
Proof.
  unfold AMEX.rows_of_segments.
  now rewrite (rows_loop_length (length (AMEX.clean_of segs))).
Qed.

(** The rows of a document are as many as the rows of its segments
    taken one by one. *)
Lemma rows_of_segments_sum (segs : list str) :
  length (AMEX.rows_of_segments segs)
  = list_sum (map (fun seg => length (AMEX.rows_of_segments [seg])) segs).
Proof.
  rewrite rows_of_segments_length.
  induction segs as [|seg segs IH]; [reflexivity|].
  rewrite clean_of_cons, filter_app, length_app, IH.
  cbn [map list_sum]. now rewrite rows_of_segments_length.
Qed.

End RowFacts.

(** ** The segments of a document with repeated headers *)

(** C9 (as amended): in a document whose every start marker is followed
    by another start marker or by the end marker, the segments are as
    many as the occurrences of the start marker; each segment is the
    text from the end of one start marker to the first start marker or
    end marker after it; the segment matches follow each other without
    overlap; and the document has as many rows as its segments have,
    taken one by one. *)
Theorem repeated_segments (pages : list str) :
  well_terminated (amex_text pages) = true ->
  let occurrences := Re.finditer AMEX.start_marker_re (amex_text pages) in
  let matches := Re.finditer AMEX.seg_re (amex_text pages) in
  let segments :=
    AMEX.extract_marker_segments (Str.join [ascii_of_nat 10] pages) in
  length segments = length occurrences
  /\ segments = map (fun g => AMEX.or_empty (Re.group g "1")) matches
  /\ Forall2 (spans (amex_text pages)) occurrences matches
  /\ chain_from 0 matches
  /\ length (AMEX.extract_rows_from_pdf pages)
     = list_sum (map (fun seg => length (AMEX.rows_of_segments [seg]))
                     segments).
Proof.
  intros Hwt occurrences matches segments.
  destruct (SegFacts.segments_match_markers _ Hwt) as [Hspans Hchain].
  fold occurrences matches in Hspans, Hchain.
  assert (Hsegs : segments
                  = map (fun g => AMEX.or_empty (Re.group g "1")) matches)
    by reflexivity.
  split; [|split; [exact Hsegs|split; [exact Hspans|split; [exact Hchain|]]]].
  - rewrite Hsegs, length_map. symmetry. now apply Forall2_length in Hspans.
  - unfold AMEX.extract_rows_from_pdf. fold segments.
    destruct segments as [|seg segs] eqn:E; [reflexivity|].
    apply RowFacts.rows_of_segments_sum.
Qed.

Lemma repeated_segments_witness :
  length (AMEX.extract_marker_segments (Str.join [ascii_of_nat 10] two_pages))
  = length (Re.finditer AMEX.start_marker_re (amex_text two_pages))
  /\ length (AMEX.extract_rows_from_pdf two_pages)
     = list_sum
         (map (fun seg => length (AMEX.rows_of_segments [seg]))
            (AMEX.extract_marker_segments
               (Str.join [ascii_of_nat 10] two_pages))).
Proof.
  assert (Hwt : well_terminated (amex_text two_pages) = true)
    by (vm_compute; reflexivity).
  destruct (repeated_segments two_pages Hwt) as (Hn & _ & _ & _ & Hrows).
  split; [exact Hn|exact Hrows].
Defined.

(** On the two pages the counts are two segments and two rows. *)
Remark two_pages_counts :
  length (Re.finditer AMEX.start_marker_re (amex_text two_pages)) = 2
  /\ length (AMEX.extract_marker_segments
               (Str.join [ascii_of_nat 10] two_pages)) = 2
  /\ length (AMEX.extract_rows_from_pdf two_pages) = 2.
Proof. repeat split; vm_compute; reflexivity. Qed.

(** C9 fails on a document that has the start marker once and no end
    marker after it: no segment is returned for the one occurrence. *)
Lemma unterminated_marker_gives_no_segment :
  length (Re.finditer AMEX.start_marker_re (amex_text unterminated_page)) = 1
  /\ AMEX.extract_marker_segments
       (Str.join [ascii_of_nat 10] unterminated_page) = []
  /\ length (AMEX.extract_marker_segments
               (Str.join [ascii_of_nat 10] unterminated_page))
     <> length (Re.finditer AMEX.start_marker_re
                  (amex_text unterminated_page)).
Proof.
  split; [|split]; try (vm_compute; reflexivity).
  vm_compute. discriminate.
Qed.

(** ** More on the UOB parser *)

Module UobFacts.

Import LineFacts.

Lemma not_redundant_no_marker (ln : str) :
  UOB.is_redundant_line ln = false ->
  UOB.found (Re.search UOB.START_MARKER_RE (Str.strip ln)) = false
  /\ UOB.found (Re.search UOB.END_MARKER_RE (Str.strip ln)) = false.
Proof.
  unfold UOB.is_redundant_line. cbn zeta.
  destruct (Str.strip ln) as [|c t] eqn:E; [discriminate|].
  rewrite !orb_false_iff. tauto.
Qed.

Lemma clean_loop_filter (raw : list str) :
  Forall (fun ln => Str.strip ln = ln) raw ->
  UOB.clean_loop raw
  = filter (fun ln => negb (UOB.is_redundant_line ln)) raw.
Proof.
  induction 1 as [|ln raw Hln Hraw IH]; [reflexivity|].
  cbn [UOB.clean_loop filter].
  destruct (UOB.is_redundant_line ln) eqn:E; cbn [negb]; [exact IH|].
  destruct (not_redundant_no_marker ln E) as [Hs He].
  rewrite Hln in Hs, He. rewrite Hs, He. now rewrite IH.
Qed.

Lemma stripped_lines (section : str) :
  Forall (fun ln => Str.strip ln = ln) (map Str.strip (Str.splitlines section)).
Proof.
  apply Forall_forall. intros ln Hin.
  apply in_map_iff in Hin as (x & <- & _). apply strip_idem.
Qed.

Lemma flush_with_rows year_value before st :
  UOB.flush year_value (with_rows before st)
  = with_rows before (UOB.flush year_value st).
Proof.
  unfold UOB.flush, with_rows. cbn [UOB.rows UOB.current_post
    UOB.current_trans UOB.buffer_lines].
  destruct (UOB.current_post st) as [[|p post]|]; try reflexivity.
  destruct (UOB.current_trans st) as [[|t trans]|]; try reflexivity.
  destruct (UOB.buffer_lines st) as [|b bs]; try reflexivity.
  destruct (UOB.parse_tx_from_buffer _ _ _); [|reflexivity].
  now rewrite app_assoc.
Qed.

Lemma stitch_line_with_rows year_value before st line :
  UOB.stitch_line year_value (with_rows before st) line
  = with_rows before (UOB.stitch_line year_value st line).
Proof.
  unfold UOB.stitch_line.
  destruct (Re.match_ UOB.TX_START_RE (Str.strip line)).
  - rewrite flush_with_rows. reflexivity.
  - destruct st as [rows post trans buffer]. unfold with_rows.
    cbn [UOB.rows UOB.current_post UOB.current_trans UOB.buffer_lines].
    destruct post; reflexivity.
Qed.

Lemma stitch_lines_with_rows year_value lines : forall before st,
  UOB.stitch_lines year_value (with_rows before st) lines
  = with_rows before (UOB.stitch_lines year_value st lines).
Proof.
  unfold UOB.stitch_lines.
  induction lines as [|l lines IH]; intros before st; [reflexivity|].
  cbn [fold_left]. now rewrite stitch_line_with_rows, IH.
Qed.

Lemma stitch_rows_from year_value st lines :
  UOB.rows (UOB.flush year_value
              (UOB.stitch_lines year_value (with_rows (UOB.rows st)
                 (UOB.mkstitch [] (UOB.current_post st) (UOB.current_trans st)
                    (UOB.buffer_lines st))) lines))
  = UOB.rows st
    ++ UOB.rows (UOB.flush year_value
                   (UOB.stitch_lines year_value
                      (UOB.mkstitch [] (UOB.current_post st)
                         (UOB.current_trans st) (UOB.buffer_lines st)) lines)).
Proof.
  now rewrite stitch_lines_with_rows, flush_with_rows.
Qed.

Lemma idle_stays (year_value : str) (pre : list str) : forall st,
  UOB.current_post st = None ->
  Forall (fun l => is_start l = false) pre ->
  UOB.stitch_lines year_value st pre = st.
Proof.
  unfold UOB.stitch_lines.
  induction pre as [|l pre IH]; intros st Hst Hpre; [reflexivity|].
  inversion Hpre as [|? ? Hl Hrest]; subst. cbn [fold_left].
  assert (Hstep : UOB.stitch_line year_value st l = st).
  { unfold UOB.stitch_line. unfold is_start in Hl.
    destruct (Re.match_ UOB.TX_START_RE (Str.strip l)); [discriminate|].
    now rewrite Hst. }
  rewrite Hstep. now apply IH.
Qed.

Lemma flush_years year_value st :
  Forall (fun r => UOB.Year r = Some year_value) (UOB.rows st) ->
  Forall (fun r => UOB.Year r = Some year_value)
         (UOB.rows (UOB.flush year_value st)).
Proof.
  intros H. unfold UOB.flush. cbn [UOB.rows].
  destruct (UOB.current_post st) as [[|p post]|]; try exact H.
  destruct (UOB.current_trans st) as [[|t trans]|]; try exact H.
  destruct (UOB.buffer_lines st) as [|b bs]; try exact H.
  destruct (UOB.parse_tx_from_buffer _ _ _); [|exact H].
  apply Forall_app. split; [exact H|]. now constructor.
Qed.

Lemma stitch_lines_years year_value lines : forall st,
  Forall (fun r => UOB.Year r = Some year_value) (UOB.rows st) ->
  Forall (fun r => UOB.Year r = Some year_value)
         (UOB.rows (UOB.stitch_lines year_value st lines)).
Proof.
  unfold UOB.stitch_lines.
  induction lines as [|l lines IH]; intros st H; [exact H|].
  cbn [fold_left]. apply IH. unfold UOB.stitch_line.
  destruct (Re.match_ UOB.TX_START_RE (Str.strip l)).
  - cbn [UOB.rows]. now apply flush_years.
  - destruct (UOB.current_post st); exact H.
Qed.

(** The outcome of the continuation loop, for lines that the noise
    classifier keeps. *)
Lemma continuation_amount conts : forall amount desc_parts,
  Forall noise_free conts ->
  (fst (UOB.continuation amount desc_parts conts) = None
   <-> amount = None /\ Forall (fun c => ~ amount_only c) conts).
Proof.
  induction conts as [|c conts IH]; intros amount desc_parts H.
  - cbn. split; [now split|tauto].
  - inversion H as [|? ? Hc Hrest]; subst.
    rewrite (continuation_kept amount desc_parts conts Hc).
    unfold amount_only at 1.
    destruct amount as [a|].
    + rewrite IH by assumption. split; [intros [E _]|intros [E _]]; discriminate.
    + destruct (Re.match_ UOB.AMT_ONLY_RE (Str.strip c)) as [m|] eqn:Em.
      * rewrite IH by assumption. split.
        -- intros [E _]. discriminate.
        -- intros [_ Hall]. inversion Hall as [|? ? Hn _]; subst.
           exfalso. apply Hn. unfold amount_only. rewrite Em. discriminate.
      * rewrite IH by assumption. split.
        -- intros [_ Hall]. split; [reflexivity|]. constructor; [|exact Hall].
           unfold amount_only. rewrite Em. tauto.
        -- intros [_ Hall]. inversion Hall; subst. now split.
Qed.

Lemma in_lstrip (x : ascii) (s : str) : In x (Str.lstrip s) -> In x s.
Proof.
  destruct (lstrip_suffix s) as [w Hw]. intros H. rewrite Hw.
  apply in_or_app. now right.
Qed.

Lemma in_strip (x : ascii) (s : str) : In x (Str.strip s) -> In x s.
Proof.
  unfold Str.strip, Str.rstrip. intros H.
  apply in_rev, in_lstrip in H. apply in_rev in H. now apply in_lstrip.
Qed.

Lemma remove_char_fixed (c : ascii) (s : str) :
  ~ In c s -> Str.remove_char c s = s.
Proof.
  unfold Str.remove_char. induction s as [|x s IH]; intros H; [reflexivity|].
  cbn [filter]. destruct (Ascii.eqb x c) eqn:E.
  - apply Ascii.eqb_eq in E. subst. exfalso. apply H. now left.
  - cbn [negb]. f_equal. apply IH. intros Hin. apply H. now right.
Qed.

Lemma not_in_remove_char (c : ascii) (s : str) : ~ In c (Str.remove_char c s).
Proof.
  unfold Str.remove_char. intros H. apply filter_In in H as [_ H].
  now rewrite Ascii.eqb_refl in H.
Qed.

(** No comma in the stripped, comma-free form, and cleaning it again
    changes nothing. *)
Lemma plain_amount (num : str) :
  ~ In ","%char (Str.strip (Str.remove_char "," num))
  /\ Str.strip (Str.remove_char ","
                  (Str.strip (Str.remove_char "," num)))
     = Str.strip (Str.remove_char "," num).
Proof.
  assert (H : ~ In ","%char (Str.strip (Str.remove_char "," num))).
  { intros H. apply in_strip in H. now apply not_in_remove_char in H. }
  split; [exact H|]. rewrite (remove_char_fixed _ _ H). apply strip_idem.
Qed.

Lemma single_spaced_suffix (w s : str) :
  single_spaced (w ++ s) -> single_spaced s.
Proof.
  induction w as [|c w IH]; [trivial|]. cbn [app single_spaced].
  intros [_ H]. now apply IH.
Qed.

Lemma single_spaced_prefix (s w : str) :
  single_spaced (s ++ w) -> single_spaced s.
Proof.
  induction s as [|c s IH]; [constructor|]. cbn [app single_spaced].
  intros [Hc H]. split; [|now apply IH].
  intros Hsp. destruct (Hc Hsp) as [E Hnext]. split; [exact E|].
  destruct s; [exact I|exact Hnext].
Qed.

Lemma rstrip_prefix (s : str) : exists w, s = Str.rstrip s ++ w.
Proof.
  unfold Str.rstrip. destruct (lstrip_suffix (rev s)) as [w Hw].
  exists (rev w). apply (f_equal (@rev ascii)) in Hw.
  now rewrite rev_involutive, rev_app_distr in Hw.
Qed.

Lemma single_spaced_strip (s : str) :
  single_spaced s -> single_spaced (Str.strip s).
Proof.
  intros H. unfold Str.strip.
  destruct (lstrip_suffix s) as [w Hw]. rewrite Hw in H.
  apply single_spaced_suffix in H.
  destruct (rstrip_prefix (Str.lstrip s)) as [w' Hw']. rewrite Hw' in H.
  now apply single_spaced_prefix in H.
Qed.

Lemma trimmed_strip (s : str) : trimmed (Str.strip s).
Proof.
  unfold trimmed, Str.strip. split.
  - apply rstrip_head, lstrip_head.
  - unfold Str.rstrip. rewrite rev_involutive. apply lstrip_head.
Qed.

Lemma collapse_ws_aux_spaced (s : str) : forall in_run,
  single_spaced (Str.collapse_ws_aux in_run s)
  /\ (in_run = true ->
      match Str.collapse_ws_aux in_run s with
      | d :: _ => Str.isspace d = false
      | [] => True
      end).
Proof.
  induction s as [|c t IH]; intros in_run; [now split|].
  cbn [Str.collapse_ws_aux]. destruct (Str.isspace c) eqn:Ec.
  - destruct in_run.
    + apply IH.
    + destruct (IH true) as [H1 H2]. split; [|discriminate].
      cbn [single_spaced]. split; [|exact H1].
      intros _. split; [reflexivity|now apply H2].
  - destruct (IH false) as [H1 _]. split.
    + cbn [single_spaced]. split; [|exact H1]. rewrite Ec. discriminate.
    + intros _. exact Ec.
Qed.

End UobFacts.

(** X1: [clean_lines] is the noise filter over the stripped lines of the
    section: its own tests for the start marker and the end marker never
    decide anything, because a line holding either marker is noise
    already.  Every line it returns is stripped, not empty and kept by
    the noise classifier. *)
Theorem clean_lines_is_noise_filter (section : str) :
  UOB.clean_lines section
  = filter (fun ln => negb (UOB.is_redundant_line ln))
           (map Str.strip (Str.splitlines section))
  /\ Forall (fun ln => Str.strip ln = ln /\ ln <> []
                       /\ UOB.is_redundant_line ln = false)
            (UOB.clean_lines section).
Proof.
  assert (E : UOB.clean_lines section
              = filter (fun ln => negb (UOB.is_redundant_line ln))
                       (map Str.strip (Str.splitlines section))).
  { unfold UOB.clean_lines. apply UobFacts.clean_loop_filter,
      UobFacts.stripped_lines. }
  split; [exact E|]. rewrite E. apply Forall_forall. intros ln Hin.
  apply filter_In in Hin as [Hin Hk].
  apply in_map_iff in Hin as (x & <- & _).
  apply negb_true_iff in Hk.
  split; [apply LineFacts.strip_idem|]. split; [|exact Hk].
  intros E0. rewrite E0 in Hk. vm_compute in Hk. discriminate.
Qed.



(** X3: the lines before the first record-start line are dropped: they
    change neither the rows nor the records that follow. *)
Theorem lines_before_first_record_are_dropped
    (year_value : str) (pre lines : list str) :
  Forall (fun l => is_start l = false) pre ->
  UOB.stitch_rows year_value (pre ++ lines) = UOB.stitch_rows year_value lines.
Proof.
  intros Hpre. unfold UOB.stitch_rows, UOB.stitch_lines.
  rewrite fold_left_app.
  change (fold_left (UOB.stitch_line year_value) pre UOB.idle)
    with (UOB.stitch_lines year_value UOB.idle pre).
  now rewrite (UobFacts.idle_stays year_value pre UOB.idle eq_refl Hpre).
Qed.

Lemma lines_before_first_record_witness :
  UOB.stitch_rows (txt "2022")
    [txt "Date Date SGD"; txt "stray text"; txt "08 JUN 08 JUN NETS 7.00"]
  = UOB.stitch_rows (txt "2022") [txt "08 JUN 08 JUN NETS 7.00"].
Proof.
  apply (lines_before_first_record_are_dropped (txt "2022")
           [txt "Date Date SGD"; txt "stray text"]
           [txt "08 JUN 08 JUN NETS 7.00"]).
  repeat constructor.
Defined.

(** X4: a record-start line closes the record before it: the rows of a
    line stream are the rows of the lines before a record-start line
    followed by the rows of the lines from it on, so no record takes
    text from the next one. *)
Theorem record_start_closes_previous
    (year_value : str) (before : list str) (line : str) (after : list str) :
  is_start line = true ->
  UOB.stitch_rows year_value (before ++ line :: after)
  = UOB.stitch_rows year_value before
    ++ UOB.stitch_rows year_value (line :: after).
Proof.
  intros Hstart. unfold UOB.stitch_rows, UOB.stitch_lines.
  rewrite fold_left_app. cbn [fold_left].
  set (sa := fold_left (UOB.stitch_line year_value) before UOB.idle).
  assert (Hline : UOB.stitch_line year_value sa line
                  = with_rows (UOB.rows (UOB.flush year_value sa))
                      (UOB.stitch_line year_value UOB.idle line)).
  { unfold UOB.stitch_line. unfold is_start in Hstart.
    destruct (Re.match_ UOB.TX_START_RE (Str.strip line)); [|discriminate].
    unfold with_rows. cbn [UOB.rows UOB.current_post UOB.current_trans
      UOB.buffer_lines UOB.flush UOB.idle]. now rewrite app_nil_r. }
  rewrite Hline.
  change (fold_left (UOB.stitch_line year_value) after ?s)
    with (UOB.stitch_lines year_value s after).
  rewrite UobFacts.stitch_lines_with_rows, UobFacts.flush_with_rows.
  reflexivity.
Qed.

Lemma record_start_closes_previous_witness :
  UOB.stitch_rows (txt "2022")
    [txt "07 JUN 07 JUN CR INTEREST"; txt "16.84 CR";
     txt "08 JUN 08 JUN NETS 7.00"; txt "REF 1"]
  = UOB.stitch_rows (txt "2022") [txt "07 JUN 07 JUN CR INTEREST"; txt "16.84 CR"]
    ++ UOB.stitch_rows (txt "2022") [txt "08 JUN 08 JUN NETS 7.00"; txt "REF 1"].
Proof.
  apply (record_start_closes_previous (txt "2022")
           [txt "07 JUN 07 JUN CR INTEREST"; txt "16.84 CR"]
           (txt "08 JUN 08 JUN NETS 7.00") [txt "REF 1"]).
  vm_compute. reflexivity.
Defined.

(** X5: every row of a document carries the year folder of the
    document, and so does every row of a batch carry the year of one of
    its documents. *)
Theorem every_row_has_the_year
    (year_value : str) (pages : list str)
    (pdf_files : list (str * list str)) :
  Forall (fun r => UOB.Year r = Some year_value)
         (UOB.extract_rows_from_pdf year_value pages)
  /\ Forall (fun r => exists d, In d pdf_files /\ UOB.Year r = Some (fst d))
            (UOB.all_rows pdf_files).
Proof.
  assert (Hdoc : forall y p,
    Forall (fun r => UOB.Year r = Some y) (UOB.extract_rows_from_pdf y p)).
  { intros y p. unfold UOB.extract_rows_from_pdf.
    destruct (UOB.extract_section_text p) as [[|c section]|];
      try constructor.
    unfold UOB.stitch_rows.
    apply UobFacts.flush_years, UobFacts.stitch_lines_years. constructor. }
  split; [apply Hdoc|].
  unfold UOB.all_rows. apply Forall_forall. intros r Hin.
  apply in_flat_map in Hin as (d & Hd & Hr). exists d. split; [exact Hd|].
  pose proof (Hdoc (fst d) (snd d)) as H.
  rewrite Forall_forall in H. now apply H.
Qed.

(** X6: a buffer yields no row exactly when no amount is found in it:
    none at the end of its first fragment behind some description, and
    no continuation line that is solely an amount.  The continuation
    lines are lines that the noise classifier keeps. *)
Theorem row_iff_amount
    (post_date trans_date first : str) (conts : list str) :
  Forall noise_free conts ->
  (UOB.parse_tx_from_buffer post_date trans_date (first :: conts) = None
   <-> fst (UOB.first_line (Str.strip first)) = None
       /\ Forall (fun c => ~ amount_only c) conts).
Proof.
  intros Hconts. unfold UOB.parse_tx_from_buffer.
  destruct (UOB.first_line (Str.strip first)) as [amount desc_parts].
  cbn [fst].
  rewrite <- (UobFacts.continuation_amount conts amount desc_parts Hconts).
  destruct (UOB.continuation amount desc_parts conts) as [[a|] parts];
    cbn [fst]; split; intros H; try discriminate; reflexivity.
Qed.

Lemma row_iff_amount_witness :
  UOB.parse_tx_from_buffer (txt "07 JUN") (txt "07 JUN")
    [txt "CR INTEREST"; txt "REF 123"] = None
  <-> fst (UOB.first_line (Str.strip (txt "CR INTEREST"))) = None
      /\ Forall (fun c => ~ amount_only c) [txt "REF 123"].
Proof.
  apply (row_iff_amount (txt "07 JUN") (txt "07 JUN") (txt "CR INTEREST")
           [txt "REF 123"]).
  repeat constructor.
Defined.

(** X7: the description of every row that the parser returns has no
    whitespace at either end, and inside it whitespace occurs only as
    single spaces; its date has no whitespace at either end. *)
Theorem description_is_single_spaced
    (post_date trans_date : str) (buffer_lines : list str) (r : UOB.row) :
  UOB.parse_tx_from_buffer post_date trans_date buffer_lines = Some r ->
  single_spaced (UOB.Description_Captured r)
  /\ trimmed (UOB.Description_Captured r)
  /\ trimmed (UOB.Transaction_Date_Captured r).
Proof.
  unfold UOB.parse_tx_from_buffer.
  destruct buffer_lines as [|first conts]; [discriminate|].
  destruct (UOB.first_line (Str.strip first)) as [amount desc_parts].
  destruct (UOB.continuation amount desc_parts conts) as [[a|] parts];
    [|discriminate].
  intros [= <-]. cbn [UOB.Description_Captured UOB.Transaction_Date_Captured].
  split; [|split]; try apply UobFacts.trimmed_strip.
  apply UobFacts.single_spaced_strip.
  apply (UobFacts.collapse_ws_aux_spaced _ false).
Qed.

Lemma description_is_single_spaced_witness :
  single_spaced (txt "CR INTEREST REF 123")
  /\ trimmed (txt "CR INTEREST REF 123")
  /\ trimmed (txt "07 JUN").
Proof.
  apply (description_is_single_spaced (txt "07 JUN") (txt " 07 JUN ")
           [txt "CR   INTEREST"; txt "  REF 123 "; txt "16.84 CR"]
           (UOB.mkrow (txt "07 JUN") (txt "CR INTEREST REF 123")
              (txt "(16.84)") None)).
  vm_compute. reflexivity.
Defined.

(** ** More on the AMEX parser *)

Module AmexFacts.

Lemma update_last_keys (rows : list AMEX.row) :
  map row_key (AMEX.standalone_CR rows) = map row_key rows.
Proof.
  unfold AMEX.standalone_CR.
  induction rows as [|r [|r' rows] IH]; [reflexivity| |].
  - cbn. unfold AMEX.credit_row.
    destruct (AMEX.parenthesized (Str.strip (AMEX.Amount_Captured r)));
      reflexivity.
  - cbn [AMEX.update_last map] in *. now rewrite IH.
Qed.

Lemma rows_loop_keys (n : nat) : forall lines rows,
  length lines <= n ->
  map row_key (AMEX.rows_loop rows lines)
  = map row_key rows ++ map row_key (AMEX.rows_loop [] lines).
Proof.
  induction n as [|n IH]; intros [|l rest] rows Hlen;
    try (cbn in Hlen; lia); try (cbn; now rewrite app_nil_r).
  cbn [length] in Hlen. cbn [AMEX.rows_loop].
  destruct (Str.eqb (Str.strip l) (txt "CR")).
  { rewrite IH by lia. now rewrite update_last_keys. }
  destruct (negb (AMEX.found (Re.match_ AMEX.DATE_DDMMYY_DOTS_RE (Str.strip l)))).
  { apply IH. lia. }
  destruct (AMEX.parse_transaction_line (Str.strip l)) as [rec|];
    [|apply IH; lia].
  destruct rest as [|nxt rest'].
  - cbn [AMEX.rows_loop app]. now rewrite map_app.
  - cbn [length] in Hlen. destruct (AMEX.is_CR nxt).
    + rewrite IH by lia. rewrite (IH rest' ([] ++ _)) by lia.
      now rewrite map_app, <- app_assoc.
    + rewrite IH by (cbn [length]; lia).
      rewrite (IH (nxt :: rest') ([] ++ _)) by (cbn [length]; lia).
      now rewrite map_app, <- app_assoc.
Qed.

End AmexFacts.

(** X9: an AMEX amount holds no thousands separator, credit or not; an
    amount that is not a credit is unchanged when it is formatted again;
    and no row that the line parser returns has a comma in its amount. *)
Theorem amex_amount_has_no_separator
    (amount_str : str) (is_credit : bool) (line : str) (r : AMEX.row) :
  ~ In ","%char (AMEX.format_amount_for_excel amount_str is_credit)
  /\ AMEX.format_amount_for_excel
       (AMEX.format_amount_for_excel amount_str false) false
     = AMEX.format_amount_for_excel amount_str false
  /\ (AMEX.parse_transaction_line line = Some r ->
      ~ In ","%char (AMEX.Amount_Captured r)).
Proof.
  assert (Hno : forall a b,
    ~ In ","%char (AMEX.format_amount_for_excel a b)).
  { intros a b. unfold AMEX.format_amount_for_excel.
    destruct (UobFacts.plain_amount a) as [H _]. destruct b; [|exact H].
    intros Hin. apply in_app_or in Hin as [Hin|Hin]; [now destruct Hin|].
    apply in_app_or in Hin as [Hin|Hin]; [contradiction|].
    destruct Hin as [Hin|[]]. discriminate. }
  split; [apply Hno|]. split.
  - unfold AMEX.format_amount_for_excel. apply UobFacts.plain_amount.
  - unfold AMEX.parse_transaction_line.
    destruct (Re.match_ AMEX.TX_RE (Str.strip line)) as [m|]; [|discriminate].
    destruct (AMEX.format_date_and_year _) as [[d y]|];
      intros [= <-]; cbn [AMEX.Amount_Captured]; apply Hno.
Qed.

Lemma amex_amount_has_no_separator_witness :
  ~ In ","%char (txt "(1125.35)").
Proof.
  apply (amex_amount_has_no_separator (txt "1,125.35") true
           (txt "19.01.21 XTRA 1,125.35CR")
           (AMEX.mkrow (txt "19 JAN") (txt "2021") (txt "XTRA") (txt "(1125.35)"))).
  vm_compute. reflexivity.
Defined.

(** X10: the loop emits one row for every clean line that is not a CR
    line, starts with a date and matches the transaction pattern, and
    none for any other line: a CR line, standalone or attached, neither
    adds nor removes a row. *)
Theorem amex_row_count (rows : list AMEX.row) (lines : list str)
    (segments : list str) :
  length (AMEX.rows_loop rows lines)
  = length rows + length (filter emits lines)
  /\ length (AMEX.rows_of_segments segments)
     = length (filter emits (AMEX.clean_of segments)).
Proof.
  split.
  - now apply (RowFacts.rows_loop_length (length lines)).
  - apply RowFacts.rows_of_segments_length.
Qed.

(** X11: the loop only appends rows and rewrites amounts: the dates,
    years and descriptions of the rows it has are kept, in order, ahead
    of those of the rows that the remaining lines give on their own. *)
Theorem amex_rows_only_appended (rows : list AMEX.row) (lines : list str) :
  map row_key (AMEX.rows_loop rows lines)
  = map row_key rows ++ map row_key (AMEX.rows_loop [] lines).
Proof. now apply (AmexFacts.rows_loop_keys (length lines)). Qed.

(** ** The segments of any document *)

Module SegMore.

Import Re Det DetFacts SegFacts.

(** A search result is a match at some offset. *)
Lemma search_from_at (r : regex) (rs : list ascii) : forall sn p e,
  search_from r sn rs = Some (p, e) ->
  exists i, i <= length rs /\ p = length sn + i
            /\ at_pos r (rev (firstn i rs) ++ sn) (skipn i rs) = Some e.
Proof.
  induction rs as [|c t IH]; intros sn p e; cbn [search_from].
  - destruct (at_pos r sn []) as [s|] eqn:E; [|discriminate].
    intros [= <- <-]. exists 0. cbn [length firstn skipn rev app].
    split; [lia|]. split; [lia|exact E].
  - destruct (at_pos r sn (c :: t)) as [s|] eqn:E.
    + intros [= <- <-]. exists 0. cbn [length firstn skipn rev app].
      split; [lia|]. split; [lia|exact E].
    + intros H. destruct (IH _ _ _ H) as (i & Hi & -> & Hat).
      exists (S i). cbn [length firstn skipn rev]. rewrite <- app_assoc.
      split; [lia|]. split; [cbn [length]; lia|exact Hat].
Qed.

Section All.

Variables f fE : list ascii -> option nat.
Hypothesis Hf : factors AMEX.start_marker_re f.
Hypothesis Pf : forall rs n, f rs = Some n -> 1 <= n.
Hypothesis HfE : factors (liti "Total of New Transactions") fE.

Variable t : str.
Variable P : mobj -> Prop.
Hypothesis HP : forall i n j,
  i + n + j <= length t ->
  f (skipn i t) = Some n ->
  first_term (skipn (i + n) t) = Some j ->
  P (mkmobj i (i + n + j) [("1"%string, firstn j (skipn (i + n) t))]).

Lemma finditer_seg_all (fuel : nat) : forall sn rs,
  rev sn ++ rs = t ->
  Forall P (finditer_from fuel AMEX.seg_re sn rs).
Proof.
  induction fuel as [|fu IH]; intros sn rs Ht; [constructor|].
  cbn [finditer_from].
  destruct (search_from AMEX.seg_re sn rs) as [[p e]|] eqn:Es; [|constructor].
  destruct (search_from_at _ _ _ _ _ Es) as (i & Hi & -> & Hat).
  rewrite (at_pos_seg f fE Hf HfE) in Hat.
  destruct (f (skipn i rs)) as [n|] eqn:En; [|discriminate].
  destruct (first_term (skipn n (skipn i rs))) as [j|] eqn:Ej; [|discriminate].
  injection Hat as <-.
  pose proof (proj2 Hf _ _ En) as Hn. rewrite length_skipn in Hn.
  destruct (first_term_spec _ _ Ej) as (Hj & _ & _).
  rewrite !length_skipn in Hj.
  pose proof (Pf _ _ En) as Hpos.
  assert (Hskip : forall k, skipn (length sn + k) t = skipn k rs).
  { intros k. rewrite <- Ht, skipn_app, length_rev.
    rewrite (skipn_all2 (rev sn)) by (rewrite length_rev; lia).
    cbn [app]. f_equal. lia. }
  assert (Hlen : length t = length sn + length rs).
  { rewrite <- Ht, length_app, length_rev. lia. }
  unfold to_mobj, pos. cbn [seen rest caps].
  rewrite !length_app, !length_rev, !length_firstn, length_skipn.
  rewrite !Nat.min_l by lia.
  replace (length sn + i <? n + j + (i + length sn)) with true
    by (symmetry; apply Nat.ltb_lt; lia).
  constructor.
  - replace (n + j + (i + length sn)) with (length sn + i + n + j) by lia.
    replace (skipn n (skipn i rs)) with (skipn (length sn + i + n) t)
      by (rewrite skipn_skipn, <- Nat.add_assoc, Hskip; f_equal; lia).
    apply HP.
    + lia.
    + now rewrite Hskip.
    + rewrite <- Nat.add_assoc, Hskip, <- Ej, skipn_skipn. do 2 f_equal. lia.
  - apply IH. rewrite !rev_app_distr, !rev_involutive, <- !app_assoc.
    now rewrite !firstn_skipn.
Qed.

End All.

Lemma segments_bounded (t : str) :
  Forall (bounded_segment t) (finditer AMEX.seg_re t).
Proof.
  destruct det1_start_marker as (f & Hf & Pf & _).
  destruct det_end_marker as (fE & HfE).
  apply (finditer_seg_all f fE Hf Pf HfE t); [|reflexivity].
  intros i n j Hlen En Ej.
  destruct (first_term_spec _ _ Ej) as (_ & Hterm & Hbefore).
  rewrite skipn_skipn in Hterm.
  exists n. cbn [m_start m_end]. unfold group. cbn [m_caps lookup].
  split; [now apply (Pf _ _ En)|].
  split; [now rewrite (after_start_eq f Hf), En; cbn; rewrite skipn_skipn,
            (Nat.add_comm n i)|].
  split; [lia|]. split; [cbn; do 2 f_equal; lia|].
  split; [now replace (i + n + j) with (j + (i + n)) by lia|].
  intros k Hk. specialize (Hbefore (k - (i + n))).
  rewrite skipn_skipn in Hbefore.
  replace (k - (i + n) + (i + n)) with k in Hbefore by lia.
  apply Hbefore. lia.
Qed.

End SegMore.

(** X12: every segment that [extract_marker_segments] returns, in any
    document, is the text behind a start marker up to the first start
    marker or end marker that follows it: one of them begins right after
    the segment and none begins inside it. *)
Theorem amex_segments_stop_at_terminator (all_text : str) :
  let t := Str.replace_char AMEX.nbsp " " all_text in
  Forall (bounded_segment t) (Re.finditer AMEX.seg_re t)
  /\ AMEX.extract_marker_segments all_text
     = map (fun g => AMEX.or_empty (Re.group g "1")) (Re.finditer AMEX.seg_re t).
Proof.
  split; [apply SegMore.segments_bounded|reflexivity].
Qed.

(** ** Substring search *)

Module FindFacts.

Lemma startswith_spec (p : str) : forall s,
  Str.startswith s p = true <-> s = p ++ skipn (length p) s.
Proof.
  induction p as [|x p IH]; intros [|y s];
    cbn [Str.startswith app length skipn];
    try (split; intros _; reflexivity); try (split; discriminate).
  rewrite andb_true_iff, IH, Ascii.eqb_eq. split.
    + intros [-> E]. now f_equal.
    + intros [= -> E]. now split.
Qed.

Lemma startswith_app (p s : str) : Str.startswith (p ++ s) p = true.
Proof.
  induction p as [|x p IH]; [now destruct s|].
  cbn. now rewrite Ascii.eqb_refl, IH.
Qed.

Lemma startswith_length (p s : str) :
  Str.startswith s p = true -> length p <= length s.
Proof.
  intros H. apply startswith_spec in H. rewrite H, length_app. lia.
Qed.

Lemma find_from_shift (p : str) (s : str) : forall b,
  Str.find_from b s p = option_map (fun i => b + i) (Str.find s p).
Proof.
  unfold Str.find. induction s as [|c t IH]; intros b; cbn [Str.find_from].
  - destruct (Str.startswith [] p); cbn; [f_equal; lia|reflexivity].
  - destruct (Str.startswith (c :: t) p); cbn; [f_equal; lia|].
    rewrite (IH (S b)), (IH 1).
    destruct (Str.find_from 0 t p); cbn; [f_equal; lia|reflexivity].
Qed.

Lemma find_cons (p : str) (c : ascii) (t : str) :
  Str.find (c :: t) p
  = if Str.startswith (c :: t) p then Some 0
    else option_map S (Str.find t p).
Proof.
  unfold Str.find at 1. cbn [Str.find_from].
  destruct (Str.startswith (c :: t) p); [reflexivity|].
  now rewrite find_from_shift.
Qed.

Lemma find_nil (p : str) :
  Str.find [] p = if Str.startswith [] p then Some 0 else None.
Proof. reflexivity. Qed.

(** [find] gives the first offset at which the text continues with the
    pattern. *)
Lemma find_spec (p : str) (s : str) : forall i,
  Str.find s p = Some i ->
  Str.startswith (skipn i s) p = true
  /\ i + length p <= length s
  /\ forall k, k < i -> Str.startswith (skipn k s) p = false.
Proof.
  induction s as [|c t IH]; intros i.
  - rewrite find_nil. destruct (Str.startswith [] p) eqn:E; [|discriminate].
    intros [= <-]. split; [exact E|].
    split; [apply startswith_length in E; cbn in *; lia|]. intros k Hk. lia.
  - rewrite find_cons. destruct (Str.startswith (c :: t) p) eqn:E.
    + intros [= <-]. split; [exact E|].
      split; [apply startswith_length in E; cbn in *; lia|]. intros k Hk. lia.
    + destruct (Str.find t p) as [j|]; [|discriminate]. intros [= <-].
      destruct (IH j eq_refl) as (H1 & H2 & H3).
      split; [exact H1|]. split; [cbn; lia|].
      intros [|k] Hk; [exact E|]. apply H3. lia.
Qed.

Lemma find_none (p : str) (s : str) :
  Str.find s p = None -> forall k, Str.startswith (skipn k s) p = false.
Proof.
  induction s as [|c t IH].
  - rewrite find_nil. destruct (Str.startswith [] p) eqn:E; [discriminate|].
    intros _ k. now rewrite skipn_nil.
  - rewrite find_cons. destruct (Str.startswith (c :: t) p) eqn:E;
      [discriminate|].
    destruct (Str.find t p) eqn:Et; [discriminate|]. intros _ [|k]; [exact E|].
    now apply IH.
Qed.

(** A pattern found behind an offset is found in the whole text. *)
Lemma find_skipn_none (p : str) (s : str) (k : nat) :
  Str.find s p = None -> Str.find (skipn k s) p = None.
Proof.
  intros H. destruct (Str.find (skipn k s) p) as [i|] eqn:E; [|reflexivity].
  apply find_spec in E as (E & _ & _). rewrite skipn_skipn in E.
  now rewrite (find_none p s H) in E.
Qed.

(** The text is cut where the pattern is found. *)
Lemma find_split (p s : str) (i : nat) :
  Str.find s p = Some i ->
  s = firstn i s ++ p ++ skipn (i + length p) s.
Proof.
  intros H. apply find_spec in H as (H & _ & _).
  apply startswith_spec in H. rewrite skipn_skipn in H.
  rewrite <- (firstn_skipn i s) at 1. f_equal.
  now rewrite (Nat.add_comm i).
Qed.

(** No occurrence of the pattern lies before the one that is found. *)
Lemma find_firstn (p s : str) (i : nat) :
  p <> [] -> Str.find s p = Some i -> Str.find (firstn i s) p = None.
Proof.
  intros Hp H. destruct (find_spec p s i H) as (_ & Hlen & Hmin).
  destruct (Str.find (firstn i s) p) as [k|] eqn:E; [|reflexivity].
  apply find_spec in E as (E & Hk & _).
  rewrite length_firstn in Hk.
  assert (Hpl : 1 <= length p) by (destruct p; [congruence|cbn; lia]).
  assert (Hki : k < i) by lia.
  apply startswith_spec in E.
  assert (Hs : Str.startswith (skipn k s) p = true).
  { rewrite <- (firstn_skipn i s), skipn_app, E, <- app_assoc.
    apply startswith_app. }
  now rewrite (Hmin k Hki) in Hs.
Qed.

End FindFacts.

(** ** The OCBC parser *)

Module OcbcFacts.

Import LineFacts.

Lemma split_aux_no_sep (sep : ascii) (a : str) : forall cur,
  ~ In sep a -> OCBC.split_aux sep cur a = [rev cur ++ a].
Proof.
  induction a as [|c a IH]; intros cur Hin; cbn [OCBC.split_aux].
  - now rewrite app_nil_r.
  - destruct (Ascii.eqb c sep) eqn:E.
    + apply Ascii.eqb_eq in E. exfalso. apply Hin. now left.
    + rewrite IH by (intros H; apply Hin; now right).
      cbn [rev]. now rewrite <- app_assoc.
Qed.

Lemma split_aux_app (sep : ascii) (a b : str) : forall cur,
  ~ In sep a ->
  OCBC.split_aux sep cur (a ++ sep :: b)
  = (rev cur ++ a) :: OCBC.split_aux sep [] b.
Proof.
  induction a as [|c a IH]; intros cur Hin; cbn [OCBC.split_aux app].
  - rewrite Ascii.eqb_refl. now rewrite app_nil_r.
  - destruct (Ascii.eqb c sep) eqn:E.
    + apply Ascii.eqb_eq in E. exfalso. apply Hin. now left.
    + rewrite IH by (intros H; apply Hin; now right).
      cbn [rev]. now rewrite <- app_assoc.
Qed.

Lemma ocbc_clean_loop_kept (raw : list str) :
  Forall (fun ln => Str.strip ln = ln /\ ln <> []
                    /\ OCBCDriver.is_redundant_line ln = false)
         (OCBCDriver.clean_loop raw).
Proof.
  induction raw as [|ln raw IH]; [constructor|].
  cbn [OCBCDriver.clean_loop]. cbn zeta.
  destruct (Str.eqb (Str.strip ln) OCBCDriver.start_marker); [exact IH|].
  destruct (Str.eqb (Str.strip ln) OCBCDriver.end_marker); [constructor|].
  destruct (OCBCDriver.is_redundant_line (Str.strip ln)) eqn:E; [exact IH|].
  constructor; [|exact IH].
  split; [apply strip_idem|]. split; [|exact E].
  intros E0. rewrite E0 in E. vm_compute in E. discriminate.
Qed.

Lemma ocbc_clean_loop_stops (e : str) (after : list str) :
  Str.strip e = OCBCDriver.end_marker ->
  forall before,
    OCBCDriver.clean_loop (before ++ e :: after) = OCBCDriver.clean_loop before.
Proof.
  intros He. induction before as [|ln before IH]; cbn [app OCBCDriver.clean_loop].
  - cbn zeta. rewrite He. reflexivity.
  - cbn zeta. now rewrite IH.
Qed.

(** On a stripped line the parser sees what the loop's own test sees. *)
Lemma ocbc_parse_is_match (line : str) :
  Str.strip line = line ->
  OCBCDriver.found (Re.match_ OCBCDriver.TX_RE line)
  = match OCBCDriver.parse_transaction_line line with
    | Some _ => true
    | None => false
    end.
Proof.
  intros E. unfold OCBCDriver.parse_transaction_line. rewrite E.
  now destruct (Re.match_ OCBCDriver.TX_RE line).
Qed.

Lemma ocbc_rows_loop_fields (year_value : str) (n : nat) : forall lines,
  length lines <= n ->
  Forall (fun ln => Str.strip ln = ln) lines ->
  map ocbc_fields (OCBCDriver.rows_loop year_value lines)
  = flat_map (ocbc_line_fields year_value) lines.
Proof.
  induction n as [|n IH]; intros [|line rest] Hlen Hs;
    try reflexivity; [cbn in Hlen; lia|].
  cbn [length] in Hlen. inversion Hs as [|? ? Hline Hrest]; subst.
  cbn [OCBCDriver.rows_loop flat_map]. unfold ocbc_line_fields at 1.
  destruct (OCBCDriver.parse_transaction_line line) as [rec|];
    [|cbn [app]; apply IH; [lia|exact Hrest]].
  destruct rest as [|nxt rest']; [reflexivity|].
  inversion Hrest as [|? ? Hnxt Hrest']; subst.
  cbn [length] in Hlen.
  destruct (negb (OCBCDriver.found (Re.match_ OCBCDriver.TX_RE nxt))
            && negb (OCBCDriver.is_redundant_line nxt)) eqn:E.
  - apply andb_true_iff in E as [E _]. apply negb_true_iff in E.
    rewrite (ocbc_parse_is_match nxt Hnxt) in E.
    assert (Hn : ocbc_line_fields year_value nxt = []).
    { unfold ocbc_line_fields.
      now destruct (OCBCDriver.parse_transaction_line nxt). }
    cbn [map flat_map app]. rewrite Hn. cbn [app]. f_equal.
    apply IH; [lia|exact Hrest'].
  - cbn [map app]. f_equal.
    apply (IH (nxt :: rest')); [cbn [length]; lia|exact Hrest].
Qed.

End OcbcFacts.

(** ** Blocks between two literal markers *)

Module BlockFacts.

Import Re Det DetFacts FindFacts.

Lemma factors_ext r f g :
  factors r f -> (forall rs, f rs = g rs) -> factors r g.
Proof.
  intros [H B] E. split.
  - intros k s. now rewrite H, E.
  - intros rs n. rewrite <- E. apply B.
Qed.

Lemma factors_chrs (w : str) : factors (seqs (map chr w)) (lit_len w).
Proof.
  induction w as [|c w IH].
  - split.
    + intros k s. cbn. unfold lit_len.
      destruct (rest s); cbn; now rewrite adv_0.
    + intros rs n. unfold lit_len. destruct rs; intros [= <-]; cbn; lia.
  - destruct w as [|c' w].
    + apply (factors_ext _ _ _ (factors_cls (Ascii.eqb c))).
      intros [|y t]; unfold lit_len; cbn; [reflexivity|].
      destruct (Ascii.eqb c y); [|reflexivity]. now destruct t.
    + change (seqs (map chr (c :: c' :: w)))
        with (Seq (chr c) (seqs (map chr (c' :: w)))).
      apply (factors_ext _ _ _ (factors_seq _ _ _ _
                                  (factors_cls (Ascii.eqb c)) IH)).
      intros [|y t]; unfold seq_len, cls_len, lit_len; [reflexivity|].
      cbn [Str.startswith]. destruct (Ascii.eqb c y); [|reflexivity].
      cbn [skipn andb].
      destruct (Str.startswith t (c' :: w)); cbn [length]; reflexivity.
Qed.

Section Block.

Variables wS wE : str.

(** The lazy repetition of any character stops at the first occurrence
    of the literal behind it. *)
Lemma lazy_find :
  forall fuel s,
    length (rest s) <= fuel ->
    star_loop false (run dotall) (run (seqs (map chr wE)) (fun x => Some x))
      fuel s
    = match Str.find (rest s) wE with
      | Some j => Some (adv (j + length wE) s)
      | None => None
      end.
Proof.
  pose proof (proj1 (factors_chrs wE)) as HE.
  induction fuel as [|n IH]; intros s Hlen.
  - destruct (rest s) eqn:E; [|cbn in Hlen; lia].
    cbn [star_loop]. rewrite HE, E, find_nil. unfold lit_len.
    destruct (Str.startswith [] wE); reflexivity.
  - cbn [star_loop]. rewrite HE.
    destruct (rest s) as [|c t] eqn:E.
    + rewrite find_nil. unfold lit_len.
      destruct (Str.startswith [] wE); [reflexivity|].
      cbn. now rewrite E.
    + rewrite find_cons. unfold lit_len.
      destruct (Str.startswith (c :: t) wE); [reflexivity|].
      cbn [run dotall]. rewrite E. cbn [step rest length].
      replace (length t <? S (length t)) with true
        by (symmetry; apply Nat.ltb_lt; lia).
      rewrite IH by (cbn in *; lia). cbn [step rest].
      destruct (Str.find t wE) as [j|]; [|reflexivity].
      cbn [option_map]. f_equal.
      now rewrite <- (adv_step s c t (j + length wE) E).
Qed.

Lemma at_pos_block sn rs :
  at_pos (block_between wS wE) sn rs
  = if Str.startswith rs wS then
      match Str.find (skipn (length wS) rs) wE with
      | Some j => Some (adv (length wS + (j + length wE)) (mkst sn rs []))
      | None => None
      end
    else None.
Proof.
  unfold at_pos, block_between. cbn [run]. rewrite (proj1 (factors_chrs wS)).
  cbn [rest]. unfold lit_len at 1.
  destruct (Str.startswith rs wS); [|reflexivity].
  change (run (lazy_star dotall) ?k ?s)
    with (star_loop false (run dotall) k (length (rest s)) s).
  rewrite lazy_find by lia.
  cbn [adv rest].
  destruct (Str.find (skipn (length wS) rs) wE) as [j|]; [|reflexivity].
  now rewrite adv_adv.
Qed.

Lemma block_at_nil :
  block_at wS wE []
  = if Str.startswith [] wS then
      match Str.find (skipn (length wS) []) wE with
      | Some j => Some (0, length wS + j + length wE)
      | None => None
      end
    else None.
Proof.
  unfold block_at. rewrite find_nil.
  destruct (Str.startswith [] wS); reflexivity.
Qed.

Lemma search_from_block (rs : list ascii) : forall sn,
  search_from (block_between wS wE) sn rs
  = match block_at wS wE rs with
    | Some (i, n) => Some (length sn + i, adv (i + n) (mkst sn rs []))
    | None => None
    end.
Proof.
  induction rs as [|c t IH]; intros sn; cbn [search_from];
    rewrite at_pos_block.
  - rewrite block_at_nil.
    destruct (Str.startswith [] wS); [|reflexivity].
    destruct (Str.find (skipn (length wS) []) wE) as [j|]; [|reflexivity].
    do 3 f_equal; lia.
  - unfold block_at. rewrite find_cons.
    destruct (Str.startswith (c :: t) wS) eqn:ES.
    + cbn [Nat.add].
      destruct (Str.find (skipn (length wS) (c :: t)) wE) as [j|] eqn:EE.
      * do 3 f_equal; lia.
      * rewrite IH. unfold block_at.
        destruct (Str.find t wS) as [i|]; [|reflexivity].
        replace (skipn (i + length wS) t)
          with (skipn (S i) (skipn (length wS) (c :: t)))
          by (rewrite skipn_skipn; reflexivity).
        now rewrite (find_skipn_none wE _ (S i) EE).
    + rewrite IH. unfold block_at.
      destruct (Str.find t wS) as [i|]; [|reflexivity].
      cbn [option_map Nat.add skipn].
      destruct (Str.find (skipn (i + length wS) t) wE) as [j|]; [|reflexivity].
      f_equal. f_equal; [cbn [length]; lia|].
      symmetry. apply (adv_step (mkst sn (c :: t) []) c t). reflexivity.
Qed.

(** The match of [search]: its bounds, and the text it spans. *)
Lemma search_block (t : str) :
  match search (block_between wS wE) t with
  | Some m =>
      exists i j,
        Str.find t wS = Some i
        /\ Str.find (skipn (i + length wS) t) wE = Some j
        /\ firstn (m_end m - m_start m) (skipn (m_start m) t)
           = wS ++ firstn j (skipn (i + length wS) t) ++ wE
  | None => block_at wS wE t = None
  end.
Proof.
  unfold search. rewrite search_from_block.
  destruct (block_at wS wE t) as [[i n]|] eqn:E; [|reflexivity].
  cbn [option_map fst snd]. unfold block_at in E.
  destruct (Str.find t wS) as [i'|] eqn:ES; [|discriminate].
  destruct (Str.find (skipn (i' + length wS) t) wE) as [j|] eqn:EE;
    [|discriminate].
  injection E as <- <-. exists i', j. split; [reflexivity|].
  split; [exact EE|].
  destruct (find_spec _ _ _ ES) as (_ & HlS & _).
  destruct (find_spec _ _ _ EE) as (_ & HlE & _).
  rewrite length_skipn in HlE.
  unfold to_mobj, pos, adv. cbn [m_start m_end seen rest length Nat.add].
  rewrite app_nil_r, length_rev, length_firstn, Nat.min_l by lia.
  replace (i' + (length wS + j + length wE) - i')
    with (length wS + (j + length wE)) by lia.
  rewrite (find_split _ _ _ ES) at 1.
  rewrite skipn_app, length_firstn, Nat.min_l by lia.
  rewrite (skipn_all2 (firstn i' t)) by (rewrite length_firstn; lia).
  replace (i' - i') with 0 by lia. cbn [app skipn].
  rewrite firstn_app, firstn_all2 by lia.
  replace (length wS + (j + length wE) - length wS) with (j + length wE)
    by lia.
  f_equal.
  rewrite (find_split _ _ _ EE) at 1.
  rewrite firstn_app, length_firstn, length_skipn, Nat.min_l by lia.
  rewrite (firstn_all2 (firstn j _)) by (rewrite length_firstn; lia).
  f_equal. replace (j + length wE - j) with (length wE) by lia.
  rewrite firstn_app, firstn_all2 by lia.
  replace (length wE - length wE) with 0 by lia. cbn [firstn].
  now rewrite app_nil_r.
Qed.

End Block.

End BlockFacts.

(** X13: [format_tx_date] never fails.  A token without a slash is
    returned stripped.  Of a token with a slash only the text before the
    first slash and the text between the first and the second slash
    count, so a year behind a second slash is ignored; both are padded
    to two characters, and a month that is not one of [01] to [12] is
    kept as it is. *)
Theorem tx_date_is_day_and_month (date_str dd mm tail : str) :
  (~ In "/"%char (Str.strip date_str) ->
   OCBC.format_tx_date date_str = Str.strip date_str)
  /\ (Str.strip date_str = dd ++ "/"%char :: mm ++ tail ->
      ~ In "/"%char dd -> ~ In "/"%char mm ->
      tail = [] \/ hd_error tail = Some "/"%char ->
      OCBC.format_tx_date date_str
      = OCBC.zfill2 dd ++ txt " "
        ++ Str.get OCBC.MONTH_ABBR (OCBC.zfill2 mm) (OCBC.zfill2 mm)
      /\ (~ In (OCBC.zfill2 mm) (map fst OCBC.MONTH_ABBR) ->
          OCBC.format_tx_date date_str
          = OCBC.zfill2 dd ++ txt " " ++ OCBC.zfill2 mm)).
Proof.
  split.
  - intros Hno. unfold OCBC.format_tx_date, OCBC.split. cbn zeta.
    now rewrite (OcbcFacts.split_aux_no_sep "/" _ [] Hno).
  - intros Hs Hdd Hmm Htail.
    assert (E : OCBC.format_tx_date date_str
                = OCBC.zfill2 dd ++ txt " "
                  ++ Str.get OCBC.MONTH_ABBR (OCBC.zfill2 mm) (OCBC.zfill2 mm)).
    { unfold OCBC.format_tx_date, OCBC.split. cbn zeta. rewrite Hs.
      rewrite (OcbcFacts.split_aux_app "/" dd (mm ++ tail) [] Hdd).
      cbn [rev app].
      destruct Htail as [-> | Htail].
      - rewrite app_nil_r.
        now rewrite (OcbcFacts.split_aux_no_sep "/" mm [] Hmm).
      - destruct tail as [|c tail]; [discriminate|].
        injection Htail as ->.
        now rewrite (OcbcFacts.split_aux_app "/" mm tail [] Hmm). }
    split; [exact E|]. intros Hkey. rewrite E.
    now rewrite (StrFacts.get_default OCBC.MONTH_ABBR (OCBC.zfill2 mm)
                   (OCBC.zfill2 mm) Hkey).
Qed.

Lemma tx_date_is_day_and_month_witness :
  OCBC.format_tx_date (txt " 2/13/2023 ") = txt "02 13".
Proof.
  refine (proj2 (proj2 (tx_date_is_day_and_month (txt " 2/13/2023 ")
                          (txt "2") (txt "13") (txt "/2023")) _ _ _ _) _).
  - reflexivity.
  - intros H. repeat (destruct H as [H|H]; [discriminate H|]). exact H.
  - intros H. repeat (destruct H as [H|H]; [discriminate H|]). exact H.
  - right. reflexivity.
  - intros H. repeat (destruct H as [H|H]; [discriminate H|]). exact H.
Defined.

(** X14: every line that the cleaning loop keeps is stripped, not empty
    and not noise, so the loop over the clean lines never meets a line
    that its own noise test rejects; and nothing from the first line
    that is the end marker on is kept. *)
Theorem ocbc_clean_lines_stop_at_end_marker
    (before after : list str) (e : str) :
  Forall (fun ln => Str.strip ln = ln /\ ln <> []
                    /\ OCBCDriver.is_redundant_line ln = false)
         (OCBCDriver.clean_loop before)
  /\ (Str.strip e = OCBCDriver.end_marker ->
      OCBCDriver.clean_loop (before ++ e :: after)
      = OCBCDriver.clean_loop before).
Proof.
  split; [apply OcbcFacts.ocbc_clean_loop_kept|].
  intros He. now apply OcbcFacts.ocbc_clean_loop_stops.
Qed.

Lemma ocbc_clean_lines_witness :
  OCBCDriver.clean_loop
    ([txt "14/03 -4751 BUS/MRT 3.95"; txt "PAGE 1 OF 2"]
     ++ txt " SUBTOTAL " :: [txt "01/01 LATER 1.00"])
  = OCBCDriver.clean_loop [txt "14/03 -4751 BUS/MRT 3.95"; txt "PAGE 1 OF 2"].
Proof.
  apply (ocbc_clean_lines_stop_at_end_marker
           [txt "14/03 -4751 BUS/MRT 3.95"; txt "PAGE 1 OF 2"]
           [txt "01/01 LATER 1.00"] (txt " SUBTOTAL ")).
  reflexivity.
Defined.

(** X15: the rows of a document are its transaction lines, in order:
    every clean line that matches the transaction pattern gives one row,
    with the date and the amount of that line and the year folder of the
    document, and no other line gives a row.  A line taken as the rest
    of a description is never a transaction line, so no transaction is
    lost to the line before it. *)
Theorem ocbc_rows_follow_transaction_lines
    (year_value : str) (raw : list str) (pages : list str) :
  let lines := OCBCDriver.clean_loop raw in
  map ocbc_fields (OCBCDriver.rows_loop year_value lines)
  = flat_map (ocbc_line_fields year_value) lines
  /\ length (OCBCDriver.rows_loop year_value lines)
     = length (filter (fun l => OCBCDriver.found
                                  (Re.match_ OCBCDriver.TX_RE l)) lines)
  /\ Forall (fun r => OCBCDriver.Year r = Some year_value)
            (OCBCDriver.extract_rows_from_pdf year_value pages).
Proof.
  assert (Hstripped : forall raw',
    Forall (fun ln => Str.strip ln = ln) (OCBCDriver.clean_loop raw')).
  { intros raw'. pose proof (OcbcFacts.ocbc_clean_loop_kept raw') as H.
    rewrite Forall_forall in *. intros ln Hin. now apply H. }
  assert (Hfields : forall raw',
    map ocbc_fields (OCBCDriver.rows_loop year_value (OCBCDriver.clean_loop raw'))
    = flat_map (ocbc_line_fields year_value) (OCBCDriver.clean_loop raw')).
  { intros raw'.
    apply (OcbcFacts.ocbc_rows_loop_fields year_value
             (length (OCBCDriver.clean_loop raw'))); [lia|apply Hstripped]. }
  cbn zeta. split; [apply Hfields|]. split.
  - rewrite <- (length_map ocbc_fields), Hfields.
    pose proof (Hstripped raw) as Hs.
    induction Hs as [|l ls Hl Hls IH]; [reflexivity|].
    cbn [flat_map filter]. rewrite length_app, IH.
    rewrite (OcbcFacts.ocbc_parse_is_match l Hl). unfold ocbc_line_fields.
    now destruct (OCBCDriver.parse_transaction_line l).
  - unfold OCBCDriver.extract_rows_from_pdf. cbn zeta.
    destruct (Re.search OCBCDriver.block_re _) as [m|]; [|constructor].
    set (raw' := map Str.strip _).
    apply Forall_forall. intros r Hin.
    apply (in_map ocbc_fields) in Hin. rewrite Hfields in Hin.
    apply in_flat_map in Hin as (l & _ & Hin). unfold ocbc_line_fields in Hin.
    destruct (OCBCDriver.parse_transaction_line l); [|destruct Hin].
    destruct Hin as [Hin|[]]. unfold ocbc_fields in Hin.
    now injection Hin as _ _ <-.
Qed.

(** X16: the block of a document is the text from its first header to
    the first [SUBTOTAL] behind that header, both included.  A document
    without the header, or without [SUBTOTAL] behind its first header,
    gives no rows. *)
Theorem ocbc_block_is_first_header_to_first_subtotal
    (year_value : str) (pages : list str) :
  let all_text := Str.join [ascii_of_nat 10] pages in
  OCBCDriver.extract_rows_from_pdf year_value pages
  = match Str.find all_text OCBCDriver.start_marker with
    | None => []
    | Some i =>
        let behind := skipn (i + length OCBCDriver.start_marker) all_text in
        match Str.find behind OCBCDriver.end_marker with
        | None => []
        | Some j =>
            OCBCDriver.rows_loop year_value
              (OCBCDriver.clean_loop
                 (map Str.strip
                    (Str.splitlines
                       (OCBCDriver.start_marker ++ firstn j behind
                        ++ OCBCDriver.end_marker))))
        end
    end.
Proof.
  cbn zeta. unfold OCBCDriver.extract_rows_from_pdf. cbn zeta.
  set (t := Str.join [ascii_of_nat 10] pages).
  pose proof (BlockFacts.search_block OCBCDriver.start_marker
                OCBCDriver.end_marker t) as H.
  change (block_between OCBCDriver.start_marker OCBCDriver.end_marker)
    with OCBCDriver.block_re in H.
  destruct (Re.search OCBCDriver.block_re t) as [m|].
  - destruct H as (i & j & -> & -> & ->). reflexivity.
  - unfold block_at in H.
    destruct (Str.find t OCBCDriver.start_marker) as [i|]; [|reflexivity].
    destruct (Str.find (skipn (i + length OCBCDriver.start_marker) t)
                OCBCDriver.end_marker); [discriminate|reflexivity].
Qed.

(** ** Sections between two literal markers *)

Module CutFacts.

Import FindFacts.

Lemma cut_spec (start stop text : str) :
  stop <> [] ->
  match FS.after_first text start with
  | None => Str.find text start = None
  | Some section =>
      cut_between start stop text
        (if Str.contains section stop
         then FS.before_first section stop else section)
  end.
Proof.
  intros Hstop. unfold FS.after_first.
  destruct (Str.find text start) as [i|] eqn:ES; [|reflexivity].
  unfold Str.contains, FS.before_first.
  set (behind := skipn (i + length start) text).
  destruct (Str.find behind stop) as [j|] eqn:EE.
  - exists i, (skipn j behind). split; [exact ES|].
    split; [now rewrite firstn_skipn|].
    split; [now apply find_firstn|]. right.
    now apply (find_spec stop behind j).
  - exists i, []. split; [exact ES|].
    split; [now rewrite app_nil_r|]. split; [exact EE|now left].
Qed.

End CutFacts.

(** X17: the section cut of the foreign-stock script (lines 118-128)
    raises its [ValueError] exactly when the text holds no start marker;
    otherwise the section it leaves is the text right behind the first
    start marker up to the first end marker behind it, or up to the end
    of the text when no end marker follows, so the section never holds
    the end marker.  The statement is about this step alone, not about
    what the steps behind it raise. *)
Theorem foreign_stock_section_is_between_markers (pages : list str) :
  match FS.section_of pages with
  | FS.Raised _ => Str.find (FS.all_text_of pages) FS.start_marker = None
  | FS.Returned section =>
      cut_between FS.start_marker FS.end_marker (FS.all_text_of pages) section
  end.
Proof.
  unfold FS.section_of. cbn zeta.
  assert (Hstop : FS.end_marker <> []) by discriminate.
  pose proof (CutFacts.cut_spec FS.start_marker FS.end_marker
                (FS.all_text_of pages) Hstop) as H.
  destruct (FS.after_first (FS.all_text_of pages) FS.start_marker)
    as [section|]; [|exact H].
  now destruct (Str.contains section FS.end_marker).
Qed.

(** X18: the SRS script skips a page exactly when its text holds no
    section header, and such a page gives no rows; the section of any
    other page is the text right behind the first header up to the first
    [SECURITY INVESTMENT ACTIVITY] behind it on that page, or up to the
    end of the page. *)
Theorem srs_page_section_is_between_markers (text : str) :
  match SRSDriver.section_of_page text with
  | None =>
      Str.find text SRSDriver.start_marker = None
      /\ SRSDriver.page_rows text = []
  | Some section =>
      cut_between SRSDriver.start_marker SRSDriver.end_marker text section
  end.
Proof.
  unfold SRSDriver.page_rows, SRSDriver.section_of_page.
  assert (Hstop : SRSDriver.end_marker <> []) by discriminate.
  pose proof (CutFacts.cut_spec SRSDriver.start_marker SRSDriver.end_marker
                text Hstop) as H.
  destruct (FS.after_first text SRSDriver.start_marker) as [section|];
    [|now split].
  now destruct (Str.contains section SRSDriver.end_marker).
Qed.

(** ** The foreign-stock parser *)

Module FsFacts.

Import LineFacts.

Lemma fs_rows_loop_fields (n : nat) : forall lines,
  length lines <= n ->
  Forall (fun ln => Str.strip ln = ln) lines ->
  map fs_fields (FSDriver.rows_loop lines) = flat_map fs_line_fields lines.
Proof.
  induction n as [|n IH]; intros [|line rest] Hlen Hs;
    try reflexivity; [cbn in Hlen; lia|].
  cbn [length] in Hlen. inversion Hs as [|? ? Hline Hrest]; subst.
  cbn [FSDriver.rows_loop flat_map]. unfold fs_line_fields at 1.
  destruct (FSDriver.found (Re.match_ FSDriver.date_re line));
    [|cbn [app]; apply IH; [lia|exact Hrest]].
  destruct (FSDriver.parse_transaction_line line) as [record|];
    [|cbn [app]; apply IH; [lia|exact Hrest]].
  destruct rest as [|nxt rest']; [reflexivity|].
  inversion Hrest as [|? ? Hnxt Hrest']; subst.
  cbn [length] in Hlen. cbn zeta. rewrite Hnxt.
  destruct (FSDriver.nonempty nxt
            && negb (FSDriver.found (Re.match_ FSDriver.date_re nxt))
            && (length nxt <=? 40)) eqn:E.
  - apply andb_true_iff in E as [E _]. apply andb_true_iff in E as [_ E].
    apply negb_true_iff in E.
    assert (Hn : fs_line_fields nxt = []).
    { unfold fs_line_fields. now rewrite E. }
    cbn [map flat_map app]. rewrite Hn. cbn [app]. f_equal.
    apply IH; [lia|exact Hrest'].
  - cbn [map app]. f_equal.
    apply (IH (nxt :: rest')); [cbn [length]; lia|exact Hrest].
Qed.

End FsFacts.

(** X19: the rows of the foreign-stock section are its note lines, in
    order: every line that starts with a date and parses as a credit or
    handling note gives one row, with the date, amount, reference,
    balance and flag of that line, and no other line gives a row.  A
    line taken into the description of the row before it starts with no
    date, so it would not have given a row. *)
Theorem foreign_stock_rows_follow_note_lines (section : str) :
  let lines := map Str.strip (Str.splitlines section) in
  map fs_fields (FSDriver.rows_of_section section)
  = flat_map fs_line_fields lines
  /\ length (FSDriver.rows_of_section section)
     = length (filter (fun l =>
                         FSDriver.found (Re.match_ FSDriver.date_re l)
                         && match FSDriver.parse_transaction_line l with
                            | Some _ => true
                            | None => false
                            end) lines).
Proof.
  cbn zeta.
  assert (Hf : map fs_fields (FSDriver.rows_of_section section)
               = flat_map fs_line_fields
                   (map Str.strip (Str.splitlines section))).
  { unfold FSDriver.rows_of_section.
    apply (FsFacts.fs_rows_loop_fields
             (length (map Str.strip (Str.splitlines section)))); [lia|].
    apply Forall_forall. intros ln Hin.
    apply in_map_iff in Hin as (x & <- & _). apply LineFacts.strip_idem. }
  split; [exact Hf|].
  rewrite <- (length_map fs_fields), Hf. clear Hf.
  induction (map Str.strip (Str.splitlines section)) as [|l ls IH];
    [reflexivity|].
  cbn [flat_map filter]. rewrite length_app, IH. unfold fs_line_fields.
  destruct (FSDriver.found (Re.match_ FSDriver.date_re l)); [|reflexivity].
  now destruct (FSDriver.parse_transaction_line l).
Qed.

(** ** The captures of a match *)

Module CaptureFacts.

Import Re.

Lemma captures_refl (ns : list string) (s : st) : captures_from ns s s.
Proof. exists []. split; [reflexivity|constructor]. Qed.

Lemma captures_incl (ns ns' : list string) (s s' : st) :
  incl ns ns' -> captures_from ns s s' -> captures_from ns' s s'.
Proof.
  intros Hi (new & E & H). exists new. split; [exact E|].
  rewrite Forall_forall in *. intros p Hp. apply Hi. now apply H.
Qed.

Lemma captures_trans (ns : list string) (s s1 s2 : st) :
  captures_from ns s s1 -> captures_from ns s1 s2 -> captures_from ns s s2.
Proof.
  intros (n1 & E1 & H1) (n2 & E2 & H2). exists (n2 ++ n1). split.
  - now rewrite E2, E1, app_assoc.
  - apply Forall_app. now split.
Qed.

Lemma orelse_inv {A} (x y : option A) (e : A) :
  orelse x y = Some e -> x = Some e \/ y = Some e.
Proof. destruct x; cbn; intros H; [left|right]; exact H. Qed.

(** What a matcher returns is what its continuation returned, at a
    position whose captures extend those at the start. *)
Definition sound (ns : list string)
    (body : (st -> option st) -> st -> option st) : Prop :=
  forall k s e, body k s = Some e ->
    exists s', k s' = Some e /\ captures_from ns s s'.

Lemma star_loop_sound (ns : list string) (greedy : bool) body :
  sound ns body ->
  forall fuel, sound ns (fun k => star_loop greedy body k fuel).
Proof.
  intros Hb. induction fuel as [|f IH]; intros k s e; cbn [star_loop].
  - intros H. exists s. split; [exact H|apply captures_refl].
  - set (again := fun s' : st =>
                    if length (rest s') <? length (rest s)
                    then star_loop greedy body k f s' else None).
    assert (Hagain : body again s = Some e ->
              exists s', k s' = Some e /\ captures_from ns s s').
    { intros H. apply Hb in H as (s1 & H1 & C1). unfold again in H1.
      destruct (length (rest s1) <? length (rest s)); [|discriminate].
      apply IH in H1 as (s2 & H2 & C2). exists s2. split; [exact H2|].
      now apply captures_trans with s1. }
    destruct greedy.
    + intros H. apply orelse_inv in H as [H|H]; [now apply Hagain|].
      exists s. split; [exact H|apply captures_refl].
    + destruct (k s) as [x|] eqn:Ek.
      * intros [= <-]. exists s. split; [exact Ek|apply captures_refl].
      * apply Hagain.
Qed.

Lemma run_captures (r : regex) : sound (group_names r) (run r).
Proof.
  induction r as [ |p|a IHa b IHb|a IHa b IHb|g a IHa|name a IHa| | | |a IHa];
    intros k s e; cbn [run group_names].
  - intros H. exists s. split; [exact H|apply captures_refl].
  - destruct (rest s) as [|c t]; [discriminate|].
    destruct (p c); [|discriminate]. intros H. exists (step s c t).
    split; [exact H|]. exists []. split; [reflexivity|constructor].
  - intros H. apply IHa in H as (s1 & H1 & C1).
    apply IHb in H1 as (s2 & H2 & C2). exists s2. split; [exact H2|].
    apply captures_trans with s1.
    + apply captures_incl with (group_names a); [|exact C1].
      apply incl_appl, incl_refl.
    + apply captures_incl with (group_names b); [|exact C2].
      apply incl_appr, incl_refl.
  - intros H. apply orelse_inv in H as [H|H].
    + apply IHa in H as (s1 & H1 & C1). exists s1. split; [exact H1|].
      apply captures_incl with (group_names a); [|exact C1].
      apply incl_appl, incl_refl.
    + apply IHb in H as (s1 & H1 & C1). exists s1. split; [exact H1|].
      apply captures_incl with (group_names b); [|exact C1].
      apply incl_appr, incl_refl.
  - apply (star_loop_sound (group_names a) g (run a) IHa).
  - intros H. apply IHa in H as (s1 & H1 & (new & E & Hn)).
    eexists. split; [exact H1|].
    exists ((name, firstn (length (rest s) - length (rest s1)) (rest s))
            :: new).
    split; [cbn; now rewrite E|].
    constructor; [now left|].
    rewrite Forall_forall in *. intros p Hp. right. now apply Hn.
  - destruct (seen s); [|discriminate]. intros H. exists s.
    split; [exact H|apply captures_refl].
  - destruct (at_eol (rest s)); [|discriminate]. intros H. exists s.
    split; [exact H|apply captures_refl].
  - destruct (xorb _ _); [|discriminate]. intros H. exists s.
    split; [exact H|apply captures_refl].
  - destruct (run a (fun x => Some x) s); [|discriminate]. intros H.
    exists s. split; [exact H|apply captures_refl].
Qed.

(** A group that no capture names is absent from the match. *)
Lemma lookup_absent (name : string) (ns : list string)
    (l : list (string * str)) :
  ~ In name ns -> Forall (fun p => In (fst p) ns) l -> lookup name l = None.
Proof.
  intros Hn. induction 1 as [|[n v] l Hp Hl IH]; [reflexivity|].
  cbn [lookup]. destruct (String.eqb n name) eqn:E; [|exact IH].
  apply String.eqb_eq in E. subst. contradiction.
Qed.

Lemma chri_c (x : ascii) :
  Ascii.eqb (Str.lower_char x) (Str.lower_char "C") = true ->
  x = "C"%char \/ x = "c"%char.
Proof.
  destruct x as [[] [] [] [] [] [] [] []]; vm_compute; intros H;
    try discriminate H; auto.
Qed.

Lemma chri_d (x : ascii) :
  Ascii.eqb (Str.lower_char x) (Str.lower_char "D") = true ->
  x = "D"%char \/ x = "d"%char.
Proof.
  destruct x as [[] [] [] [] [] [] [] []]; vm_compute; intros H;
    try discriminate H; auto.
Qed.

Lemma chri_r (x : ascii) :
  Ascii.eqb (Str.lower_char x) (Str.lower_char "R") = true ->
  x = "R"%char \/ x = "r"%char.
Proof.
  destruct x as [[] [] [] [] [] [] [] []]; vm_compute; intros H;
    try discriminate H; auto.
Qed.

(** Two classes in a row take two characters. *)
Lemma run_two (p1 p2 : ascii -> bool) (k : st -> option st) (s e : st) :
  run (Seq (Cls p1) (Cls p2)) k s = Some e ->
  exists c1 c2 t,
    rest s = c1 :: c2 :: t /\ p1 c1 = true /\ p2 c2 = true
    /\ k (step (step s c1 (c2 :: t)) c2 t) = Some e.
Proof.
  cbn [run]. destruct (rest s) as [|c1 t1] eqn:E; [discriminate|].
  destruct (p1 c1) eqn:E1; [|discriminate]. cbn [step rest].
  destruct t1 as [|c2 t]; [discriminate|].
  destruct (p2 c2) eqn:E2; [|discriminate]. intros H.
  exists c1, c2, t. repeat split; assumption.
Qed.

(** The suffix group of the amount pattern holds [CR] or [DR], in any
    case of the letters, when it takes part in the match. *)
Lemma amount_suffix sn rs e :
  at_pos UOB.AMT_AT_END_RE sn rs = Some e ->
  credit_or_debit (lookup "suffix" (caps e)).
Proof.
  unfold at_pos, UOB.AMT_AT_END_RE. cbn [seqs]. cbn [run].
  intros H.
  apply (run_captures UOB.amount_token) in H as (s1 & H1 & (new1 & E1 & N1)).
  cbn [caps] in E1. rewrite app_nil_r in E1.
  change (star ws) with (Star true ws) in H1.
  apply (run_captures (Star true ws)) in H1 as (s2 & H2 & (new2 & E2 & N2)).
  cbn [group_names ws] in N2. cbn [set_cap caps] in E2.
  assert (Hnew2 : new2 = []).
  { destruct new2 as [|p l]; [reflexivity|]. inversion N2 as [|? ? Hp _].
    destruct Hp. }
  subst new2. cbn [app] in E2.
  unfold opt in H2. cbn [run] in H2.
  apply orelse_inv in H2 as [H2|H2].
  - apply orelse_inv in H2 as [H2|H2];
      apply run_two in H2 as (c1 & c2 & t & Er & P1 & P2 & Hk);
      rewrite Er in Hk; cbn [step rest length] in Hk;
      replace (S (S (length t)) - length t) with 2 in Hk by lia;
      cbn [firstn set_cap rest step] in Hk;
      destruct (at_eol t); try discriminate Hk;
      injection Hk as <-; unfold credit_or_debit;
      cbn [set_cap caps lookup];
      change (String.eqb "suffix" "suffix") with true; cbv iota;
      intros v [= <-].
    + apply chri_c in P1. apply chri_r in P2.
      destruct P1 as [-> | ->], P2 as [-> | ->]; left; reflexivity.
    + apply chri_d in P1. apply chri_r in P2.
      destruct P1 as [-> | ->], P2 as [-> | ->]; right; reflexivity.
  - destruct (at_eol (rest s2)); [|discriminate]. injection H2 as <-.
    unfold credit_or_debit. rewrite E2. cbn [lookup].
    change (String.eqb "num" "suffix") with false. cbv iota.
    rewrite E1.
    rewrite (lookup_absent "suffix" (group_names UOB.amount_token) new1);
      [intros v Hv; discriminate|intros Hin; exact Hin|exact N1].
Qed.

End CaptureFacts.

(** ** The amount of a UOB row *)

Module AmountFacts.

Import Re.

Lemma search_amount_suffix (first : str) (m : mobj) :
  search UOB.AMT_AT_END_RE first = Some m ->
  credit_or_debit (group m "suffix").
Proof.
  unfold search.
  destruct (search_from UOB.AMT_AT_END_RE [] first) as [[p e]|] eqn:E;
    [|discriminate].
  intros [= <-]. cbn [fst snd]. unfold group, to_mobj. cbn [m_caps].
  destruct (SegMore.search_from_at _ _ _ _ _ E) as (i & _ & _ & Hat).
  now apply CaptureFacts.amount_suffix in Hat.
Qed.

Lemma match_amount_suffix (s : str) (m : mobj) :
  match_ UOB.AMT_ONLY_RE s = Some m ->
  credit_or_debit (group m "suffix").
Proof.
  unfold match_.
  change (at_pos UOB.AMT_ONLY_RE [] s) with (at_pos UOB.AMT_AT_END_RE [] s).
  destruct (at_pos UOB.AMT_AT_END_RE [] s) as [e|] eqn:E; [|discriminate].
  intros [= <-]. unfold group, to_mobj. cbn [m_caps].
  now apply CaptureFacts.amount_suffix in E.
Qed.

(** With a suffix that the amount patterns capture, the normalised
    amount holds no comma. *)
Lemma normalize_no_comma (num suffix : option str) :
  credit_or_debit suffix ->
  ~ In ","%char (UOB.normalize_amount num suffix).
Proof.
  intros Hs. destruct (UobFacts.plain_amount (UOB.or_empty num)) as [Hno _].
  unfold UOB.normalize_amount. destruct suffix as [v|].
  - cbn [UOB.or_empty]. destruct (Hs v eq_refl) as [-> | ->].
    + change (Str.eqb (txt "CR") (txt "CR")) with true. cbv iota.
      intros H. apply in_app_or in H as [H|H]; [now destruct H|].
      apply in_app_or in H as [H|H]; [contradiction|].
      destruct H as [H|[]]. discriminate.
    + change (Str.eqb (txt "DR") (txt "CR")) with false. cbv iota.
      intros H. apply in_app_or in H as [H|H]; [contradiction|].
      repeat (destruct H as [H|H]; [discriminate H|]). exact H.
  - cbn [UOB.or_empty].
    change (Str.upper (Str.strip [])) with (@nil ascii).
    change (Str.eqb [] (txt "CR")) with false. exact Hno.
Qed.

Lemma first_line_no_comma (first a : str) (parts : list str) :
  UOB.first_line first = (Some a, parts) -> ~ In ","%char a.
Proof.
  unfold UOB.first_line.
  destruct (search UOB.AMT_AT_END_RE first) as [m|] eqn:E; [|discriminate].
  destruct (Str.strip (UOB.slice_to (m_start m) first)); [discriminate|].
  intros [= <- _]. apply normalize_no_comma.
  now apply search_amount_suffix with first.
Qed.

Lemma continuation_no_comma (conts : list str) :
  forall amount parts a parts',
    (forall x, amount = Some x -> ~ In ","%char x) ->
    UOB.continuation amount parts conts = (Some a, parts') ->
    ~ In ","%char a.
Proof.
  induction conts as [|cont conts IH]; intros amount parts a parts' Ha;
    cbn [UOB.continuation].
  - intros [= -> _]. now apply Ha.
  - cbn zeta. destruct (Str.strip cont) as [|c s] eqn:Es; [now apply IH|].
    destruct (UOB.is_redundant_line (c :: s)); [now apply IH|].
    destruct amount as [x|].
    + now apply IH.
    + destruct (match_ UOB.AMT_ONLY_RE (c :: s)) as [m|] eqn:Em.
      * apply IH. intros x [= <-]. apply normalize_no_comma.
        now apply match_amount_suffix with (c :: s).
      * now apply IH.
Qed.

End AmountFacts.

(** X8: no amount of a UOB row holds a thousands separator: whatever
    the buffer, the amount of the row that [parse_tx_from_buffer]
    returns holds no comma.  The suffix that reaches [normalize_amount]
    is one that the amount patterns capture, [CR] or [DR] in any case
    of the letters.  An amount without suffix holds no comma either,
    and normalising it again changes nothing. *)
Theorem uob_amount_has_no_separator
    (post_date trans_date num : str) (buffer_lines : list str) (r : UOB.row) :
  (UOB.parse_tx_from_buffer post_date trans_date buffer_lines = Some r ->
   ~ In ","%char (UOB.Amount_Captured r))
  /\ ~ In ","%char (UOB.normalize_amount (Some num) None)
  /\ UOB.normalize_amount (Some (UOB.normalize_amount (Some num) None)) None
     = UOB.normalize_amount (Some num) None.
Proof.
  split; [|split].
  - unfold UOB.parse_tx_from_buffer.
    destruct buffer_lines as [|first conts]; [discriminate|].
    destruct (UOB.first_line (Str.strip first)) as [amount parts] eqn:Ef.
    destruct (UOB.continuation amount parts conts) as [[a|] parts'] eqn:Ec;
      [|discriminate].
    intros [= <-]. cbn [UOB.Amount_Captured].
    apply (AmountFacts.continuation_no_comma conts amount parts a parts');
      [|exact Ec].
    intros x ->. now apply AmountFacts.first_line_no_comma in Ef.
  - apply AmountFacts.normalize_no_comma. intros v Hv. discriminate.
  - destruct (UobFacts.plain_amount num) as [_ Hidem].
    unfold UOB.normalize_amount. cbn [UOB.or_empty].
    change (Str.upper (Str.strip [])) with (@nil ascii).
    change (Str.eqb [] (txt "CR")) with false. cbv iota. exact Hidem.
Qed.

Lemma uob_amount_has_no_separator_witness :
  ~ In ","%char (txt "(1234.56)").
Proof.
  apply (uob_amount_has_no_separator (txt "07 JUN") (txt "07 JUN") []
           [txt "PAYMENT RECEIVED"; txt "1,234.56 cr"]
           (UOB.mkrow (txt "07 JUN") (txt "PAYMENT RECEIVED")
              (txt "(1234.56)") None)).
  vm_compute. reflexivity.
Defined.
